(** * slack_pull_reminder: build-status aggregation, review classification
      and grouped formatting

    A shallow embedding of [slack_pull_reminder.py].  Data fetched from the
    GitHub API (statuses, reviews, commits) appears as fields of the pull
    request record; the process environment is a function from variable
    names to optional values.  Timestamps are integers (seconds), strings
    are byte strings. *)

From Stdlib Require Import List String Ascii ZArith Lia Bool Permutation Sorted.
Import ListNotations.
Local Open Scope Z_scope.
Local Open Scope list_scope.

(** ** Python string operations used by the program *)

Module Str.

(** [str.lower] on ASCII letters; other bytes are unchanged. *)
Definition lower_ascii (c : ascii) : ascii :=
  let n := nat_of_ascii c in
  if ((65 <=? n) && (n <=? 90))%nat then ascii_of_nat (n + 32) else c.

Fixpoint lower (s : string) : string :=
  match s with
  | EmptyString => EmptyString
  | String c r => String (lower_ascii c) (lower r)
  end.

(** [str.isspace] on one ASCII character. *)
Definition isspace (c : ascii) : bool :=
  let n := nat_of_ascii c in
  (((9 <=? n) && (n <=? 13)) || ((28 <=? n) && (n <=? 32)))%nat.

Fixpoint lstrip (s : string) : string :=
  match s with
  | EmptyString => EmptyString
  | String c r => if isspace c then lstrip r else s
  end.

Fixpoint rev_append (s acc : string) : string :=
  match s with
  | EmptyString => acc
  | String c r => rev_append r (String c acc)
  end.

Definition rev (s : string) : string := rev_append s EmptyString.

Definition rstrip (s : string) : string := rev (lstrip (rev s)).

(** [s.strip()] *)
Definition strip (s : string) : string := rstrip (lstrip s).

(** [s.split(sep)] for a one-character separator: never an empty list. *)
Fixpoint split (sep : ascii) (s : string) : list string :=
  match s with
  | EmptyString => [EmptyString]
  | String c r =>
      if Ascii.eqb c sep then EmptyString :: split sep r
      else match split sep r with
           | h :: t => String c h :: t
           | [] => [String c EmptyString]
           end
  end.

(** [needle in hay] *)
Fixpoint contains (needle hay : string) : bool :=
  String.prefix needle hay
  || match hay with
     | EmptyString => false
     | String _ r => contains needle r
     end.

(** Truth value of a string: non-empty. *)
Definition truthy (s : string) : bool :=
  match s with EmptyString => false | String _ _ => true end.

End Str.

(** ** Python dictionaries: insertion-ordered, one entry per key *)

Module Dict.
Section Dict.
Context {K V : Type}.
Variable eqb : K -> K -> bool.

Definition t := list (K * V).

Definition empty : t := [].

(** [d.get(k)] *)
Fixpoint get (d : t) (k : K) : option V :=
  match d with
  | [] => None
  | (k', v) :: r => if eqb k k' then Some v else get r k
  end.

(** [k in d] *)
Definition mem (d : t) (k : K) : bool :=
  match get d k with Some _ => true | None => false end.

(** [d[k] = v]: a present key keeps its position, a new one goes last. *)
Fixpoint set (d : t) (k : K) (v : V) : t :=
  match d with
  | [] => [(k, v)]
  | (k', v') :: r =>
      if eqb k k' then (k', v) :: r else (k', v') :: set r k v
  end.

(** [del d[k]] for a key that is present (no effect otherwise). *)
Fixpoint del (d : t) (k : K) : t :=
  match d with
  | [] => []
  | (k', v') :: r => if eqb k k' then r else (k', v') :: del r k
  end.

(** [d.values()], in insertion order *)
Definition values (d : t) : list V := map snd d.

Definition keys (d : t) : list K := map fst d.

End Dict.
End Dict.

(** ** Constants of the program *)

Module CombinedBuildStatus.
Definition success : string := "success".
Definition pending : string := "pending".
Definition failure : string := "failure".
End CombinedBuildStatus.

Module PullRequestStatusGroup.
Inductive t : Type :=
| approved
| changes_requested
| mixed_reception
| unreviewed
| changes_since_review.

Definition eqb (g h : t) : bool :=
  match g, h with
  | approved, approved
  | changes_requested, changes_requested
  | mixed_reception, mixed_reception
  | unreviewed, unreviewed
  | changes_since_review, changes_since_review => true
  | _, _ => false
  end.
End PullRequestStatusGroup.

Module PullRequestReviewState.
Definition APPROVED : string := "APPROVED".
Definition CHANGES_REQUESTED : string := "CHANGES_REQUESTED".
Definition COMMENTED : string := "COMMENTED".
Definition PENDING : string := "PENDING".
End PullRequestReviewState.

(** ** Records read from the GitHub API *)

(** [github3.repos.status.Status]: [updated_at] may be [None]. *)
Module Status.
Record t : Type := mk
  { context : string;
    state : string;
    updated_at : option Z }.
End Status.

(** [github3] users: equality and hashing go by the numeric id. *)
Module User.
Record t : Type := mk
  { login : string;
    id : Z }.
Definition eqb (u v : t) : bool := id u =? id v.
End User.

Module Review.
Record t : Type := mk
  { user : User.t;
    state : string;
    submitted_at : Z }.
End Review.

(** [BetterShortRepoCommit]: a commit with its committer date. *)
Module Commit.
Record t : Type := mk
  { sha : string;
    commit_date : Z }.
End Commit.

Module Repository.
Record t : Type := mk
  { name : string }.
End Repository.

(** A pull request together with what the API returns for it:
    [statuses] for the head commit, [reviews] and [commits]. *)
Module PullRequest.
Record t : Type := mk
  { title : string;
    html_url : string;
    user : User.t;
    repository : option Repository.t;
    statuses : list Status.t;
    reviews : list Review.t;
    commits : list Commit.t }.
End PullRequest.

(** ** Exceptions the modelled functions can raise *)

Inductive exn : Type :=
| IndexError
| AttributeError
| TypeError.

Inductive result (A : Type) : Type :=
| Ok (a : A)
| Raise (e : exn).
Arguments Ok {A} a.
Arguments Raise {A} e.

Definition bind {A B : Type} (r : result A) (k : A -> result B) : result B :=
  match r with
  | Ok a => k a
  | Raise e => Raise e
  end.

Notation "x <- c ;; k" := (bind c (fun x => k))
  (at level 61, c at next level, right associativity).

(** ** Python list operations used by the program *)

Module Py.

(** [sorted(l, key=key, reverse=True)]: stable, greatest key first, items
    with equal keys in their original order. *)
Fixpoint insert_desc {A : Type} (key : A -> Z) (x : A) (l : list A)
  : list A :=
  match l with
  | [] => [x]
  | y :: r =>
      if key x <? key y then y :: insert_desc key x r else x :: y :: r
  end.

Definition sorted_desc {A : Type} (key : A -> Z) (l : list A) : list A :=
  fold_right (insert_desc key) [] l.

(** [l[0]] *)
Definition first {A : Type} (l : list A) : result A :=
  match l with
  | [] => Raise IndexError
  | x :: _ => Ok x
  end.

(** [o.attr] on a value that may be [None] *)
Definition attr_of {A : Type} (o : option A) : result A :=
  match o with
  | None => Raise AttributeError
  | Some x => Ok x
  end.

(** A loop whose body may raise. *)
Fixpoint for_each {S A : Type} (body : S -> A -> result S) (l : list A)
    (s : S) : result S :=
  match l with
  | [] => Ok s
  | x :: r => s' <- body s x ;; for_each body r s'
  end.

End Py.

(** Keys of [grouped_by_pr_status]: a status group, or the string
    ['default'] when splitting is off. *)
Inductive group_key : Type :=
| Group (g : PullRequestStatusGroup.t)
| Default.

Definition group_key_eqb (a b : group_key) : bool :=
  match a, b with
  | Group g, Group h => PullRequestStatusGroup.eqb g h
  | Default, Default => true
  | _, _ => false
  end.

Definition pr_status_groups_display_order : list PullRequestStatusGroup.t :=
  [ PullRequestStatusGroup.unreviewed;
    PullRequestStatusGroup.changes_since_review;
    PullRequestStatusGroup.mixed_reception;
    PullRequestStatusGroup.changes_requested;
    PullRequestStatusGroup.approved ].

(** ** The program, relative to its environment *)

Section Program.

(** [os.environ.get] *)
Variable environ : string -> option string.

(** [[x.lower().strip() for x in v.split(',')] if v else []] *)
Definition env_list (v : option string) : list string :=
  match v with
  | Some s =>
      if Str.truthy s
      then List.map (fun i => Str.strip (Str.lower i)) (Str.split "," s)
      else []
  | None => []
  end.

(** Truth value of [os.environ.get(name, True)]. *)
Definition env_flag (v : option string) : bool :=
  match v with
  | Some s => Str.truthy s
  | None => true
  end.

(** [os.environ.get(name, default)] *)
Definition env_default (v : option string) (default : string) : string :=
  match v with
  | Some s => s
  | None => default
  end.

Definition IGNORE_WORDS : list string :=
  env_list (environ "IGNORE_WORDS").

Definition IGNORE_BUILD_STATUS_CONTEXTS : list string :=
  env_list (environ "IGNORE_BUILD_STATUS_CONTEXTS").

Definition SHOW_BUILD_STATUS : bool :=
  env_flag (environ "SHOW_BUILD_STATUS").

Definition SPLIT_BY_REVIEW_STATUS : bool :=
  env_flag (environ "SPLIT_BY_REVIEW_STATUS").

(** *** fetch_pull_request_build_statuses *)

Definition fetch_pull_request_build_statuses (pull_request : PullRequest.t)
  : list Status.t :=
  match PullRequest.repository pull_request with
  | None => []
  | Some _ => PullRequest.statuses pull_request
  end.

(** *** fetch_combined_build_status *)

(** [a > b] on the timestamps of two statuses; the stored one always has
    a timestamp, as statuses without one are skipped before. *)
Definition updated_after (t : Z) (stored : Status.t) : bool :=
  match Status.updated_at stored with
  | Some t' => t' <? t
  | None => false
  end.

(** Body of the first loop. *)
Definition record_status (most_recent_status_by_context : Dict.t)
    (build_status : Status.t) : Dict.t :=
  match Status.updated_at build_status with
  | None => most_recent_status_by_context
  | Some t =>
      match Dict.get String.eqb most_recent_status_by_context
              (Status.context build_status) with
      | None =>
          Dict.set String.eqb most_recent_status_by_context
            (Status.context build_status) build_status
      | Some stored =>
          if updated_after t stored
          then Dict.set String.eqb most_recent_status_by_context
                 (Status.context build_status) build_status
          else most_recent_status_by_context
      end
  end.

Definition most_recent_status_by_context (build_statuses : list Status.t)
  : Dict.t :=
  fold_left record_status build_statuses Dict.empty.

(** Body of the second loop. *)
Definition drop_ignored (d : Dict.t (K := string) (V := Status.t))
    (context_to_ingnore : string) : Dict.t :=
  if Dict.mem String.eqb d context_to_ingnore
  then Dict.del String.eqb d context_to_ingnore
  else d.

Definition without_ignored (ignored : list string)
    (d : Dict.t (K := string) (V := Status.t)) : Dict.t :=
  fold_left drop_ignored ignored d.

(** The last loop, with its early return on a failure. *)
Fixpoint scan_statuses (most_recent_statuses : list Status.t)
    (any_pending : bool) : string :=
  match most_recent_statuses with
  | [] =>
      if any_pending then CombinedBuildStatus.pending
      else CombinedBuildStatus.success
  | status :: rest =>
      if String.eqb (Status.state status) CombinedBuildStatus.failure
      then CombinedBuildStatus.failure
      else if String.eqb (Status.state status) CombinedBuildStatus.pending
      then scan_statuses rest true
      else scan_statuses rest any_pending
  end.

(** The statuses the verdict is computed from. *)
Definition most_recent_statuses (build_statuses : list Status.t)
  : list Status.t :=
  Dict.values
    (without_ignored IGNORE_BUILD_STATUS_CONTEXTS
       (most_recent_status_by_context build_statuses)).

(** The function on an already fetched status sequence. *)
Definition combined_build_status (build_statuses : list Status.t)
  : option string :=
  let statuses := most_recent_statuses build_statuses in
  if (List.length statuses =? 0)%nat then None
  else Some (scan_statuses statuses false).

Definition fetch_combined_build_status (pull_request : PullRequest.t)
  : option string :=
  combined_build_status (fetch_pull_request_build_statuses pull_request).

(** *** is_valid_title *)

Definition is_valid_title (title : string) : bool :=
  let lowercase_title := Str.lower title in
  negb (existsb (fun ignored_word => Str.contains ignored_word lowercase_title)
          IGNORE_WORDS).

(** *** fetch_pull_request_review_status_group *)

Definition fetch_better_commits (pull_request : PullRequest.t)
  : list Commit.t :=
  PullRequest.commits pull_request.

(** The reviews left after sorting and the two filters. *)
Definition candidate_reviews (pull_request : PullRequest.t)
  : list Review.t :=
  let reviews :=
    Py.sorted_desc Review.submitted_at (PullRequest.reviews pull_request) in
  let reviews :=
    filter (fun r => negb (User.eqb (Review.user r)
                             (PullRequest.user pull_request))) reviews in
  filter (fun r => negb (String.eqb (Review.state r)
                           PullRequestReviewState.COMMENTED)) reviews.

(** "only keep last review by this reviewer" *)
Fixpoint keep_last_reviews (reviews : list Review.t) (users : list User.t)
    (last_reviews : list Review.t) : list Review.t :=
  match reviews with
  | [] => last_reviews
  | review :: rest =>
      if existsb (User.eqb (Review.user review)) users
      then keep_last_reviews rest users last_reviews
      else keep_last_reviews rest (Review.user review :: users)
             (last_reviews ++ [review])
  end.

Definition last_reviews (pull_request : PullRequest.t) : list Review.t :=
  keep_last_reviews (candidate_reviews pull_request) [] [].

(** Body of the loop that sets [changes_requested] and [approved]. *)
Definition note_review (flags : bool * bool) (review : Review.t)
  : bool * bool :=
  let (changes_requested, approved) := flags in
  if String.eqb (Review.state review)
       PullRequestReviewState.CHANGES_REQUESTED
  then (true, approved)
  else if String.eqb (Review.state review) PullRequestReviewState.APPROVED
  then (changes_requested, true)
  else flags.

Definition review_flags (reviews : list Review.t) : bool * bool :=
  fold_left note_review reviews (false, false).

Definition fetch_pull_request_review_status_group
    (pull_request : PullRequest.t) : result PullRequestStatusGroup.t :=
  let last_reviews := last_reviews pull_request in
  let (changes_requested, approved) := review_flags last_reviews in
  if changes_requested then
    let commits :=
      Py.sorted_desc Commit.commit_date
        (fetch_better_commits pull_request) in
    newest_commit <- Py.first commits ;;
    newest_review <- Py.first last_reviews ;;
    if Review.submitted_at newest_review
         <? Commit.commit_date newest_commit
    then Ok PullRequestStatusGroup.changes_since_review
    else if approved then Ok PullRequestStatusGroup.mixed_reception
    else Ok PullRequestStatusGroup.changes_requested
  else if approved then Ok PullRequestStatusGroup.approved
  else Ok PullRequestStatusGroup.unreviewed.

(** *** Display settings *)

Definition SUCCESS_EMOJI : string :=
  env_default (environ "SUCCESS_EMOJI") "✓".
Definition PENDING_EMOJI : string :=
  env_default (environ "PENDING_EMOJI") "⟳".
Definition FAILURE_EMOJI : string :=
  env_default (environ "FAILURE_EMOJI") "⨉".

Definition option_string_eqb (a b : option string) : bool :=
  match a, b with
  | Some x, Some y => String.eqb x y
  | None, None => true
  | _, _ => false
  end.

Definition state_to_emoji : Dict.t (K := option string) (V := string) :=
  [ (Some CombinedBuildStatus.success, SUCCESS_EMOJI);
    (Some CombinedBuildStatus.pending, PENDING_EMOJI);
    (Some CombinedBuildStatus.failure, FAILURE_EMOJI);
    (None, "       "%string) ].

Definition APPROVED_GROUP_MSG : string :=
  env_default (environ "APPROVED_GROUP_MSG") ":heart_eyes: _Approved_".
Definition CHANGES_REQUESTED_GROUP_MSG : string :=
  env_default (environ "CHANGES_REQUESTED_GROUP_MSG")
    ":thinking_face: _Changes Requested_".
Definition MIXED_RECEPTION_GROUP_MSG : string :=
  env_default (environ "MIXED_RECEPTION_GROUP_MSG")
    ":confounded: _Mixed Reception_".
Definition UNREVIEWED_GROUP_MSG : string :=
  env_default (environ "UNREVIEWED_GROUP_MSG") ":eyetwitch: _Needs Review_".
Definition CHANGES_SINCE_REVIEW_GROUP_MSG : string :=
  env_default (environ "CHANGES_SINCE_REVIEW_GROUP_MSG")
    ":eyes: _Changes Since Last Review_".

(** A dictionary with one entry per group (the program asserts so). *)
Definition pr_status_group_to_msg (group : PullRequestStatusGroup.t)
  : string :=
  match group with
  | PullRequestStatusGroup.unreviewed => UNREVIEWED_GROUP_MSG
  | PullRequestStatusGroup.mixed_reception => MIXED_RECEPTION_GROUP_MSG
  | PullRequestStatusGroup.changes_requested => CHANGES_REQUESTED_GROUP_MSG
  | PullRequestStatusGroup.approved => APPROVED_GROUP_MSG
  | PullRequestStatusGroup.changes_since_review =>
      CHANGES_SINCE_REVIEW_GROUP_MSG
  end.

(** *** format_pull_requests *)

Definition lines_by_group := Dict.t (K := group_key) (V := list string).

(** [grouped[key].append(line)] on a [defaultdict(list)] *)
Definition append_line (grouped : lines_by_group) (key : group_key)
    (line : string) : lines_by_group :=
  match Dict.get group_key_eqb grouped key with
  | Some lines => Dict.set group_key_eqb grouped key (lines ++ [line])
  | None => Dict.set group_key_eqb grouped key [line]
  end.

(** Body of the loop over the pull requests. *)
Definition add_pull (owner : string) (grouped_by_pr_status : lines_by_group)
    (pull : PullRequest.t) : result lines_by_group :=
  if is_valid_title (PullRequest.title pull) then
    let creator := User.login (PullRequest.user pull) in
    let combined_status := fetch_combined_build_status pull in
    pr_status_group <-
      (if SPLIT_BY_REVIEW_STATUS
       then g <- fetch_pull_request_review_status_group pull ;; Ok (Group g)
       else Ok Default) ;;
    let build_status :=
      if SHOW_BUILD_STATUS
      then match Dict.get option_string_eqb state_to_emoji combined_status
           with
           | Some emoji => emoji
           | None => "       "%string
           end
      else EmptyString in
    repository <- Py.attr_of (PullRequest.repository pull) ;;
    let line :=
      String.concat EmptyString
        [ "*"; build_status; "["; owner; "/"; Repository.name repository;
          "]* <"; PullRequest.html_url pull; "|"; PullRequest.title pull;
          " - by "; creator; ">" ]%string in
    Ok (append_line grouped_by_pr_status pr_status_group line)
  else Ok grouped_by_pr_status.

(** Body of the loop over the display order. *)
Definition emit_group (grouped_by_pr_status : lines_by_group)
    (output : list string) (group : PullRequestStatusGroup.t)
  : list string :=
  match Dict.get group_key_eqb grouped_by_pr_status (Group group) with
  | Some (l :: ls) => (output ++ [pr_status_group_to_msg group]) ++ l :: ls
  | Some [] => output
  | None => output
  end.

(** The part of the function after the grouping loop. *)
Definition render_groups (grouped_by_pr_status : lines_by_group)
  : list string :=
  if negb SPLIT_BY_REVIEW_STATUS then
    match Dict.get group_key_eqb grouped_by_pr_status Default with
    | Some lines => lines
    | None => []
    end
  else
    fold_left (emit_group grouped_by_pr_status)
      pr_status_groups_display_order [].

Definition format_pull_requests (pull_requests : list PullRequest.t)
    (owner : string) : result (list string) :=
  grouped_by_pr_status <-
    Py.for_each (add_pull owner) pull_requests Dict.empty ;;
  Ok (render_groups grouped_by_pr_status).

End Program.

(** ** The rest of the program: listing pull requests and sending *)

(** An item of [repository.pull_requests()]: the pull request and its
    [state]. *)
Module ListedPull.
Record t : Type := mk
  { state : string;
    pull : PullRequest.t }.
End ListedPull.

(** An item of [organization.repositories()], with what its
    [pull_requests()] lists. *)
Module OrgRepository.
Record t : Type := mk
  { name : string;
    pull_requests : list ListedPull.t }.
End OrgRepository.

(** The [data] of the request to Slack. *)
Module Payload.
Record t : Type := mk
  { token : string;
    channel : string;
    username : string;
    icon_emoji : string;
    text : string }.
End Payload.

(** The fields read from Slack's answer. *)
Module Answer.
Record t : Type := mk
  { ok : bool;
    error : string }.
End Answer.

(** How a run ends: without a request, after an accepted request, with
    the exception raised for a refused request, with an exception raised
    before any request, or at start-up for a missing variable. *)
Inductive run : Type :=
| Silent
| Posted (payload : Payload.t)
| Refused (payload : Payload.t) (error : string)
| Aborted (e : exn)
| Exited (message : string).

Definition newline : string := String (ascii_of_nat 10) EmptyString.

Definition POST_URL : string := "https://slack.com/api/chat.postMessage".

Definition INITIAL_MESSAGE : string :=
  String.append
    "Hi! There's a few open pull requests you should take a look at:"
    (String.append newline newline).

Section Orchestration.

Variable environ : string -> option string.

Definition REPOSITORIES : list string :=
  env_list (environ "REPOSITORIES").

Definition USERNAMES : list string :=
  env_list (environ "USERNAMES").

Definition SLACK_CHANNEL : string :=
  env_default (environ "SLACK_CHANNEL") "#general".

(** Truth value of a list: non-empty. *)
Definition nonempty {A : Type} (l : list A) : bool :=
  match l with
  | [] => false
  | _ :: _ => true
  end.

(** [x in l] on a list of strings *)
Definition in_list (x : string) (l : list string) : bool :=
  existsb (String.eqb x) l.

(** *** fetch_repository_pulls *)

(** Body of the loop. *)
Definition keep_pull (pulls : list ListedPull.t) (pull : ListedPull.t)
  : list ListedPull.t :=
  if String.eqb (ListedPull.state pull) "open"
     && (negb (nonempty USERNAMES)
         || in_list
              (Str.lower (User.login (PullRequest.user (ListedPull.pull pull))))
              USERNAMES)
  then pulls ++ [pull]
  else pulls.

Definition fetch_repository_pulls (repository : OrgRepository.t)
  : list ListedPull.t :=
  fold_left keep_pull (OrgRepository.pull_requests repository) [].

(** *** fetch_organization_pulls *)

(** Body of the loop over the repositories. *)
Definition extend_prs (prs : list ListedPull.t) (repository : OrgRepository.t)
  : list ListedPull.t :=
  if nonempty REPOSITORIES
     && negb (in_list (Str.lower (OrgRepository.name repository)) REPOSITORIES)
  then prs
  else prs ++ fetch_repository_pulls repository.

(** The pull requests handed to [format_pull_requests]. *)
Definition organization_prs (organization : list OrgRepository.t)
  : list ListedPull.t :=
  fold_left extend_prs organization [].

(** [organization] is what the API lists for the organization of the given
    name. *)
Definition fetch_organization_pulls (organization : list OrgRepository.t)
    (organization_name : string) : result (list string) :=
  format_pull_requests environ
    (List.map ListedPull.pull (organization_prs organization))
    organization_name.

(** *** send_to_slack *)

(** [post] is Slack's answer to a request. *)
Definition send_to_slack (SLACK_API_TOKEN : string)
    (post : Payload.t -> Answer.t) (text : string) : run :=
  let payload :=
    Payload.mk SLACK_API_TOKEN SLACK_CHANNEL "Pull Request Reminder" ":bell:"
      text in
  let answer := post payload in
  if negb (Answer.ok answer) then Refused payload (Answer.error answer)
  else Posted payload.

(** *** cli *)

Definition cli (SLACK_API_TOKEN : string)
    (organization : list OrgRepository.t) (ORGANIZATION : string)
    (post : Payload.t -> Answer.t) : run :=
  match fetch_organization_pulls organization ORGANIZATION with
  | Raise e => Aborted e
  | Ok lines =>
      if nonempty lines then
        let text :=
          String.append INITIAL_MESSAGE (String.concat newline lines) in
        send_to_slack SLACK_API_TOKEN post text
      else Silent
  end.

(** *** The module run as a script *)

(** ['Please set the environment variable {0}'.format(error)] for the
    [KeyError] of a missing variable. *)
Definition missing_variable (name : string) : string :=
  String.concat EmptyString
    [ "Please set the environment variable '"; name; "'" ]%string.

(** The three required variables are read in this order; the first that is
    missing ends the run.  [github] is what the API lists for a token and
    an organization. *)
Definition script
    (github : string -> string -> list OrgRepository.t)
    (post : Payload.t -> Answer.t) : run :=
  match environ "SLACK_API_TOKEN" with
  | None => Exited (missing_variable "SLACK_API_TOKEN")
  | Some SLACK_API_TOKEN =>
      match environ "GITHUB_API_TOKEN" with
      | None => Exited (missing_variable "GITHUB_API_TOKEN")
      | Some GITHUB_API_TOKEN =>
          match environ "ORGANIZATION" with
          | None => Exited (missing_variable "ORGANIZATION")
          | Some ORGANIZATION =>
              cli SLACK_API_TOKEN (github GITHUB_API_TOKEN ORGANIZATION)
                ORGANIZATION post
          end
      end
  end.

End Orchestration.

(** ** Reviews as github3 delivers them

    [Review.t] above follows the data model in which every review has a
    submission time.  github3 sets [submitted_at] to [None] for a review
    that was not submitted (a pending one); Python then raises TypeError
    when such a value is compared with a datetime or with [None].  The
    records and functions of this part embed the same code over reviews
    whose time can be absent. *)

Module ApiReview.
Record t : Type := mk
  { user : User.t;
    state : string;
    submitted_at : option Z }.
End ApiReview.

Module ApiPullRequest.
Record t : Type := mk
  { title : string;
    html_url : string;
    user : User.t;
    repository : option Repository.t;
    statuses : list Status.t;
    reviews : list ApiReview.t;
    commits : list Commit.t }.
End ApiPullRequest.

Module Api.

(** [a > b] on two values that are a datetime or [None] *)
Definition later (a b : option Z) : result bool :=
  match a, b with
  | Some x, Some y => Ok (y <? x)
  | _, _ => Raise TypeError
  end.

(** [sorted(l, key=key, reverse=True)] where a key can be [None]: stable,
    greatest key first; a comparison that meets [None] raises.  A list of
    one item is not compared. *)
Fixpoint insert_desc {A : Type} (key : A -> option Z) (x : A) (l : list A)
  : result (list A) :=
  match l with
  | [] => Ok [x]
  | y :: r =>
      older <- later (key y) (key x) ;;
      if older
      then r' <- insert_desc key x r ;; Ok (y :: r')
      else Ok (x :: y :: r)
  end.

Fixpoint sorted_desc {A : Type} (key : A -> option Z) (l : list A)
  : result (list A) :=
  match l with
  | [] => Ok []
  | x :: r => sorted <- sorted_desc key r ;; insert_desc key x sorted
  end.

(** The reviews left after sorting and the two filters. *)
Definition candidate_reviews (pull_request : ApiPullRequest.t)
  : result (list ApiReview.t) :=
  reviews <-
    sorted_desc ApiReview.submitted_at (ApiPullRequest.reviews pull_request) ;;
  let reviews :=
    filter (fun r => negb (User.eqb (ApiReview.user r)
                             (ApiPullRequest.user pull_request))) reviews in
  Ok (filter (fun r => negb (String.eqb (ApiReview.state r)
                               PullRequestReviewState.COMMENTED)) reviews).

Fixpoint keep_last_reviews (reviews : list ApiReview.t)
    (users : list User.t) (last_reviews : list ApiReview.t)
  : list ApiReview.t :=
  match reviews with
  | [] => last_reviews
  | review :: rest =>
      if existsb (User.eqb (ApiReview.user review)) users
      then keep_last_reviews rest users last_reviews
      else keep_last_reviews rest (ApiReview.user review :: users)
             (last_reviews ++ [review])
  end.

Definition last_reviews (pull_request : ApiPullRequest.t)
  : result (list ApiReview.t) :=
  reviews <- candidate_reviews pull_request ;;
  Ok (keep_last_reviews reviews [] []).

Definition note_review (flags : bool * bool) (review : ApiReview.t)
  : bool * bool :=
  let (changes_requested, approved) := flags in
  if String.eqb (ApiReview.state review)
       PullRequestReviewState.CHANGES_REQUESTED
  then (true, approved)
  else if String.eqb (ApiReview.state review) PullRequestReviewState.APPROVED
  then (changes_requested, true)
  else flags.

Definition review_flags (reviews : list ApiReview.t) : bool * bool :=
  fold_left note_review reviews (false, false).

Definition fetch_pull_request_review_status_group
    (pull_request : ApiPullRequest.t) : result PullRequestStatusGroup.t :=
  last_reviews <- last_reviews pull_request ;;
  let (changes_requested, approved) := review_flags last_reviews in
  if changes_requested then
    let commits :=
      Py.sorted_desc Commit.commit_date
        (ApiPullRequest.commits pull_request) in
    newest_commit <- Py.first commits ;;
    newest_review <- Py.first last_reviews ;;
    newer <-
      later (Some (Commit.commit_date newest_commit))
        (ApiReview.submitted_at newest_review) ;;
    if newer
    then Ok PullRequestStatusGroup.changes_since_review
    else if approved then Ok PullRequestStatusGroup.mixed_reception
    else Ok PullRequestStatusGroup.changes_requested
  else if approved then Ok PullRequestStatusGroup.approved
  else Ok PullRequestStatusGroup.unreviewed.

Section Report.

Variable environ : string -> option string.

Definition fetch_pull_request_build_statuses
    (pull_request : ApiPullRequest.t) : list Status.t :=
  match ApiPullRequest.repository pull_request with
  | None => []
  | Some _ => ApiPullRequest.statuses pull_request
  end.

Definition fetch_combined_build_status (pull_request : ApiPullRequest.t)
  : option string :=
  combined_build_status environ
    (fetch_pull_request_build_statuses pull_request).

(** Body of the loop of [format_pull_requests]. *)
Definition add_pull (owner : string) (grouped_by_pr_status : lines_by_group)
    (pull : ApiPullRequest.t) : result lines_by_group :=
  if is_valid_title environ (ApiPullRequest.title pull) then
    let creator := User.login (ApiPullRequest.user pull) in
    let combined_status := fetch_combined_build_status pull in
    pr_status_group <-
      (if SPLIT_BY_REVIEW_STATUS environ
       then g <- fetch_pull_request_review_status_group pull ;; Ok (Group g)
       else Ok Default) ;;
    let build_status :=
      if SHOW_BUILD_STATUS environ
      then match Dict.get option_string_eqb (state_to_emoji environ)
                   combined_status with
           | Some emoji => emoji
           | None => "       "%string
           end
      else EmptyString in
    repository <- Py.attr_of (ApiPullRequest.repository pull) ;;
    let line :=
      String.concat EmptyString
        [ "*"; build_status; "["; owner; "/"; Repository.name repository;
          "]* <"; ApiPullRequest.html_url pull; "|";
          ApiPullRequest.title pull; " - by "; creator; ">" ]%string in
    Ok (append_line grouped_by_pr_status pr_status_group line)
  else Ok grouped_by_pr_status.

Definition format_pull_requests (pull_requests : list ApiPullRequest.t)
    (owner : string) : result (list string) :=
  grouped_by_pr_status <-
    Py.for_each (add_pull owner) pull_requests Dict.empty ;;
  Ok (render_groups environ grouped_by_pr_status).

End Report.

End Api.

(** A review with a submission time, and a pull request all of whose
    reviews have one, as delivered. *)
Definition delivered_review (r : Review.t) : ApiReview.t :=
  ApiReview.mk (Review.user r) (Review.state r) (Some (Review.submitted_at r)).

Definition delivered (pr : PullRequest.t) : ApiPullRequest.t :=
  ApiPullRequest.mk (PullRequest.title pr) (PullRequest.html_url pr)
    (PullRequest.user pr) (PullRequest.repository pr)
    (PullRequest.statuses pr)
    (List.map delivered_review (PullRequest.reviews pr))
    (PullRequest.commits pr).

(** A review without submission time. *)
Definition undated (r : ApiReview.t) : Prop :=
  ApiReview.submitted_at r = None.

Definition dated (r : ApiReview.t) : Prop :=
  ApiReview.submitted_at r <> None.

(** [e] was submitted strictly before [r]. *)
Definition submitted_before (e r : ApiReview.t) : Prop :=
  match ApiReview.submitted_at e, ApiReview.submitted_at r with
  | Some te, Some tr => te < tr
  | _, _ => False
  end.

Definition same_reviewer (a b : ApiReview.t) : Prop :=
  User.id (ApiReview.user a) = User.id (ApiReview.user b).

(** A delivered review that is neither by the author of the pull request
    nor a comment, as a test. *)
Definition api_counts_for (pr : ApiPullRequest.t) (r : ApiReview.t) : bool :=
  negb (User.eqb (ApiReview.user r) (ApiPullRequest.user pr))
  && negb (String.eqb (ApiReview.state r) PullRequestReviewState.COMMENTED).

(** The delivered pull request with other reviews. *)
Definition api_with_reviews (pr : ApiPullRequest.t)
    (reviews : list ApiReview.t) : ApiPullRequest.t :=
  ApiPullRequest.mk (ApiPullRequest.title pr) (ApiPullRequest.html_url pr)
    (ApiPullRequest.user pr) (ApiPullRequest.repository pr)
    (ApiPullRequest.statuses pr) reviews (ApiPullRequest.commits pr).

(** A string of ASCII characters, on which [Str.lower] and [Str.strip] are
    Python's [str.lower] and [str.strip]. *)
Fixpoint is_ascii (s : string) : bool :=
  match s with
  | EmptyString => true
  | String c r => (nat_of_ascii c <? 128)%nat && is_ascii r
  end.

(** ** Vocabulary of the statements *)

Definition has_timestamp (s : Status.t) : bool :=
  match Status.updated_at s with
  | Some _ => true
  | None => false
  end.

Definition is_failure (s : Status.t) : bool :=
  String.eqb (Status.state s) CombinedBuildStatus.failure.

Definition is_pending (s : Status.t) : bool :=
  String.eqb (Status.state s) CombinedBuildStatus.pending.

(** The verdict over the statuses that remain, in the order of precedence
    absent, failure, pending, success. *)
Definition verdict_of (remaining : list Status.t) : option string :=
  match remaining with
  | [] => None
  | _ :: _ =>
      if existsb is_failure remaining then Some CombinedBuildStatus.failure
      else if existsb is_pending remaining
      then Some CombinedBuildStatus.pending
      else Some CombinedBuildStatus.success
  end.

(** [r] is the status of context [c] with the greatest timestamp in [sts],
    and the first such one: every earlier status of [c] is strictly older,
    every later one is not newer. *)
Definition latest_for (sts : list Status.t) (c : string) (r : Status.t)
  : Prop :=
  exists l1 l2 t,
    sts = l1 ++ r :: l2
    /\ Status.context r = c
    /\ Status.updated_at r = Some t
    /\ (forall e t', In e l1 -> Status.context e = c ->
                     Status.updated_at e = Some t' -> t' < t)
    /\ (forall e t', In e l2 -> Status.context e = c ->
                     Status.updated_at e = Some t' -> t' <= t).

(** [e] carries a greatest timestamp among the statuses of its context. *)
Definition newest_of_context (sts : list Status.t) (e : Status.t) : Prop :=
  In e sts
  /\ exists t, Status.updated_at e = Some t
     /\ forall e' t', In e' sts -> Status.context e' = Status.context e ->
                      Status.updated_at e' = Some t' -> t' <= t.

(** Statuses of one context that share a timestamp share their state. *)
Definition ties_agree (sts : list Status.t) : Prop :=
  forall a b t,
    In a sts -> In b sts ->
    Status.context a = Status.context b ->
    Status.updated_at a = Some t -> Status.updated_at b = Some t ->
    Status.state a = Status.state b.

(** The reviews that can count: of the pull request, not by its author,
    not comments. *)
Definition is_candidate (pull_request : PullRequest.t) (r : Review.t)
  : Prop :=
  In r (PullRequest.reviews pull_request)
  /\ User.eqb (Review.user r) (PullRequest.user pull_request) = false
  /\ Review.state r <> PullRequestReviewState.COMMENTED.

Definition same_author (a b : Review.t) : Prop :=
  User.id (Review.user a) = User.id (Review.user b).

Definition is_changes_requested (r : Review.t) : bool :=
  String.eqb (Review.state r) PullRequestReviewState.CHANGES_REQUESTED.

Definition is_approved (r : Review.t) : bool :=
  String.eqb (Review.state r) PullRequestReviewState.APPROVED.

(** Newest first. *)
Definition newer_first {A : Type} (key : A -> Z) (a b : A) : Prop :=
  key b <= key a.

(** The reviews of [reviews] that are the first of their user, for users
    outside [users]: what [keep_last_reviews] appends. *)
Fixpoint first_per_user (reviews : list Review.t) (users : list User.t)
  : list Review.t :=
  match reviews with
  | [] => []
  | review :: rest =>
      if existsb (User.eqb (Review.user review)) users
      then first_per_user rest users
      else review :: first_per_user rest (Review.user review :: users)
  end.

(** What one group contributes to the output: its header and its lines
    when it has lines, nothing otherwise. *)
Definition group_section (environ : string -> option string)
    (grouped : lines_by_group) (group : PullRequestStatusGroup.t)
  : list string :=
  match Dict.get group_key_eqb grouped (Group group) with
  | Some (l :: ls) => pr_status_group_to_msg environ group :: l :: ls
  | Some [] => []
  | None => []
  end.

(** The lines stored under the key ['default']. *)
Definition flat_lines (grouped : lines_by_group) : list string :=
  match Dict.get group_key_eqb grouped Default with
  | Some lines => lines
  | None => []
  end.

(** The lines stored under a key of a [defaultdict(list)]. *)
Definition lines_under (grouped : lines_by_group) (key : group_key)
  : list string :=
  match Dict.get group_key_eqb grouped key with
  | Some lines => lines
  | None => []
  end.

(** The key and the line of one pull request: what the body of the loop
    of [format_pull_requests] appends, or nothing for an ignored title. *)
Definition pull_entry (environ : string -> option string) (owner : string)
    (pull : PullRequest.t) : result (option (group_key * string)) :=
  if is_valid_title environ (PullRequest.title pull) then
    key <-
      (if SPLIT_BY_REVIEW_STATUS environ
       then g <- fetch_pull_request_review_status_group pull ;; Ok (Group g)
       else Ok Default) ;;
    let build_status :=
      if SHOW_BUILD_STATUS environ
      then match Dict.get option_string_eqb (state_to_emoji environ)
                   (fetch_combined_build_status environ pull) with
           | Some emoji => emoji
           | None => "       "%string
           end
      else EmptyString in
    repository <- Py.attr_of (PullRequest.repository pull) ;;
    Ok (Some
          (key,
           String.concat EmptyString
             [ "*"; build_status; "["; owner; "/";
               Repository.name repository; "]* <";
               PullRequest.html_url pull; "|"; PullRequest.title pull;
               " - by "; User.login (PullRequest.user pull); ">" ]%string))
  else Ok None.

(** The entries of a sequence of pull requests, in its order; the first
    exception ends it. *)
Fixpoint pull_entries (environ : string -> option string) (owner : string)
    (pulls : list PullRequest.t) : result (list (group_key * string)) :=
  match pulls with
  | [] => Ok []
  | pull :: rest =>
      entry <- pull_entry environ owner pull ;;
      entries <- pull_entries environ owner rest ;;
      Ok (match entry with
          | Some e => e :: entries
          | None => entries
          end)
  end.

(** The lines of the entries with a given key, in their order. *)
Definition lines_with (key : group_key) (entries : list (group_key * string))
  : list string :=
  map snd (filter (fun e => group_key_eqb (fst e) key) entries).

(** Storing one entry. *)
Definition store_entry (grouped : lines_by_group) (e : group_key * string)
  : lines_by_group :=
  append_line grouped (fst e) (snd e).

(** Sample data for concrete runs: an author, two reviewers, and a pull
    request with given reviews and commits. *)
Definition alice : User.t := User.mk "alice" 1.
Definition bob : User.t := User.mk "bob" 2.
Definition carol : User.t := User.mk "carol" 3.

Definition pull_of_alice (reviews : list Review.t) (commits : list Commit.t)
  : PullRequest.t :=
  PullRequest.mk "Add retries" "https://github.com/acme/api/pull/7" alice
    (Some (Repository.mk "api")) [] reviews commits.

(** An environment that only sets [IGNORE_BUILD_STATUS_CONTEXTS]. *)
Definition env_ignoring (contexts : string) : string -> option string :=
  fun name =>
    if String.eqb name "IGNORE_BUILD_STATUS_CONTEXTS" then Some contexts
    else None.

(** An environment with no variable set: every setting has its default. *)
Definition env_default_settings : string -> option string := fun _ => None.

(** ** Further vocabulary *)

(** An environment that sets one variable. *)
Definition env_setting (name value : string) : string -> option string :=
  fun n => if String.eqb n name then Some value else None.

(** The pull request with other reviews, or with other commits. *)
Definition with_reviews (pr : PullRequest.t) (reviews : list Review.t)
  : PullRequest.t :=
  PullRequest.mk (PullRequest.title pr) (PullRequest.html_url pr)
    (PullRequest.user pr) (PullRequest.repository pr)
    (PullRequest.statuses pr) reviews (PullRequest.commits pr).

Definition with_commits (pr : PullRequest.t) (commits : list Commit.t)
  : PullRequest.t :=
  PullRequest.mk (PullRequest.title pr) (PullRequest.html_url pr)
    (PullRequest.user pr) (PullRequest.repository pr)
    (PullRequest.statuses pr) (PullRequest.reviews pr) commits.

(** A review that is neither by the author of the pull request nor a
    comment, as a test. *)
Definition counts_for (pr : PullRequest.t) (r : Review.t) : bool :=
  negb (User.eqb (Review.user r) (PullRequest.user pr))
  && negb (String.eqb (Review.state r) PullRequestReviewState.COMMENTED).

(** The header of a group that has lines among the entries. *)
Definition header_if_used (environ : string -> option string)
    (entries : list (group_key * string)) (group : PullRequestStatusGroup.t)
  : list string :=
  match lines_with (Group group) entries with
  | [] => []
  | _ :: _ => [pr_status_group_to_msg environ group]
  end.

(** The test of [fetch_repository_pulls]. *)
Definition is_listed (environ : string -> option string)
    (pull : ListedPull.t) : bool :=
  String.eqb (ListedPull.state pull) "open"
  && (negb (nonempty (USERNAMES environ))
      || in_list
           (Str.lower (User.login (PullRequest.user (ListedPull.pull pull))))
           (USERNAMES environ)).

(** The test of [fetch_organization_pulls] on a repository. *)
Definition is_selected (environ : string -> option string)
    (repository : OrgRepository.t) : bool :=
  negb (nonempty (REPOSITORIES environ)
        && negb (in_list (Str.lower (OrgRepository.name repository))
                   (REPOSITORIES environ))).

(** The repository with only its open pull requests. *)
Definition open_only (repository : OrgRepository.t) : OrgRepository.t :=
  OrgRepository.mk (OrgRepository.name repository)
    (filter (fun p => String.eqb (ListedPull.state p) "open")
       (OrgRepository.pull_requests repository)).

(** A status with another state. *)
Definition with_state (f : string -> string) (s : Status.t) : Status.t :=
  Status.mk (Status.context s) (f (Status.state s)) (Status.updated_at s).

(** * Properties *)

(** ** Dictionaries *)

Section DictFacts.
Context {K V : Type}.
Variable eqb : K -> K -> bool.
Hypothesis eqb_eq : forall a b, eqb a b = true <-> a = b.

Lemma key_eqb_refl (a : K) : eqb a a = true.
Proof. now apply eqb_eq. Qed.

Lemma key_eqb_neq (a b : K) : a <> b -> eqb a b = false.
Proof.
  intros Hne. destruct (eqb a b) eqn:E; [|reflexivity].
  apply eqb_eq in E. contradiction.
Qed.

Lemma get_set_same (d : list (K * V)) k v :
  Dict.get eqb (Dict.set eqb d k v) k = Some v.
Proof.
  induction d as [|[k' v'] r IH]; simpl.
  - now rewrite key_eqb_refl.
  - destruct (eqb k k') eqn:E; simpl; rewrite E; auto.
Qed.

Lemma get_set_other (d : list (K * V)) k k' v :
  k <> k' -> Dict.get eqb (Dict.set eqb d k v) k' = Dict.get eqb d k'.
Proof.
  intros Hne. induction d as [|[k0 v0] r IH]; simpl.
  - rewrite key_eqb_neq; auto.
  - destruct (eqb k k0) eqn:E; simpl.
    + apply eqb_eq in E. subst.
      rewrite (key_eqb_neq k' k0); auto.
    + now rewrite IH.
Qed.

Lemma get_none_iff (d : list (K * V)) k :
  Dict.get eqb d k = None <-> ~ In k (Dict.keys d).
Proof.
  induction d as [|[k0 v0] r IH]; simpl.
  - tauto.
  - destruct (eqb k k0) eqn:E.
    + apply eqb_eq in E. subst. split; [discriminate | tauto].
    + rewrite IH. split.
      * intros H [H1|H1]; [|tauto]. subst.
        rewrite key_eqb_refl in E. discriminate.
      * tauto.
Qed.

Lemma get_some_in (d : list (K * V)) k v :
  Dict.get eqb d k = Some v -> In (k, v) d.
Proof.
  induction d as [|[k0 v0] r IH]; simpl; [discriminate|].
  destruct (eqb k k0) eqn:E.
  - apply eqb_eq in E. intros [= ->]. subst. now left.
  - auto.
Qed.

Lemma in_get_some (d : list (K * V)) k v :
  NoDup (Dict.keys d) -> In (k, v) d -> Dict.get eqb d k = Some v.
Proof.
  induction d as [|[k0 v0] r IH]; simpl; [tauto|].
  intros Hnd [H|H].
  - injection H as -> ->. now rewrite key_eqb_refl.
  - inversion Hnd as [|? ? Hnotin Hnd']; subst.
    destruct (eqb k k0) eqn:E.
    + apply eqb_eq in E. subst. exfalso. apply Hnotin.
      change k0 with (fst (k0, v)). now apply in_map.
    + auto.
Qed.

Lemma keys_set_in (d : list (K * V)) k v x :
  In x (Dict.keys (Dict.set eqb d k v)) <-> In x (Dict.keys d) \/ x = k.
Proof.
  induction d as [|[k0 v0] r IH]; simpl.
  - intuition.
  - destruct (eqb k k0) eqn:E; simpl.
    + apply eqb_eq in E. subst. intuition.
    + rewrite IH. tauto.
Qed.

Lemma nodup_set (d : list (K * V)) k v :
  NoDup (Dict.keys d) -> NoDup (Dict.keys (Dict.set eqb d k v)).
Proof.
  induction d as [|[k0 v0] r IH]; simpl; intros Hnd.
  - constructor; [tauto | constructor].
  - inversion Hnd as [|? ? Hnotin Hnd']; subst.
    destruct (eqb k k0) eqn:E; simpl.
    + assumption.
    + constructor; [|auto].
      rewrite keys_set_in. intros [H|H]; [tauto|].
      subst. rewrite key_eqb_refl in E. discriminate.
Qed.

Lemma keys_del_in (d : list (K * V)) k x :
  In x (Dict.keys (Dict.del eqb d k)) -> In x (Dict.keys d).
Proof.
  induction d as [|[k0 v0] r IH]; simpl; [tauto|].
  destruct (eqb k k0); simpl; tauto.
Qed.

Lemma nodup_del (d : list (K * V)) k :
  NoDup (Dict.keys d) -> NoDup (Dict.keys (Dict.del eqb d k)).
Proof.
  induction d as [|[k0 v0] r IH]; simpl; intros Hnd; [constructor|].
  inversion Hnd as [|? ? Hnotin Hnd']; subst.
  destruct (eqb k k0); simpl; [assumption|].
  constructor; [|auto].
  intros H. apply Hnotin. eapply keys_del_in; eauto.
Qed.

Lemma get_del_same (d : list (K * V)) k :
  NoDup (Dict.keys d) -> Dict.get eqb (Dict.del eqb d k) k = None.
Proof.
  induction d as [|[k0 v0] r IH]; simpl; intros Hnd; [reflexivity|].
  inversion Hnd as [|? ? Hnotin Hnd']; subst.
  destruct (eqb k k0) eqn:E; simpl.
  - apply eqb_eq in E. subst. now apply get_none_iff.
  - rewrite E. auto.
Qed.

Lemma get_del_other (d : list (K * V)) k k' :
  k <> k' -> Dict.get eqb (Dict.del eqb d k) k' = Dict.get eqb d k'.
Proof.
  intros Hne. induction d as [|[k0 v0] r IH]; simpl; [reflexivity|].
  destruct (eqb k k0) eqn:E; simpl.
  - apply eqb_eq in E. subst. rewrite key_eqb_neq; auto.
  - now rewrite IH.
Qed.

Lemma in_values_iff (d : list (K * V)) v :
  NoDup (Dict.keys d) ->
  In v (Dict.values d) <-> exists k, Dict.get eqb d k = Some v.
Proof.
  intros Hnd. unfold Dict.values. rewrite in_map_iff. split.
  - intros [[k v'] [Hv Hin]]. simpl in Hv. subst.
    exists k. now apply in_get_some.
  - intros [k Hk]. exists (k, v). split; [reflexivity|].
    now apply get_some_in.
Qed.

End DictFacts.

(** ** The build-status aggregator *)

Section Aggregator.

Local Abbreviation get := (Dict.get String.eqb).
Local Abbreviation reduce := most_recent_status_by_context.

Lemma reduce_snoc sts x :
  reduce (sts ++ [x]) = record_status (reduce sts) x.
Proof. unfold reduce. now rewrite fold_left_app. Qed.

Lemma record_status_nodup d x :
  NoDup (Dict.keys d) -> NoDup (Dict.keys (record_status d x)).
Proof.
  intros Hnd. unfold record_status.
  destruct (Status.updated_at x); [|assumption].
  destruct (get d (Status.context x)).
  - destruct (updated_after z t); [|assumption].
    apply (nodup_set String.eqb String.eqb_eq); assumption.
  - apply (nodup_set String.eqb String.eqb_eq); assumption.
Qed.

Lemma reduce_nodup sts : NoDup (Dict.keys (reduce sts)).
Proof.
  induction sts as [|x sts IH] using rev_ind.
  - constructor.
  - rewrite reduce_snoc. now apply record_status_nodup.
Qed.

Lemma latest_for_snoc_keep sts c r x :
  latest_for sts c r ->
  (forall t t', Status.context x = c -> Status.updated_at x = Some t' ->
                Status.updated_at r = Some t -> t' <= t) ->
  latest_for (sts ++ [x]) c r.
Proof.
  intros (l1 & l2 & t & Hs & Hc & Ht & H1 & H2) Hx.
  exists l1, (l2 ++ [x]), t. repeat split; auto.
  - rewrite Hs, <- app_assoc. reflexivity.
  - intros e t' Hin Hce Hte. apply in_app_or in Hin as [Hin|[<-|[]]].
    + eauto.
    + eauto.
Qed.

Lemma latest_for_bound sts c r e t t' :
  latest_for sts c r -> In e sts -> Status.context e = c ->
  Status.updated_at r = Some t -> Status.updated_at e = Some t' ->
  t' <= t.
Proof.
  intros (l1 & l2 & t0 & Hs & Hc & Ht & H1 & H2) Hin Hce Htr Hte.
  rewrite Htr in Ht. injection Ht as <-.
  subst sts. apply in_app_or in Hin as [Hin|[<-|Hin]].
  - specialize (H1 _ _ Hin Hce Hte). lia.
  - rewrite Htr in Hte. injection Hte as <-. lia.
  - eauto.
Qed.

Lemma latest_for_snoc_new sts x t :
  Status.updated_at x = Some t ->
  (forall e t', In e sts -> Status.context e = Status.context x ->
                Status.updated_at e = Some t' -> t' < t) ->
  latest_for (sts ++ [x]) (Status.context x) x.
Proof.
  intros Ht Hlt. exists sts, [], t. repeat split; auto.
  intros e t' [].
Qed.

Lemma latest_for_timestamp sts c r :
  latest_for sts c r -> exists t, Status.updated_at r = Some t.
Proof. intros (l1 & l2 & t & _ & _ & Ht & _). eauto. Qed.

(** What the first loop leaves under each context. *)
Lemma reduce_get sts : forall c,
  match get (reduce sts) c with
  | Some r => latest_for sts c r
  | None => forall e, In e sts -> Status.context e = c ->
                      Status.updated_at e = None
  end.
Proof.
  induction sts as [|x sts IH] using rev_ind; intros c; [simpl; tauto|].
  rewrite reduce_snoc. unfold record_status.
  pose proof (IH c) as IHc. pose proof (IH (Status.context x)) as IHx.
  destruct (Status.updated_at x) as [t|] eqn:Hx.
  - destruct (get (reduce sts) (Status.context x)) as [stored|] eqn:Hg.
    + destruct (latest_for_timestamp _ _ _ IHx) as [ts Hts].
      unfold updated_after. rewrite Hts.
      destruct (ts <? t) eqn:Hlt.
      * apply Z.ltb_lt in Hlt.
        destruct (String.eqb_spec (Status.context x) c) as [<-|Hne].
        -- rewrite (get_set_same String.eqb String.eqb_eq).
           apply latest_for_snoc_new with t; auto.
           intros e t' Hin Hc He.
           pose proof (latest_for_bound _ _ _ _ _ _ IHx Hin Hc Hts He).
           lia.
        -- rewrite (get_set_other String.eqb String.eqb_eq) by auto.
           destruct (get (reduce sts) c) as [r|].
           ++ apply latest_for_snoc_keep; auto. intros; contradiction.
           ++ intros e Hin Hc. apply in_app_or in Hin as [Hin|[<-|[]]];
                [auto | contradiction].
      * apply Z.ltb_ge in Hlt.
        destruct (get (reduce sts) c) as [r|] eqn:Hgc.
        -- apply latest_for_snoc_keep; auto.
           intros t1 t1' Hcx Hx' Hr. subst c.
           rewrite Hg in Hgc. injection Hgc as <-.
           rewrite Hx in Hx'. rewrite Hts in Hr.
           injection Hx' as <-. injection Hr as <-. assumption.
        -- intros e Hin Hc. apply in_app_or in Hin as [Hin|[<-|[]]];
             [auto|]. subst c. rewrite Hg in Hgc. discriminate.
    + destruct (String.eqb_spec (Status.context x) c) as [<-|Hne].
      * rewrite (get_set_same String.eqb String.eqb_eq).
        apply latest_for_snoc_new with t; auto.
        intros e t' Hin Hc He. rewrite (IHx e Hin Hc) in He. discriminate.
      * rewrite (get_set_other String.eqb String.eqb_eq) by auto.
        destruct (get (reduce sts) c) as [r|].
        -- apply latest_for_snoc_keep; auto. intros; contradiction.
        -- intros e Hin Hc. apply in_app_or in Hin as [Hin|[<-|[]]];
             [auto | contradiction].
  - destruct (get (reduce sts) c) as [r|].
    + apply latest_for_snoc_keep; auto.
      intros t1 t1' _ Hx' _. rewrite Hx in Hx'. discriminate.
    + intros e Hin Hc. apply in_app_or in Hin as [Hin|[<-|[]]]; auto.
Qed.

Lemma latest_for_in sts c r : latest_for sts c r -> In r sts.
Proof.
  intros (l1 & l2 & t & -> & _). apply in_or_app. right. now left.
Qed.

Lemma latest_for_context sts c r :
  latest_for sts c r -> Status.context r = c.
Proof. now intros (l1 & l2 & t & _ & Hc & _). Qed.

(** Two lists split at an element each: the element of one lies before,
    at or after the element of the other. *)
Lemma split_compare {A : Type} (l1 l2 l1' l2' : list A) (a b : A) :
  l1 ++ a :: l2 = l1' ++ b :: l2' ->
  In a l1' \/ (l1 = l1' /\ a = b /\ l2 = l2') \/ In b l1.
Proof.
  revert l1'. induction l1 as [|x l1 IH]; intros [|y l1'] H; simpl in *.
  - injection H as -> ->. right. left. auto.
  - injection H as -> _. left. now left.
  - injection H as -> _. right. right. now left.
  - injection H as -> H. destruct (IH _ H) as [H1|[(-> & -> & ->)|H1]].
    + left. now right.
    + right. left. auto.
    + right. right. now right.
Qed.

Lemma latest_for_unique sts c r r' :
  latest_for sts c r -> latest_for sts c r' -> r = r'.
Proof.
  intros (l1 & l2 & t & Hs & Hc & Ht & H1 & H2)
         (l1' & l2' & t' & Hs' & Hc' & Ht' & H1' & H2').
  rewrite Hs in Hs'.
  destruct (split_compare _ _ _ _ _ _ Hs') as [Hin|[(_ & E & _)|Hin]].
  - pose proof (H1' _ _ Hin Hc Ht) as Hlt.
    assert (In r' (l1 ++ r :: l2)) as Hin'
      by (rewrite Hs'; apply in_or_app; right; now left).
    apply in_app_or in Hin' as [Hin'|[E|Hin']].
    + pose proof (H1 _ _ Hin' Hc' Ht'). lia.
    + congruence.
    + pose proof (H2 _ _ Hin' Hc' Ht'). lia.
  - assumption.
  - pose proof (H1 _ _ Hin Hc' Ht') as Hlt.
    assert (In r (l1' ++ r' :: l2')) as Hin'
      by (rewrite <- Hs'; apply in_or_app; right; now left).
    apply in_app_or in Hin' as [Hin'|[E|Hin']].
    + pose proof (H1' _ _ Hin' Hc Ht). lia.
    + congruence.
    + pose proof (H2' _ _ Hin' Hc Ht). lia.
Qed.

Lemma reduce_get_iff sts c r :
  get (reduce sts) c = Some r <-> latest_for sts c r.
Proof.
  pose proof (reduce_get sts c) as H. split.
  - intros E. now rewrite E in H.
  - intros L. destruct (get (reduce sts) c) as [r'|].
    + f_equal. eapply latest_for_unique; eauto.
    + destruct (latest_for_timestamp _ _ _ L) as [t Ht].
      rewrite (H r (latest_for_in _ _ _ L) (latest_for_context _ _ _ L))
        in Ht. discriminate.
Qed.

(** A status with a timestamp puts its context into the dictionary. *)
Lemma reduce_get_present sts e t :
  In e sts -> Status.updated_at e = Some t ->
  exists r, get (reduce sts) (Status.context e) = Some r.
Proof.
  intros Hin Ht. pose proof (reduce_get sts (Status.context e)) as H.
  destruct (get (reduce sts) (Status.context e)) as [r|]; [eauto|].
  rewrite (H e Hin eq_refl) in Ht. discriminate.
Qed.

(** Every stored status has a timestamp: the comparison of the first loop
    never meets [None]. *)
Lemma reduce_stored_timestamp sts c r :
  get (reduce sts) c = Some r -> exists t, Status.updated_at r = Some t.
Proof.
  intros H. apply reduce_get_iff in H. eapply latest_for_timestamp; eauto.
Qed.

(** Statuses without a timestamp have no part in the first loop. *)
Lemma reduce_filter sts :
  reduce sts = reduce (filter has_timestamp sts).
Proof.
  unfold reduce. generalize (@Dict.empty string Status.t).
  induction sts as [|x sts IH]; intros d; simpl; [reflexivity|].
  unfold has_timestamp at 1.
  destruct (Status.updated_at x) eqn:Hx; simpl.
  - apply IH.
  - unfold record_status at 2. rewrite Hx. apply IH.
Qed.

(** The second loop. *)
Lemma drop_ignored_nodup d c :
  NoDup (Dict.keys d) -> NoDup (Dict.keys (drop_ignored d c)).
Proof.
  intros Hnd. unfold drop_ignored. destruct (Dict.mem String.eqb d c).
  - now apply nodup_del.
  - assumption.
Qed.

Lemma drop_ignored_get d c k :
  NoDup (Dict.keys d) ->
  get (drop_ignored d c) k = if String.eqb c k then None else get d k.
Proof.
  intros Hnd. unfold drop_ignored, Dict.mem.
  destruct (String.eqb_spec c k) as [->|Hne].
  - destruct (get d k) eqn:E; [|assumption].
    now apply (get_del_same String.eqb String.eqb_eq).
  - destruct (get d c); [|reflexivity].
    now apply (get_del_other String.eqb String.eqb_eq).
Qed.

Lemma without_ignored_nodup ignored : forall d,
  NoDup (Dict.keys d) -> NoDup (Dict.keys (without_ignored ignored d)).
Proof.
  induction ignored as [|c ignored IH]; intros d Hnd; simpl; [assumption|].
  apply IH. now apply drop_ignored_nodup.
Qed.

Lemma without_ignored_get ignored : forall d k,
  NoDup (Dict.keys d) ->
  get (without_ignored ignored d) k
  = if existsb (String.eqb k) ignored then None else get d k.
Proof.
  induction ignored as [|c ignored IH]; intros d k Hnd; simpl;
    [reflexivity|].
  unfold without_ignored in IH. rewrite IH by now apply drop_ignored_nodup.
  rewrite drop_ignored_get by assumption.
  rewrite (String.eqb_sym k c).
  destruct (String.eqb c k); simpl.
  - now destruct (existsb (String.eqb k) ignored).
  - reflexivity.
Qed.

(** The last loop. *)
Lemma scan_statuses_spec statuses : forall any_pending,
  scan_statuses statuses any_pending
  = if existsb is_failure statuses then CombinedBuildStatus.failure
    else if any_pending || existsb is_pending statuses
    then CombinedBuildStatus.pending
    else CombinedBuildStatus.success.
Proof.
  induction statuses as [|s statuses IH]; intros b; simpl.
  - now rewrite orb_false_r.
  - unfold is_failure at 1, is_pending at 1.
    destruct (String.eqb (Status.state s) CombinedBuildStatus.failure);
      simpl; [reflexivity|].
    destruct (String.eqb (Status.state s) CombinedBuildStatus.pending);
      simpl; rewrite IH.
    + now rewrite orb_true_r.
    + reflexivity.
Qed.

Variable environ : string -> option string.

Lemma combined_build_status_verdict sts :
  combined_build_status environ sts
  = verdict_of (most_recent_statuses environ sts).
Proof.
  unfold combined_build_status.
  destruct (most_recent_statuses environ sts) as [|s l] eqn:E;
    [reflexivity|].
  cbn [List.length Nat.eqb verdict_of].
  rewrite scan_statuses_spec. cbn [orb].
  now destruct (existsb is_failure (s :: l)),
               (existsb is_pending (s :: l)).
Qed.

(** The statuses that remain for the verdict. *)
Lemma most_recent_statuses_in sts r :
  In r (most_recent_statuses environ sts)
  <-> exists c, latest_for sts c r
                /\ ~ In c (IGNORE_BUILD_STATUS_CONTEXTS environ).
Proof.
  unfold most_recent_statuses.
  rewrite (in_values_iff String.eqb String.eqb_eq)
    by (apply without_ignored_nodup, reduce_nodup).
  split; intros [c H]; exists c.
  - rewrite without_ignored_get in H by apply reduce_nodup.
    destruct (existsb (String.eqb c) (IGNORE_BUILD_STATUS_CONTEXTS environ))
      eqn:E; [discriminate|].
    split; [now apply reduce_get_iff|].
    intros Hin. apply Bool.not_true_iff_false in E. apply E.
    apply existsb_exists. exists c. split; [assumption|].
    apply String.eqb_refl.
  - destruct H as [L Hn].
    rewrite without_ignored_get by apply reduce_nodup.
    destruct (existsb (String.eqb c) (IGNORE_BUILD_STATUS_CONTEXTS environ))
      eqn:E.
    + apply existsb_exists in E as (c' & Hin & E).
      apply String.eqb_eq in E. subst. contradiction.
    + now apply reduce_get_iff.
Qed.

Lemma latest_for_newest sts c r :
  latest_for sts c r -> newest_of_context sts r.
Proof.
  intros L. split; [eapply latest_for_in; eauto|].
  destruct (latest_for_timestamp _ _ _ L) as [t Ht]. exists t.
  split; [assumption|]. intros e' t' Hin Hc Ht'.
  rewrite (latest_for_context _ _ _ L) in Hc.
  eapply latest_for_bound; eauto.
Qed.

Lemma remaining_nonempty_iff sts :
  (exists r, In r (most_recent_statuses environ sts))
  <-> exists e t, In e sts /\ Status.updated_at e = Some t
        /\ ~ In (Status.context e) (IGNORE_BUILD_STATUS_CONTEXTS environ).
Proof.
  split.
  - intros [r Hr]. apply most_recent_statuses_in in Hr as (c & L & Hn).
    destruct (latest_for_timestamp _ _ _ L) as [t Ht].
    exists r, t. rewrite (latest_for_context _ _ _ L).
    split; [eapply latest_for_in; eauto | auto].
  - intros (e & t & Hin & Ht & Hn).
    destruct (reduce_get_present _ _ _ Hin Ht) as [r Hr].
    exists r. apply most_recent_statuses_in.
    exists (Status.context e). split; [now apply reduce_get_iff | assumption].
Qed.

Lemma remaining_state_iff sts s :
  ties_agree sts ->
  (exists r, In r (most_recent_statuses environ sts) /\ Status.state r = s)
  <-> exists e, newest_of_context sts e
        /\ ~ In (Status.context e) (IGNORE_BUILD_STATUS_CONTEXTS environ)
        /\ Status.state e = s.
Proof.
  intros Hties. split.
  - intros (r & Hr & Hs). apply most_recent_statuses_in in Hr as (c & L & Hn).
    exists r. rewrite (latest_for_context _ _ _ L).
    split; [eapply latest_for_newest; eauto | auto].
  - intros (e & (Hin & t & Ht & Hmax) & Hn & Hs).
    destruct (reduce_get_present _ _ _ Hin Ht) as [r Hr].
    apply reduce_get_iff in Hr.
    exists r. split.
    + apply most_recent_statuses_in. exists (Status.context e). auto.
    + destruct (latest_for_timestamp _ _ _ Hr) as [tr Htr].
      pose proof (latest_for_context _ _ _ Hr) as Hc.
      pose proof (latest_for_in _ _ _ Hr) as Hinr.
      pose proof (latest_for_bound _ _ _ _ _ _ Hr Hin eq_refl Htr Ht).
      pose proof (Hmax _ _ Hinr Hc Htr).
      assert (tr = t) by lia. subst tr.
      rewrite <- Hs. eapply Hties; eauto.
Qed.

Lemma newest_of_context_perm sts sts' e :
  Permutation sts sts' -> newest_of_context sts e ->
  newest_of_context sts' e.
Proof.
  intros P (Hin & t & Ht & Hmax). split.
  - eapply Permutation_in; eauto.
  - exists t. split; [assumption|]. intros e' t' Hin'.
    apply Hmax. eapply Permutation_in; [apply Permutation_sym|]; eauto.
Qed.

Lemma ties_agree_perm sts sts' :
  Permutation sts sts' -> ties_agree sts -> ties_agree sts'.
Proof.
  intros P H a b t Ha Hb. apply Permutation_sym in P.
  apply H; eapply Permutation_in; eauto.
Qed.

Lemma existsb_state_perm sts sts' s :
  ties_agree sts -> Permutation sts sts' ->
  existsb (fun r => String.eqb (Status.state r) s)
    (most_recent_statuses environ sts) = true ->
  existsb (fun r => String.eqb (Status.state r) s)
    (most_recent_statuses environ sts') = true.
Proof.
  intros Hties P H. apply existsb_exists in H as (r & Hr & E).
  apply String.eqb_eq in E.
  assert (exists r, In r (most_recent_statuses environ sts)
                    /\ Status.state r = s) as H by eauto.
  apply (remaining_state_iff _ _ Hties) in H as (e & Hnew & Hn & Hs).
  assert (exists r', In r' (most_recent_statuses environ sts')
                     /\ Status.state r' = s) as (r' & Hr' & E').
  { apply remaining_state_iff; [eapply ties_agree_perm; eauto|].
    exists e. split; [eapply newest_of_context_perm; eauto | auto]. }
  apply existsb_exists. exists r'. split; [assumption|].
  now apply String.eqb_eq.
Qed.

Lemma remaining_nonempty_perm sts sts' :
  Permutation sts sts' ->
  most_recent_statuses environ sts <> [] ->
  most_recent_statuses environ sts' <> [].
Proof.
  intros P H.
  assert (exists r, In r (most_recent_statuses environ sts)) as Hex.
  { destruct (most_recent_statuses environ sts) as [|r l];
      [contradiction | exists r; now left]. }
  apply remaining_nonempty_iff in Hex as (e & t & Hin & Ht & Hn).
  assert (exists r, In r (most_recent_statuses environ sts')) as [r Hr].
  { apply remaining_nonempty_iff. exists e, t.
    split; [eapply Permutation_in; eauto | auto]. }
  intros E. rewrite E in Hr. contradiction.
Qed.

Lemma verdict_of_perm sts sts' :
  ties_agree sts -> Permutation sts sts' ->
  verdict_of (most_recent_statuses environ sts)
  = verdict_of (most_recent_statuses environ sts').
Proof.
  intros Hties P.
  pose proof (ties_agree_perm _ _ P Hties) as Hties'.
  pose proof (Permutation_sym P) as P'.
  assert (Hf : existsb is_failure (most_recent_statuses environ sts)
               = existsb is_failure (most_recent_statuses environ sts')).
  { apply Bool.eq_iff_eq_true. split; now apply existsb_state_perm. }
  assert (Hp : existsb is_pending (most_recent_statuses environ sts)
               = existsb is_pending (most_recent_statuses environ sts')).
  { apply Bool.eq_iff_eq_true. split; now apply existsb_state_perm. }
  pose proof (remaining_nonempty_perm _ _ P) as Hne.
  pose proof (remaining_nonempty_perm _ _ P') as Hne'.
  destruct (most_recent_statuses environ sts) as [|r l],
           (most_recent_statuses environ sts') as [|r' l'].
  - reflexivity.
  - exfalso. now apply Hne'.
  - exfalso. now apply Hne.
  - unfold verdict_of. now rewrite Hf, Hp.
Qed.

End Aggregator.

Lemma existsb_false_Forall {A : Type} (f : A -> bool) (l : list A) :
  existsb f l = false -> Forall (fun x => f x = false) l.
Proof.
  induction l as [|x l IH]; simpl; intros H; constructor;
    apply orb_false_iff in H; tauto.
Qed.

Lemma verdict_of_cases (remaining : list Status.t) :
  (remaining = [] /\ verdict_of remaining = None)
  \/ (Exists (fun s => Status.state s = CombinedBuildStatus.failure) remaining
      /\ verdict_of remaining = Some CombinedBuildStatus.failure)
  \/ (remaining <> []
      /\ Forall (fun s => Status.state s <> CombinedBuildStatus.failure)
           remaining
      /\ Exists (fun s => Status.state s = CombinedBuildStatus.pending)
           remaining
      /\ verdict_of remaining = Some CombinedBuildStatus.pending)
  \/ (remaining <> []
      /\ Forall (fun s => Status.state s <> CombinedBuildStatus.failure)
           remaining
      /\ Forall (fun s => Status.state s <> CombinedBuildStatus.pending)
           remaining
      /\ verdict_of remaining = Some CombinedBuildStatus.success).
Proof.
  destruct remaining as [|r l]; [left; auto|]. right.
  unfold verdict_of.
  destruct (existsb is_failure (r :: l)) eqn:Hf.
  { left. split; [|reflexivity].
    apply existsb_exists in Hf as (x & Hin & Hx).
    apply Exists_exists. exists x. split; [assumption|].
    now apply String.eqb_eq. }
  right.
  assert (Forall (fun s => Status.state s <> CombinedBuildStatus.failure)
            (r :: l)) as Hnf.
  { eapply Forall_impl; [|apply existsb_false_Forall, Hf].
    intros s. apply String.eqb_neq. }
  destruct (existsb is_pending (r :: l)) eqn:Hp.
  - left. repeat split; try assumption; try discriminate.
    apply existsb_exists in Hp as (x & Hin & Hx).
    apply Exists_exists. exists x. split; [assumption|].
    now apply String.eqb_eq.
  - right. repeat split; try assumption; try discriminate.
    eapply Forall_impl; [|apply existsb_false_Forall, Hp].
    intros s. apply String.eqb_neq.
Qed.

(** ** Lower-casing of the configured lists *)

Lemma lower_ascii_idem (c : ascii) :
  Str.lower_ascii (Str.lower_ascii c) = Str.lower_ascii c.
Proof. destruct c as [[] [] [] [] [] [] [] []]; reflexivity. Qed.

Lemma isspace_lower_ascii (c : ascii) :
  Str.isspace (Str.lower_ascii c) = Str.isspace c.
Proof. destruct c as [[] [] [] [] [] [] [] []]; reflexivity. Qed.

Lemma lower_idem (s : string) : Str.lower (Str.lower s) = Str.lower s.
Proof.
  induction s as [|c s IH]; simpl; [reflexivity|].
  now rewrite lower_ascii_idem, IH.
Qed.

Lemma lower_lstrip (s : string) :
  Str.lower (Str.lstrip s) = Str.lstrip (Str.lower s).
Proof.
  induction s as [|c s IH]; simpl; [reflexivity|].
  rewrite isspace_lower_ascii. now destruct (Str.isspace c).
Qed.

Lemma lower_rev_append (s : string) : forall acc,
  Str.lower (Str.rev_append s acc)
  = Str.rev_append (Str.lower s) (Str.lower acc).
Proof.
  induction s as [|c s IH]; intros acc; simpl; [reflexivity|].
  now rewrite IH.
Qed.

Lemma lower_strip (s : string) :
  Str.lower (Str.strip s) = Str.strip (Str.lower s).
Proof.
  unfold Str.strip, Str.rstrip, Str.rev.
  now rewrite !lower_rev_append, !lower_lstrip, !lower_rev_append,
    !lower_lstrip.
Qed.

(** Every entry of a list read from the environment is in lower case. *)
Lemma env_list_lower (v : option string) (c : string) :
  In c (env_list v) -> Str.lower c = c.
Proof.
  unfold env_list. destruct v as [s|]; [|contradiction].
  destruct (Str.truthy s); [|contradiction].
  intros H. apply in_map_iff in H as (i & <- & _).
  now rewrite lower_strip, lower_idem.
Qed.

(** ** Claims about the build-status aggregator *)

Lemma latest_for_timestamped sts c r :
  latest_for (filter has_timestamp sts) c r <-> latest_for sts c r.
Proof. rewrite <- !reduce_get_iff. now rewrite <- reduce_filter. Qed.

(** C1. For every status sequence, call kept the statuses that, among the
    statuses with a timestamp, are the first with the greatest timestamp
    of their context, for the contexts that are not ignored.  The
    statuses the verdict is computed from are exactly the kept ones, and
    the aggregator returns absent when no status is kept, failure when
    some kept status has state failure (wherever it stands in the scan),
    otherwise pending when some kept status is pending, otherwise
    success.  Statuses without a timestamp change nothing. *)
Theorem combined_build_status_precedence
    (environ : string -> option string) (sts : list Status.t) :
  let kept := fun r =>
    exists c, latest_for (filter has_timestamp sts) c r
              /\ ~ In c (IGNORE_BUILD_STATUS_CONTEXTS environ) in
  let remaining := most_recent_statuses environ sts in
  let result := combined_build_status environ sts in
  (forall r, In r remaining <-> kept r)
  /\ (((forall r, ~ kept r) /\ result = None)
      \/ ((exists r, kept r
                     /\ Status.state r = CombinedBuildStatus.failure)
          /\ result = Some CombinedBuildStatus.failure)
      \/ ((forall r, kept r ->
                     Status.state r <> CombinedBuildStatus.failure)
          /\ (exists r, kept r
                        /\ Status.state r = CombinedBuildStatus.pending)
          /\ result = Some CombinedBuildStatus.pending)
      \/ ((exists r, kept r)
          /\ (forall r, kept r ->
                        Status.state r <> CombinedBuildStatus.failure)
          /\ (forall r, kept r ->
                        Status.state r <> CombinedBuildStatus.pending)
          /\ result = Some CombinedBuildStatus.success))
  /\ remaining
     = Dict.values
         (without_ignored (IGNORE_BUILD_STATUS_CONTEXTS environ)
            (most_recent_status_by_context (filter has_timestamp sts)))
  /\ result = combined_build_status environ (filter has_timestamp sts)
  /\ ((remaining = [] /\ result = None)
      \/ (Exists (fun s => Status.state s = CombinedBuildStatus.failure)
            remaining
          /\ result = Some CombinedBuildStatus.failure)
      \/ (remaining <> []
          /\ Forall (fun s => Status.state s <> CombinedBuildStatus.failure)
               remaining
          /\ Exists (fun s => Status.state s = CombinedBuildStatus.pending)
               remaining
          /\ result = Some CombinedBuildStatus.pending)
      \/ (remaining <> []
          /\ Forall (fun s => Status.state s <> CombinedBuildStatus.failure)
               remaining
          /\ Forall (fun s => Status.state s <> CombinedBuildStatus.pending)
               remaining
          /\ result = Some CombinedBuildStatus.success)).
Proof.
  intros kept remaining result.
  assert (Hkept : forall r, In r remaining <-> kept r).
  { intros r. subst remaining kept. cbn beta.
    rewrite most_recent_statuses_in.
    split; intros (c & L & Hn); exists c; split; try assumption;
      now apply latest_for_timestamped. }
  assert (Hcases :
    (remaining = [] /\ result = None)
    \/ (Exists (fun s => Status.state s = CombinedBuildStatus.failure)
          remaining
        /\ result = Some CombinedBuildStatus.failure)
    \/ (remaining <> []
        /\ Forall (fun s => Status.state s <> CombinedBuildStatus.failure)
             remaining
        /\ Exists (fun s => Status.state s = CombinedBuildStatus.pending)
             remaining
        /\ result = Some CombinedBuildStatus.pending)
    \/ (remaining <> []
        /\ Forall (fun s => Status.state s <> CombinedBuildStatus.failure)
             remaining
        /\ Forall (fun s => Status.state s <> CombinedBuildStatus.pending)
             remaining
        /\ result = Some CombinedBuildStatus.success)).
  { subst remaining result. rewrite combined_build_status_verdict.
    apply verdict_of_cases. }
  assert (Hsome : remaining <> [] -> exists r, kept r).
  { intros Hne. destruct remaining as [|r l] eqn:E; [contradiction|].
    exists r. apply Hkept. now left. }
  split; [exact Hkept|]. split; [|split; [|split; [|exact Hcases]]].
  - destruct Hcases as [[Hnil Hr]|[[Hf Hr]|[(Hne & Hnf & Hp & Hr)
                                           |(Hne & Hnf & Hnp & Hr)]]].
    + left. split; [|assumption]. intros r Hk. apply Hkept in Hk.
      rewrite Hnil in Hk. contradiction.
    + right. left. split; [|assumption].
      apply Exists_exists in Hf as (r & Hin & Hs). exists r.
      split; [now apply Hkept | assumption].
    + right. right. left. rewrite Forall_forall in Hnf.
      split; [|split; [|assumption]].
      * intros r Hk. apply Hnf. now apply Hkept.
      * apply Exists_exists in Hp as (r & Hin & Hs). exists r.
        split; [now apply Hkept | assumption].
    + right. right. right. rewrite Forall_forall in Hnf, Hnp.
      split; [now apply Hsome|]. split; [|split; [|assumption]].
      * intros r Hk. apply Hnf. now apply Hkept.
      * intros r Hk. apply Hnp. now apply Hkept.
  - subst remaining. unfold most_recent_statuses.
    now rewrite <- reduce_filter.
  - subst result. unfold combined_build_status, most_recent_statuses.
    now rewrite <- reduce_filter.
Qed.

(** C5. For every status sequence and context, the first loop retains
    under the context exactly the status of that context (with a timestamp)
    that is strictly newer than every earlier status of the context and at
    least as new as every later one, so that of two statuses with equal
    timestamps the earlier stays; the context has no entry exactly when
    none of its statuses has a timestamp.  A failure at t=1 followed by a
    success at t=1 for the same context yields failure. *)
Theorem most_recent_status_first_greatest
    (sts : list Status.t) (c : string) :
  (forall r,
      Dict.get String.eqb (most_recent_status_by_context sts) c = Some r
      <-> latest_for sts c r)
  /\ (Dict.get String.eqb (most_recent_status_by_context sts) c = None
      <-> forall e, In e sts -> Status.context e = c ->
                    Status.updated_at e = None)
  /\ Dict.get String.eqb
       (most_recent_status_by_context
          [ Status.mk "a" "failure" (Some 1);
            Status.mk "a" "success" (Some 1) ]) "a"%string
     = Some (Status.mk "a" "failure" (Some 1))
  /\ combined_build_status env_default_settings
       [ Status.mk "a" "failure" (Some 1); Status.mk "a" "success" (Some 1) ]
     = Some CombinedBuildStatus.failure.
Proof.
  split; [|split; [|split; reflexivity]].
  - intros r. exact (reduce_get_iff sts c r).
  - pose proof (reduce_get sts c) as H. split.
    + intros E. now rewrite E in H.
    + intros Hnone.
      destruct (Dict.get String.eqb (most_recent_status_by_context sts) c)
        as [r|]; [|reflexivity].
      destruct (latest_for_timestamp _ _ _ H) as [t Ht].
      rewrite (Hnone r (latest_for_in _ _ _ H) (latest_for_context _ _ _ H))
        in Ht. discriminate.
Qed.

(** C3, as stated, fails: two statuses of one context with the same
    timestamp and different states give different results in the two
    orders. *)
Lemma combined_build_status_order_dependent :
  ~ (forall (environ : string -> option string) (sts sts' : list Status.t),
        Permutation sts sts' ->
        combined_build_status environ sts
        = combined_build_status environ sts').
Proof.
  intros H.
  specialize (H env_default_settings
                [ Status.mk "a" "failure" (Some 1);
                  Status.mk "a" "success" (Some 1) ]
                [ Status.mk "a" "success" (Some 1);
                  Status.mk "a" "failure" (Some 1) ]
                (perm_swap _ _ _)).
  vm_compute in H. discriminate.
Qed.

(** C3, amended. For every status sequence in which statuses of one
    context with equal timestamps have the same state, every permutation
    of the sequence gives the same combined build status. *)
Theorem combined_build_status_permutation
    (environ : string -> option string) (sts sts' : list Status.t) :
  ties_agree sts ->
  Permutation sts sts' ->
  combined_build_status environ sts = combined_build_status environ sts'.
Proof.
  intros Hties P. rewrite !combined_build_status_verdict.
  now apply verdict_of_perm.
Qed.

Lemma combined_build_status_permutation_witness :
  combined_build_status env_default_settings
    [ Status.mk "a" "failure" (Some 1); Status.mk "b" "pending" (Some 2);
      Status.mk "a" "success" (Some 3) ]
  = combined_build_status env_default_settings
      [ Status.mk "b" "pending" (Some 2); Status.mk "a" "failure" (Some 1);
        Status.mk "a" "success" (Some 3) ].
Proof.
  apply combined_build_status_permutation.
  - intros a b t Ha Hb Hc Hta Htb. simpl in Ha, Hb.
    destruct Ha as [<-|[<-|[<-|[]]]], Hb as [<-|[<-|[<-|[]]]];
      simpl in *; congruence.
  - apply perm_swap.
Defined.

(** C4. The statuses that remain are those whose context is not in the
    ignore list, by equality of strings.  The ignore list is lower-cased
    when it is read and the contexts of the statuses are compared as they
    are, so a status whose context is not in lower case always remains:
    ignoring ["a"] removes a failure of context ["a"], and leaves a failure
    of context ["A"], whether the variable is set to ["a"] or to ["A"]. *)
Theorem ignored_context_match_is_exact :
  (forall environ sts r,
      In r (most_recent_statuses environ sts) ->
      ~ In (Status.context r) (IGNORE_BUILD_STATUS_CONTEXTS environ))
  /\ (forall environ c,
         In c (IGNORE_BUILD_STATUS_CONTEXTS environ) -> Str.lower c = c)
  /\ (forall environ sts c r,
         latest_for sts c r -> Str.lower c <> c ->
         In r (most_recent_statuses environ sts))
  /\ IGNORE_BUILD_STATUS_CONTEXTS (env_ignoring "a") = ["a"%string]
  /\ IGNORE_BUILD_STATUS_CONTEXTS (env_ignoring "A") = ["a"%string]
  /\ combined_build_status (env_ignoring "a")
       [ Status.mk "a" "failure" (Some 1) ] = None
  /\ combined_build_status (env_ignoring "a")
       [ Status.mk "A" "failure" (Some 1) ]
     = Some CombinedBuildStatus.failure
  /\ combined_build_status (env_ignoring "A")
       [ Status.mk "A" "failure" (Some 1) ]
     = Some CombinedBuildStatus.failure.
Proof.
  split; [|split; [|split; [|repeat split; reflexivity]]].
  - intros environ sts r Hr.
    apply most_recent_statuses_in in Hr as (c & L & Hn).
    now rewrite (latest_for_context _ _ _ L).
  - intros environ c. apply env_list_lower.
  - intros environ sts c r L Hc. apply most_recent_statuses_in.
    exists c. split; [assumption|]. intros Hin. apply Hc.
    eapply env_list_lower; eauto.
Qed.

(** ** Sorting, newest first *)

Section Sorting.
Context {A : Type}.
Variable key : A -> Z.

Lemma insert_desc_in (a x : A) (l : list A) :
  In x (Py.insert_desc key a l) <-> x = a \/ In x l.
Proof.
  induction l as [|y l IH]; simpl.
  - intuition.
  - destruct (key a <? key y); simpl; [rewrite IH|]; intuition.
Qed.

Lemma sorted_desc_in (x : A) (l : list A) :
  In x (Py.sorted_desc key l) <-> In x l.
Proof.
  induction l as [|a l IH]; simpl; [tauto|].
  rewrite insert_desc_in, IH. intuition.
Qed.

Lemma insert_desc_sorted (a : A) (l : list A) :
  StronglySorted (newer_first key) l ->
  StronglySorted (newer_first key) (Py.insert_desc key a l).
Proof.
  induction l as [|y l IH]; simpl; intros H.
  - constructor; constructor.
  - inversion H as [|? ? Hs Hall]; subst.
    destruct (key a <? key y) eqn:E.
    + apply Z.ltb_lt in E. constructor; [auto|].
      apply Forall_forall. intros x Hx. apply insert_desc_in in Hx as [->|Hx].
      * unfold newer_first. lia.
      * rewrite Forall_forall in Hall. auto.
    + apply Z.ltb_ge in E. constructor; [assumption|].
      constructor; [assumption|].
      eapply Forall_impl; [|exact Hall].
      unfold newer_first. intros; lia.
Qed.

Lemma sorted_desc_sorted (l : list A) :
  StronglySorted (newer_first key) (Py.sorted_desc key l).
Proof.
  induction l as [|a l IH]; simpl; [constructor|].
  now apply insert_desc_sorted.
Qed.

Lemma filter_sorted (f : A -> bool) (l : list A) :
  StronglySorted (newer_first key) l ->
  StronglySorted (newer_first key) (filter f l).
Proof.
  induction 1 as [|a l Hs IH Hall]; simpl; [constructor|].
  destruct (f a); [|assumption].
  constructor; [assumption|].
  apply Forall_forall. intros x Hx. apply filter_In in Hx as [Hx _].
  rewrite Forall_forall in Hall. auto.
Qed.

(** The first item of a sorted list is a newest one. *)
Lemma sorted_head_newest (a : A) (l : list A) (x : A) :
  StronglySorted (newer_first key) (a :: l) -> In x (a :: l) ->
  key x <= key a.
Proof.
  intros H [<-|Hx]; [lia|].
  inversion H as [|? ? _ Hall]; subst.
  rewrite Forall_forall in Hall. now apply Hall.
Qed.

Lemma sorted_desc_nil (l : list A) : Py.sorted_desc key l = [] -> l = [].
Proof.
  destruct l as [|a l]; [reflexivity|]. intros E.
  assert (In a (Py.sorted_desc key (a :: l))) as H
    by (apply sorted_desc_in; now left).
  rewrite E in H. contradiction.
Qed.

End Sorting.

(** ** The review classifier *)

Section Classifier.

Local Abbreviation author_id := (fun r : Review.t => User.id (Review.user r)).

Lemma user_eqb_eq (u v : User.t) : User.eqb u v = true <-> User.id u = User.id v.
Proof. unfold User.eqb. apply Z.eqb_eq. Qed.

Lemma user_eqb_neq (u v : User.t) :
  User.eqb u v = false <-> User.id u <> User.id v.
Proof. unfold User.eqb. apply Z.eqb_neq. Qed.

Lemma user_in_set_id (u v : User.t) (users : list User.t) :
  User.id u = User.id v ->
  existsb (User.eqb u) users = existsb (User.eqb v) users.
Proof.
  intros E. induction users as [|w users IH]; simpl; [reflexivity|].
  unfold User.eqb at 1 3. now rewrite E, IH.
Qed.

Lemma keep_last_reviews_spec reviews : forall users acc,
  keep_last_reviews reviews users acc = acc ++ first_per_user reviews users.
Proof.
  induction reviews as [|x reviews IH]; intros users acc; simpl.
  - now rewrite app_nil_r.
  - destruct (existsb (User.eqb (Review.user x)) users).
    + apply IH.
    + rewrite IH, <- app_assoc. reflexivity.
Qed.

Lemma first_per_user_in reviews : forall users r,
  In r (first_per_user reviews users) ->
  In r reviews /\ existsb (User.eqb (Review.user r)) users = false.
Proof.
  induction reviews as [|x reviews IH]; intros users r; simpl; [tauto|].
  destruct (existsb (User.eqb (Review.user x)) users) eqn:E.
  - intros H. apply IH in H. tauto.
  - intros [<-|H]; [tauto|]. apply IH in H as [Hin Hn]. simpl in Hn.
    apply orb_false_iff in Hn. tauto.
Qed.

(** A kept review is at least as recent as every review of its user. *)
Lemma first_per_user_newest reviews : forall users r e,
  StronglySorted (newer_first Review.submitted_at) reviews ->
  In r (first_per_user reviews users) ->
  In e reviews -> same_author e r ->
  Review.submitted_at e <= Review.submitted_at r.
Proof.
  induction reviews as [|x reviews IH]; intros users r e Hs Hr He Hsame;
    simpl in *; [contradiction|].
  inversion Hs as [|? ? Hs' Hall]; subst.
  destruct (existsb (User.eqb (Review.user x)) users) eqn:E.
  - destruct He as [<-|He]; [|eauto].
    apply first_per_user_in in Hr as [_ Hn].
    rewrite (user_in_set_id _ _ _ Hsame) in E. congruence.
  - destruct Hr as [<-|Hr].
    + eapply sorted_head_newest; [exact Hs | simpl; tauto].
    + destruct He as [<-|He]; [|eauto].
      apply first_per_user_in in Hr as [_ Hn]. simpl in Hn.
      apply orb_false_iff in Hn as [Hn _]. apply user_eqb_neq in Hn.
      unfold same_author in Hsame. congruence.
Qed.

(** No two kept reviews are by the same user. *)
Lemma first_per_user_nodup reviews : forall users,
  NoDup (map author_id (first_per_user reviews users)).
Proof.
  induction reviews as [|x reviews IH]; intros users; simpl; [constructor|].
  destruct (existsb (User.eqb (Review.user x)) users); [apply IH|].
  simpl. constructor; [|apply IH].
  intros H. apply in_map_iff in H as (r & Hid & Hr).
  apply first_per_user_in in Hr as [_ Hn]. simpl in Hn.
  apply orb_false_iff in Hn as [Hn _]. apply user_eqb_neq in Hn.
  congruence.
Qed.

(** Every user with a review, and not yet in [users], has a kept review. *)
Lemma first_per_user_covers reviews : forall users e,
  In e reviews -> existsb (User.eqb (Review.user e)) users = false ->
  exists r, In r (first_per_user reviews users) /\ same_author e r.
Proof.
  induction reviews as [|x reviews IH]; intros users e He Hn; simpl in *;
    [contradiction|].
  destruct (existsb (User.eqb (Review.user x)) users) eqn:E.
  - destruct He as [<-|He]; [congruence | eauto].
  - destruct He as [<-|He].
    + exists x. split; [now left | reflexivity].
    + destruct (User.eqb (Review.user e) (Review.user x)) eqn:Ex.
      * exists x. split; [now left | now apply user_eqb_eq].
      * destruct (IH (Review.user x :: users) e He) as (r & Hr & Hs).
        { simpl. now rewrite Ex. }
        exists r. split; [now right | assumption].
Qed.


Lemma last_reviews_spec pr :
  last_reviews pr = first_per_user (candidate_reviews pr) [].
Proof. unfold last_reviews. apply keep_last_reviews_spec. Qed.

Lemma candidate_reviews_in pr r :
  In r (candidate_reviews pr) <-> is_candidate pr r.
Proof.
  unfold candidate_reviews, is_candidate.
  rewrite !filter_In, sorted_desc_in, !negb_true_iff.
  rewrite String.eqb_neq. tauto.
Qed.

Lemma candidate_reviews_sorted pr :
  StronglySorted (newer_first Review.submitted_at) (candidate_reviews pr).
Proof.
  unfold candidate_reviews. do 2 apply filter_sorted.
  apply sorted_desc_sorted.
Qed.

Lemma last_reviews_candidate pr r :
  In r (last_reviews pr) -> is_candidate pr r.
Proof.
  rewrite last_reviews_spec. intros H.
  apply first_per_user_in in H as [H _]. now apply candidate_reviews_in.
Qed.

Lemma last_reviews_newest pr r e :
  In r (last_reviews pr) -> is_candidate pr e -> same_author e r ->
  Review.submitted_at e <= Review.submitted_at r.
Proof.
  rewrite last_reviews_spec. intros Hr He Hs.
  eapply first_per_user_newest; eauto.
  - apply candidate_reviews_sorted.
  - now apply candidate_reviews_in.
Qed.

Lemma last_reviews_nodup pr : NoDup (map author_id (last_reviews pr)).
Proof. rewrite last_reviews_spec. apply first_per_user_nodup. Qed.

Lemma last_reviews_covers pr e :
  is_candidate pr e ->
  exists r, In r (last_reviews pr) /\ same_author e r.
Proof.
  rewrite last_reviews_spec. intros He.
  apply first_per_user_covers; [now apply candidate_reviews_in | reflexivity].
Qed.

Lemma nodup_map_injective {A B : Type} (f : A -> B) (l : list A) (a b : A) :
  NoDup (map f l) -> In a l -> In b l -> f a = f b -> a = b.
Proof.
  induction l as [|x l IH]; simpl; [tauto|].
  intros Hnd. inversion Hnd as [|? ? Hnotin Hnd']; subst.
  intros [<-|Ha] [<-|Hb] E; auto.
  - exfalso. apply Hnotin. rewrite E. exact (in_map f l b Hb).
  - exfalso. apply Hnotin. rewrite <- E. exact (in_map f l a Ha).
Qed.

Lemma last_reviews_same_author pr a b :
  In a (last_reviews pr) -> In b (last_reviews pr) -> same_author a b ->
  a = b.
Proof.
  intros Ha Hb Hs.
  exact (nodup_map_injective author_id _ a b (last_reviews_nodup pr)
           Ha Hb Hs).
Qed.


(** The two flags. *)
Lemma review_flags_from reviews : forall changes_requested approved,
  fold_left note_review reviews (changes_requested, approved)
  = (changes_requested || existsb is_changes_requested reviews,
     approved || existsb is_approved reviews).
Proof.
  induction reviews as [|r reviews IH]; intros cr ap; simpl.
  - now rewrite !orb_false_r.
  - unfold is_changes_requested at 1, is_approved at 1.
    destruct (String.eqb_spec (Review.state r)
                PullRequestReviewState.CHANGES_REQUESTED) as [E|_].
    + rewrite IH, E. simpl. now rewrite orb_true_r.
    + destruct (String.eqb (Review.state r) PullRequestReviewState.APPROVED);
        rewrite IH; simpl; [now rewrite orb_true_r | reflexivity].
Qed.

Lemma review_flags_spec reviews :
  review_flags reviews
  = (existsb is_changes_requested reviews, existsb is_approved reviews).
Proof. unfold review_flags. now rewrite review_flags_from. Qed.

(** The decision, in terms of the retained reviews. *)
Lemma classify_unfold pr :
  fetch_pull_request_review_status_group pr
  = if existsb is_changes_requested (last_reviews pr) then
      newest_commit <-
        Py.first (Py.sorted_desc Commit.commit_date (PullRequest.commits pr)) ;;
      newest_review <- Py.first (last_reviews pr) ;;
      if Review.submitted_at newest_review <? Commit.commit_date newest_commit
      then Ok PullRequestStatusGroup.changes_since_review
      else if existsb is_approved (last_reviews pr)
      then Ok PullRequestStatusGroup.mixed_reception
      else Ok PullRequestStatusGroup.changes_requested
    else if existsb is_approved (last_reviews pr)
    then Ok PullRequestStatusGroup.approved
    else Ok PullRequestStatusGroup.unreviewed.
Proof.
  unfold fetch_pull_request_review_status_group, fetch_better_commits.
  now rewrite review_flags_spec.
Qed.

Lemma exists_state_existsb (s : string) (l : list Review.t) :
  Exists (fun r => Review.state r = s) l
  <-> existsb (fun r => String.eqb (Review.state r) s) l = true.
Proof.
  rewrite Exists_exists, existsb_exists.
  split; intros (r & Hin & H); exists r; split; auto;
    now apply String.eqb_eq.
Qed.

Lemma forall_state_existsb (s : string) (l : list Review.t) :
  Forall (fun r => Review.state r <> s) l
  <-> existsb (fun r => String.eqb (Review.state r) s) l = false.
Proof.
  rewrite Forall_forall. split.
  - intros H. apply not_true_is_false. intros E.
    apply existsb_exists in E as (r & Hin & E).
    apply String.eqb_eq in E. now apply (H r).
  - intros E r Hin Hs. apply not_true_iff_false in E. apply E.
    apply existsb_exists. exists r. split; [assumption|].
    now apply String.eqb_eq.
Qed.

Lemma unreviewed_when_retained_plain pr :
  (forall r, In r (last_reviews pr) ->
             Review.state r <> PullRequestReviewState.APPROVED
             /\ Review.state r <> PullRequestReviewState.CHANGES_REQUESTED) ->
  fetch_pull_request_review_status_group pr
  = Ok PullRequestStatusGroup.unreviewed.
Proof.
  intros H. rewrite classify_unfold.
  assert (existsb is_changes_requested (last_reviews pr) = false) as ->.
  { apply forall_state_existsb, Forall_forall. intros r Hr. now apply H. }
  assert (existsb is_approved (last_reviews pr) = false) as ->.
  { apply forall_state_existsb, Forall_forall. intros r Hr. now apply H. }
  reflexivity.
Qed.


End Classifier.

(** ** Claims about the review classifier *)


(** C7. When some retained review requests changes and the pull request
    has no commit, the classifier returns no group: taking the first
    commit raises IndexError, which the loop of [format_pull_requests]
    passes on. *)
Theorem changes_requested_without_commits_raises (pr : PullRequest.t) :
  Exists (fun r => Review.state r = PullRequestReviewState.CHANGES_REQUESTED)
    (last_reviews pr) ->
  PullRequest.commits pr = [] ->
  fetch_pull_request_review_status_group pr = Raise IndexError
  /\ forall environ owner grouped,
       SPLIT_BY_REVIEW_STATUS environ = true ->
       is_valid_title environ (PullRequest.title pr) = true ->
       add_pull environ owner grouped pr = Raise IndexError
       /\ format_pull_requests environ [pr] owner = Raise IndexError.
Proof.
  intros Hcr Hcommits.
  assert (Hres : fetch_pull_request_review_status_group pr = Raise IndexError).
  { rewrite classify_unfold, Hcommits.
    apply exists_state_existsb in Hcr.
    unfold is_changes_requested. now rewrite Hcr. }
  split; [assumption|].
  intros environ owner grouped Hsplit Hvalid.
  assert (Hadd : forall g, add_pull environ owner g pr = Raise IndexError).
  { intros g. unfold add_pull. now rewrite Hvalid, Hsplit, Hres. }
  split; [apply Hadd|].
  unfold format_pull_requests. simpl. now rewrite Hadd.
Qed.



Lemma changes_requested_without_commits_raises_witness :
  fetch_pull_request_review_status_group
    (pull_of_alice
       [ Review.mk bob PullRequestReviewState.CHANGES_REQUESTED 10 ] [])
  = Raise IndexError.
Proof.
  refine (proj1 (changes_requested_without_commits_raises
                   (pull_of_alice
                      [ Review.mk bob
                          PullRequestReviewState.CHANGES_REQUESTED 10 ] [])
                   _ _)).
  - apply Exists_cons_hd. reflexivity.
  - reflexivity.
Defined.


(** The cases the specification lists for unreviewed. *)
Example unreviewed_without_reviews commits :
  fetch_pull_request_review_status_group (pull_of_alice [] commits)
  = Ok PullRequestStatusGroup.unreviewed.
Proof. reflexivity. Qed.

Example unreviewed_with_only_a_comment commits :
  fetch_pull_request_review_status_group
    (pull_of_alice [ Review.mk bob PullRequestReviewState.COMMENTED 10 ]
       commits)
  = Ok PullRequestStatusGroup.unreviewed.
Proof. reflexivity. Qed.

Example unreviewed_with_only_a_self_review commits :
  fetch_pull_request_review_status_group
    (pull_of_alice [ Review.mk alice PullRequestReviewState.APPROVED 10 ]
       commits)
  = Ok PullRequestStatusGroup.unreviewed.
Proof. reflexivity. Qed.


(** Over dated reviews: a review whose state is none of approved,
    changes-requested and commented, not by the author of the pull
    request and strictly more recent than the other reviews of its user,
    is retained, is the only retained review of that user, and changes
    neither flag; when every other review is by that user, by the author
    or a comment, the pull request is unreviewed. *)
Lemma other_state_review_supersedes (pr : PullRequest.t) (r : Review.t) :
  In r (PullRequest.reviews pr) ->
  User.eqb (Review.user r) (PullRequest.user pr) = false ->
  Review.state r <> PullRequestReviewState.APPROVED ->
  Review.state r <> PullRequestReviewState.CHANGES_REQUESTED ->
  Review.state r <> PullRequestReviewState.COMMENTED ->
  (forall e, In e (PullRequest.reviews pr) -> same_author e r ->
             e = r \/ Review.submitted_at e < Review.submitted_at r) ->
  In r (last_reviews pr)
  /\ (forall e, In e (last_reviews pr) -> same_author e r -> e = r)
  /\ (forall flags, note_review flags r = flags)
  /\ ((forall e, In e (PullRequest.reviews pr) ->
                 same_author e r
                 \/ User.eqb (Review.user e) (PullRequest.user pr) = true
                 \/ Review.state e = PullRequestReviewState.COMMENTED) ->
      fetch_pull_request_review_status_group pr
      = Ok PullRequestStatusGroup.unreviewed).
Proof.
  intros Hin Hself Hap Hcr Hco Hlatest.
  assert (Hcand : is_candidate pr r) by (repeat split; assumption).
  assert (Hret : In r (last_reviews pr)).
  { destruct (last_reviews_covers pr r Hcand) as (r' & Hr' & Hs).
    pose proof (last_reviews_newest pr r' r Hr' Hcand Hs) as Hle.
    destruct (last_reviews_candidate pr r' Hr') as (Hin' & _).
    destruct (Hlatest r' Hin' (eq_sym Hs)) as [->|Hlt]; [assumption | lia]. }
  assert (Honly : forall e, In e (last_reviews pr) -> same_author e r -> e = r).
  { intros e He Hs. eapply last_reviews_same_author; eauto. }
  repeat split; try assumption.
  - intros [changes_requested approved]. unfold note_review.
    apply String.eqb_neq in Hap, Hcr. now rewrite Hap, Hcr.
  - intros Hsole. apply unreviewed_when_retained_plain.
    intros e He.
    destruct (last_reviews_candidate pr e He) as (Hine & Hselfe & Hcoe).
    destruct (Hsole e Hine) as [Hs|[Hs|Hs]]; [|congruence|contradiction].
    rewrite (Honly e He Hs). auto.
Qed.

(** ** The formatter *)

Lemma emit_group_section environ grouped output group :
  emit_group environ grouped output group
  = output ++ group_section environ grouped group.
Proof.
  unfold emit_group, group_section.
  destruct (Dict.get group_key_eqb grouped (Group group)) as [[|l ls]|].
  - now rewrite app_nil_r.
  - now rewrite <- app_assoc.
  - now rewrite app_nil_r.
Qed.

Lemma fold_emit_group environ grouped groups : forall output,
  fold_left (emit_group environ grouped) groups output
  = output ++ flat_map (group_section environ grouped) groups.
Proof.
  induction groups as [|g groups IH]; intros output; simpl.
  - now rewrite app_nil_r.
  - now rewrite IH, emit_group_section, <- app_assoc.
Qed.

(** The safety check of the program: the display order lists every group,
    each once. *)
Lemma display_order_complete :
  NoDup pr_status_groups_display_order
  /\ forall g, In g pr_status_groups_display_order.
Proof.
  split.
  - unfold pr_status_groups_display_order.
    repeat constructor; simpl; intuition discriminate.
  - intros []; simpl; tauto.
Qed.

(** C8. For every mapping from groups to lines: with splitting on, the
    output is the sections of unreviewed, changes_since_review,
    mixed_reception, changes_requested and approved, in this order, where
    the section of a group with lines is its header followed by its lines
    in their order and the section of a group without lines is empty;
    with splitting off, the output is the list stored under the flat key,
    as it is. *)
Theorem render_groups_display_order
    (environ : string -> option string) (grouped : lines_by_group) :
  render_groups environ grouped
  = if SPLIT_BY_REVIEW_STATUS environ
    then group_section environ grouped PullRequestStatusGroup.unreviewed
         ++ group_section environ grouped
              PullRequestStatusGroup.changes_since_review
         ++ group_section environ grouped
              PullRequestStatusGroup.mixed_reception
         ++ group_section environ grouped
              PullRequestStatusGroup.changes_requested
         ++ group_section environ grouped PullRequestStatusGroup.approved
    else flat_lines grouped.
Proof.
  unfold render_groups.
  destruct (SPLIT_BY_REVIEW_STATUS environ); simpl negb; cbv iota.
  - rewrite fold_emit_group. simpl. now rewrite app_nil_r.
  - reflexivity.
Qed.

(** *** The grouping loop: lines are stored in the order of the pull
    requests *)

Lemma group_key_eqb_eq (a b : group_key) :
  group_key_eqb a b = true <-> a = b.
Proof.
  destruct a as [[]|], b as [[]|]; simpl; split; congruence.
Qed.

Lemma lines_under_append_line grouped key line key' :
  lines_under (append_line grouped key line) key'
  = lines_under grouped key'
    ++ (if group_key_eqb key key' then [line] else []).
Proof.
  unfold lines_under, append_line.
  destruct (group_key_eqb key key') eqn:E.
  - apply group_key_eqb_eq in E. subst key'.
    destruct (Dict.get group_key_eqb grouped key);
      now rewrite (get_set_same group_key_eqb group_key_eqb_eq).
  - assert (key <> key') as Hne.
    { intros ->. rewrite (proj2 (group_key_eqb_eq key' key') eq_refl) in E.
      discriminate. }
    destruct (Dict.get group_key_eqb grouped key);
      rewrite (get_set_other group_key_eqb group_key_eqb_eq) by assumption;
      now rewrite app_nil_r.
Qed.

Lemma add_pull_entry environ owner grouped pull :
  add_pull environ owner grouped pull
  = entry <- pull_entry environ owner pull ;;
    Ok (match entry with
        | Some (key, line) => append_line grouped key line
        | None => grouped
        end).
Proof.
  unfold add_pull, pull_entry.
  destruct (is_valid_title environ (PullRequest.title pull)); [|reflexivity].
  destruct (SPLIT_BY_REVIEW_STATUS environ); simpl.
  - destruct (fetch_pull_request_review_status_group pull); simpl;
      [|reflexivity].
    now destruct (PullRequest.repository pull).
  - now destruct (PullRequest.repository pull).
Qed.

Lemma for_each_add_pull environ owner pulls : forall grouped,
  Py.for_each (add_pull environ owner) pulls grouped
  = entries <- pull_entries environ owner pulls ;;
    Ok (fold_left store_entry entries grouped).
Proof.
  induction pulls as [|pull pulls IH]; intros grouped; simpl; [reflexivity|].
  rewrite add_pull_entry.
  destruct (pull_entry environ owner pull) as [[[key line]|]|e]; simpl;
    [| |reflexivity]; rewrite IH;
    now destruct (pull_entries environ owner pulls).
Qed.

Lemma lines_under_store entries : forall grouped key,
  lines_under (fold_left store_entry entries grouped) key
  = lines_under grouped key ++ lines_with key entries.
Proof.
  induction entries as [|[k line] entries IH]; intros grouped key; simpl.
  - now rewrite app_nil_r.
  - rewrite IH. unfold store_entry at 1. simpl.
    rewrite lines_under_append_line, <- app_assoc. unfold lines_with. simpl.
    now destruct (group_key_eqb k key).
Qed.

Lemma group_section_lines environ grouped group :
  group_section environ grouped group
  = match lines_under grouped (Group group) with
    | [] => []
    | l :: ls => pr_status_group_to_msg environ group :: l :: ls
    end.
Proof.
  unfold group_section, lines_under.
  now destruct (Dict.get group_key_eqb grouped (Group group)) as [[|l ls]|].
Qed.

(** The whole function: each group that has pull requests shows its header
    and then one line per pull request, in the order of the input. *)
Lemma format_pull_requests_in_order environ pulls owner :
  format_pull_requests environ pulls owner
  = entries <- pull_entries environ owner pulls ;;
    Ok (if SPLIT_BY_REVIEW_STATUS environ
        then flat_map
               (fun group =>
                  match lines_with (Group group) entries with
                  | [] => []
                  | l :: ls => pr_status_group_to_msg environ group :: l :: ls
                  end)
               pr_status_groups_display_order
        else lines_with Default entries).
Proof.
  unfold format_pull_requests. rewrite for_each_add_pull.
  destruct (pull_entries environ owner pulls) as [entries|e]; cbn [bind];
    [|reflexivity].
  f_equal. unfold render_groups.
  destruct (SPLIT_BY_REVIEW_STATUS environ); cbn [negb].
  - rewrite fold_emit_group. cbn [app].
    apply flat_map_ext. intros group.
    now rewrite group_section_lines, lines_under_store.
  - change (lines_under (fold_left store_entry entries Dict.empty) Default
            = lines_with Default entries).
    now rewrite lines_under_store.
Qed.

(** ** Concrete runs *)

Example aggregate_empty :
  combined_build_status env_default_settings [] = None.
Proof. reflexivity. Qed.

Example aggregate_all_success :
  combined_build_status env_default_settings
    [ Status.mk "a" "success" (Some 1); Status.mk "b" "success" (Some 2) ]
  = Some CombinedBuildStatus.success.
Proof. reflexivity. Qed.

Example aggregate_failure_dominates :
  combined_build_status env_default_settings
    [ Status.mk "a" "failure" (Some 1); Status.mk "b" "pending" (Some 2);
      Status.mk "c" "success" (Some 3) ]
  = Some CombinedBuildStatus.failure
  /\ combined_build_status env_default_settings
       [ Status.mk "b" "pending" (Some 2); Status.mk "c" "success" (Some 3);
         Status.mk "a" "failure" (Some 1) ]
     = Some CombinedBuildStatus.failure.
Proof. split; reflexivity. Qed.

Example aggregate_pending :
  combined_build_status env_default_settings
    [ Status.mk "a" "pending" (Some 1); Status.mk "b" "success" (Some 2) ]
  = Some CombinedBuildStatus.pending.
Proof. reflexivity. Qed.

Example aggregate_later_timestamp_wins :
  combined_build_status env_default_settings
    [ Status.mk "a" "failure" (Some 1); Status.mk "a" "success" (Some 2) ]
  = Some CombinedBuildStatus.success.
Proof. reflexivity. Qed.

Example aggregate_without_timestamp :
  combined_build_status env_default_settings
    [ Status.mk "a" "failure" None ] = None.
Proof. reflexivity. Qed.

Example classify_approved :
  fetch_pull_request_review_status_group
    (pull_of_alice [ Review.mk bob "APPROVED" 10 ] [ Commit.mk "c0ffee" 5 ])
  = Ok PullRequestStatusGroup.approved.
Proof. reflexivity. Qed.

Example classify_changes_requested :
  fetch_pull_request_review_status_group
    (pull_of_alice [ Review.mk bob "CHANGES_REQUESTED" 10 ]
       [ Commit.mk "c0ffee" 5 ])
  = Ok PullRequestStatusGroup.changes_requested.
Proof. reflexivity. Qed.

Example classify_changes_since_review :
  fetch_pull_request_review_status_group
    (pull_of_alice [ Review.mk bob "CHANGES_REQUESTED" 10 ]
       [ Commit.mk "c0ffee" 5; Commit.mk "decade" 15 ])
  = Ok PullRequestStatusGroup.changes_since_review.
Proof. reflexivity. Qed.

Example classify_mixed_reception :
  fetch_pull_request_review_status_group
    (pull_of_alice
       [ Review.mk bob "APPROVED" 10; Review.mk carol "CHANGES_REQUESTED" 20 ]
       [ Commit.mk "c0ffee" 5 ])
  = Ok PullRequestStatusGroup.mixed_reception.
Proof. reflexivity. Qed.

(** Three pull requests, reported under two headers in the display
    order, each group in the order of the input. *)
Example format_two_groups :
  format_pull_requests env_default_settings
    [ pull_of_alice [ Review.mk bob "APPROVED" 10 ] [];
      pull_of_alice [] [];
      pull_of_alice [ Review.mk carol "APPROVED" 30 ] [] ]
    "acme"
  = Ok [ ":eyetwitch: _Needs Review_";
         "*       [acme/api]* <https://github.com/acme/api/pull/7|Add retries - by alice>";
         ":heart_eyes: _Approved_";
         "*       [acme/api]* <https://github.com/acme/api/pull/7|Add retries - by alice>";
         "*       [acme/api]* <https://github.com/acme/api/pull/7|Add retries - by alice>"
       ]%string.
Proof. reflexivity. Qed.

(** A pull request without repository has no statuses and no line. *)
Example format_without_repository :
  format_pull_requests env_default_settings
    [ PullRequest.mk "Fix" "https://github.com/acme/api/pull/8" alice None
        [ Status.mk "ci" "failure" (Some 1) ] [] [] ]
    "acme"
  = Raise AttributeError.
Proof. reflexivity. Qed.


(** * Further properties of the program *)

(** ** Strings *)

Lemma prefix_iff (a b : string) :
  String.prefix a b = true <-> exists post, b = String.append a post.
Proof.
  revert b. induction a as [|c a IH]; intros [|d b]; simpl.
  - split; [intros _; now exists EmptyString | reflexivity].
  - split; [intros _; now exists (String d b) | reflexivity].
  - split; [discriminate | intros [post H]; discriminate].
  - destruct (ascii_dec c d) as [->|Hne].
    + rewrite IH. split; intros [post H]; exists post.
      * now rewrite H.
      * now injection H.
    + split; [discriminate|]. intros [post H]. injection H as -> _.
      contradiction.
Qed.

(** [needle in hay] holds exactly when [hay] is some text, [needle], some
    text. *)
Lemma contains_iff (needle hay : string) :
  Str.contains needle hay = true
  <-> exists pre post, hay = String.append pre (String.append needle post).
Proof.
  induction hay as [|c hay IH].
  - cbn [Str.contains]. rewrite orb_false_r, prefix_iff. split.
    + intros [post H]. now exists EmptyString, post.
    + intros (pre & post & H). destruct pre; [now exists post|discriminate].
  - cbn [Str.contains]. rewrite orb_true_iff, prefix_iff, IH. split.
    + intros [[post H]|(pre & post & H)].
      * now exists EmptyString, post.
      * exists (String c pre), post. simpl. now rewrite H.
    + intros (pre & post & H). destruct pre as [|d pre].
      * left. now exists post.
      * right. injection H as _ H. now exists pre, post.
Qed.

Lemma split_nonempty (sep : ascii) (s : string) : Str.split sep s <> [].
Proof.
  destruct s as [|c s]; simpl; [discriminate|].
  destruct (Ascii.eqb c sep); [discriminate|].
  destruct (Str.split sep s); discriminate.
Qed.

(** A value that ends with the separator has an empty last item. *)
Lemma split_trailing (sep : ascii) (s : string) :
  Str.split sep (String.append s (String sep EmptyString))
  = Str.split sep s ++ [EmptyString].
Proof.
  induction s as [|c s IH]; simpl.
  - now rewrite Ascii.eqb_refl.
  - rewrite IH. destruct (Ascii.eqb c sep); [reflexivity|].
    pose proof (split_nonempty sep s) as Hne.
    destruct (Str.split sep s) as [|h t]; [contradiction | reflexivity].
Qed.

(** ** The lists read from the environment, and the title filter *)

Lemma env_list_trailing_comma (s : string) :
  In EmptyString (env_list (Some (String.append s ","))).
Proof.
  unfold env_list.
  assert (Str.truthy (String.append s ",") = true) as ->
    by now destruct s.
  rewrite split_trailing, map_app. apply in_or_app. right. now left.
Qed.

Lemma is_valid_title_false environ title :
  is_valid_title environ title = false
  <-> exists word, In word (IGNORE_WORDS environ)
                   /\ Str.contains word (Str.lower title) = true.
Proof.
  unfold is_valid_title. rewrite negb_false_iff, existsb_exists. reflexivity.
Qed.

Lemma pull_entries_all_ignored environ owner pulls :
  (forall title, is_valid_title environ title = false) ->
  pull_entries environ owner pulls = Ok [].
Proof.
  intros H. induction pulls as [|pull pulls IH]; simpl; [reflexivity|].
  unfold pull_entry. now rewrite H, IH.
Qed.

(** X3. When the value of IGNORE_WORDS ends with a comma, its last item is
    the empty word, which is part of every title: every title is rejected
    and the report is empty, whatever the pull requests are. *)
Theorem trailing_comma_rejects_every_title
    (environ : string -> option string) (s : string) :
  environ "IGNORE_WORDS"%string = Some (String.append s ",") ->
  (forall title, is_valid_title environ title = false)
  /\ forall pulls owner, format_pull_requests environ pulls owner = Ok [].
Proof.
  intros Henv.
  assert (Hall : forall title, is_valid_title environ title = false).
  { intros title. apply is_valid_title_false. exists EmptyString. split.
    - unfold IGNORE_WORDS. rewrite Henv. apply env_list_trailing_comma.
    - apply contains_iff. now exists EmptyString, (Str.lower title). }
  split; [assumption|]. intros pulls owner.
  rewrite format_pull_requests_in_order, pull_entries_all_ignored by assumption.
  cbn [bind]. now destruct (SPLIT_BY_REVIEW_STATUS environ).
Qed.

Lemma trailing_comma_rejects_every_title_witness :
  format_pull_requests (env_setting "IGNORE_WORDS" "wip,")
    [ pull_of_alice [] [] ] "acme"
  = Ok [].
Proof.
  refine (proj2 (trailing_comma_rejects_every_title
                   (env_setting "IGNORE_WORDS" "wip,") "wip" _) _ _).
  reflexivity.
Defined.

(** ** More on the build-status aggregator *)

Lemma verdict_of_none (l : list Status.t) : verdict_of l = None <-> l = [].
Proof.
  destruct l as [|r l]; [tauto|]. unfold verdict_of.
  destruct (existsb is_failure (r :: l)), (existsb is_pending (r :: l));
    split; discriminate.
Qed.

Lemma nil_iff_no_member {A : Type} (l : list A) :
  l = [] <-> ~ exists x, In x l.
Proof.
  destruct l as [|a l]; split; try tauto; try discriminate.
  - intros _ [x []].
  - intros H. exfalso. apply H. exists a. now left.
Qed.

(** The verdict depends on the remaining statuses as a set, through the
    two tests only. *)
Lemma verdict_of_related (g : Status.t -> Status.t) (l l' : list Status.t) :
  (forall r', In r' l' <-> exists r, In r l /\ r' = g r) ->
  (forall r, is_failure (g r) = is_failure r) ->
  (forall r, is_pending (g r) = is_pending r) ->
  verdict_of l' = verdict_of l.
Proof.
  intros Hin Hf Hp.
  assert (Hex : forall test, (forall r, test (g r) = test r) ->
                             existsb test l' = existsb test l).
  { intros test Ht. apply eq_iff_eq_true. rewrite !existsb_exists. split.
    - intros (r' & Hr' & E). apply Hin in Hr' as (r & Hr & ->).
      exists r. now rewrite <- Ht.
    - intros (r & Hr & E). exists (g r). rewrite Ht. split; [|assumption].
      apply Hin. eauto. }
  destruct l as [|a l], l' as [|a' l'].
  - reflexivity.
  - exfalso. destruct (proj1 (Hin a') (or_introl eq_refl)) as (r & [] & _).
  - exfalso. apply (Hin (g a)). exists a. split; [now left | reflexivity].
  - unfold verdict_of. now rewrite (Hex _ Hf), (Hex _ Hp).
Qed.

Lemma verdict_of_ext (l l' : list Status.t) :
  (forall r, In r l' <-> In r l) -> verdict_of l' = verdict_of l.
Proof.
  intros H. apply (verdict_of_related (fun r => r)); auto.
  intros r'. rewrite H. split; [eauto | now intros (r & Hr & ->)].
Qed.

Lemma latest_for_filter (keep : string -> bool) sts c r :
  latest_for (filter (fun s => keep (Status.context s)) sts) c r
  <-> latest_for sts c r /\ keep c = true.
Proof.
  assert (Hback : forall r0,
             latest_for sts c r0 -> keep c = true ->
             latest_for (filter (fun s => keep (Status.context s)) sts)
               c r0).
  { intros r0 (l1 & l2 & t & -> & Hc & Ht & H1 & H2) Hk.
    exists (filter (fun s => keep (Status.context s)) l1),
           (filter (fun s => keep (Status.context s)) l2), t.
    repeat split; auto.
    - rewrite filter_app. simpl. now rewrite Hc, Hk.
    - intros e t' He. apply filter_In in He as [He _]. eauto.
    - intros e t' He. apply filter_In in He as [He _]. eauto. }
  split; [|intros [L Hk]; now apply Hback].
  intros L.
  pose proof (latest_for_in _ _ _ L) as Hin.
  apply filter_In in Hin as [Hin Hk].
  pose proof (latest_for_context _ _ _ L) as Hc. rewrite Hc in Hk.
  destruct (latest_for_timestamp _ _ _ L) as [t Ht].
  destruct (reduce_get_present _ _ _ Hin Ht) as [r' Hr'].
  rewrite Hc in Hr'. apply reduce_get_iff in Hr'.
  assert (r = r') as <-
    by (eapply latest_for_unique; [exact L | apply Hback; auto]).
  auto.
Qed.

Lemma latest_for_map (g : Status.t -> Status.t) sts c r' :
  (forall s, Status.context (g s) = Status.context s) ->
  (forall s, Status.updated_at (g s) = Status.updated_at s) ->
  latest_for (map g sts) c r' <-> exists r, latest_for sts c r /\ r' = g r.
Proof.
  intros Gc Gt.
  assert (Hback : forall r, latest_for sts c r -> latest_for (map g sts) c (g r)).
  { intros r (l1 & l2 & t & -> & Hc & Ht & H1 & H2).
    exists (map g l1), (map g l2), t. repeat split.
    - now rewrite map_app.
    - now rewrite Gc.
    - now rewrite Gt.
    - intros e t' He. apply in_map_iff in He as (e0 & <- & He).
      rewrite Gc, Gt. eauto.
    - intros e t' He. apply in_map_iff in He as (e0 & <- & He).
      rewrite Gc, Gt. eauto. }
  split.
  - intros L.
    pose proof (latest_for_in _ _ _ L) as Hin.
    apply in_map_iff in Hin as (r0 & E & Hin).
    pose proof (latest_for_context _ _ _ L) as Hc.
    destruct (latest_for_timestamp _ _ _ L) as [t Ht].
    rewrite <- E, Gc in Hc. rewrite <- E, Gt in Ht.
    destruct (reduce_get_present _ _ _ Hin Ht) as [r Hr].
    rewrite Hc in Hr. apply reduce_get_iff in Hr.
    exists r. split; [assumption|].
    eapply latest_for_unique; [exact L | now apply Hback].
  - intros (r & L & ->). now apply Hback.
Qed.

Lemma in_list_iff (x : string) (l : list string) :
  in_list x l = true <-> In x l.
Proof.
  unfold in_list. rewrite existsb_exists. split.
  - intros (y & Hy & E). apply String.eqb_eq in E. now subst.
  - intros H. exists x. split; [assumption | apply String.eqb_refl].
Qed.

(** X4. The result is absent exactly when every status lacks a timestamp
    or has an ignored context. *)
Theorem combined_build_status_absent_iff
    (environ : string -> option string) (sts : list Status.t) :
  combined_build_status environ sts = None
  <-> forall s, In s sts ->
        Status.updated_at s = None
        \/ In (Status.context s) (IGNORE_BUILD_STATUS_CONTEXTS environ).
Proof.
  rewrite combined_build_status_verdict, verdict_of_none, nil_iff_no_member,
    remaining_nonempty_iff.
  split.
  - intros H s Hin. destruct (Status.updated_at s) as [t|] eqn:Ht; [|now left].
    right.
    destruct (in_dec string_dec (Status.context s)
                (IGNORE_BUILD_STATUS_CONTEXTS environ)) as [|Hn];
      [assumption|].
    exfalso. apply H. exists s, t. auto.
  - intros H (e & t & Hin & Ht & Hn).
    destruct (H e Hin) as [E|E]; [congruence | contradiction].
Qed.

(** X5. Ignoring contexts gives the same result as removing the statuses
    of these contexts from the input and ignoring nothing. *)
Theorem ignoring_is_prefiltering
    (environ : string -> option string) (sts : list Status.t) :
  combined_build_status environ sts
  = combined_build_status env_default_settings
      (filter
         (fun s => negb (in_list (Status.context s)
                           (IGNORE_BUILD_STATUS_CONTEXTS environ)))
         sts).
Proof.
  rewrite !combined_build_status_verdict. apply verdict_of_ext.
  intros r. rewrite !most_recent_statuses_in. split.
  - intros (c & L & Hn). exists c. split; [|intros []].
    apply (latest_for_filter
             (fun c => negb (in_list c (IGNORE_BUILD_STATUS_CONTEXTS environ)))).
    split; [assumption|]. apply negb_true_iff.
    apply not_true_is_false. intros Hin. apply in_list_iff in Hin.
    contradiction.
  - intros (c & L & _).
    apply (latest_for_filter
             (fun c => negb (in_list c (IGNORE_BUILD_STATUS_CONTEXTS environ))))
      in L as [L Hk].
    exists c. split; [assumption|].
    apply negb_true_iff in Hk. intros Hin. apply in_list_iff in Hin.
    congruence.
Qed.

(** X6. The states count only through the two tests of the last loop: a
    change of the states that keeps which of them are 'failure' and which
    are 'pending' keeps the result. *)
Theorem combined_build_status_state_blind
    (environ : string -> option string) (f : string -> string)
    (sts : list Status.t) :
  (forall x, String.eqb (f x) CombinedBuildStatus.failure
             = String.eqb x CombinedBuildStatus.failure) ->
  (forall x, String.eqb (f x) CombinedBuildStatus.pending
             = String.eqb x CombinedBuildStatus.pending) ->
  combined_build_status environ (map (with_state f) sts)
  = combined_build_status environ sts.
Proof.
  intros Hf Hp. rewrite !combined_build_status_verdict.
  apply (verdict_of_related (with_state f)).
  - intros r'. rewrite most_recent_statuses_in. split.
    + intros (c & L & Hn).
      apply latest_for_map in L as (r & L & ->); [|reflexivity..].
      exists r. split; [|reflexivity].
      apply most_recent_statuses_in. eauto.
    + intros (r & Hr & ->).
      apply most_recent_statuses_in in Hr as (c & L & Hn).
      exists c. split; [|assumption].
      apply latest_for_map; [reflexivity..|]. eauto.
  - intros r. unfold is_failure, with_state. simpl. apply Hf.
  - intros r. unfold is_pending, with_state. simpl. apply Hp.
Qed.

(** The state 'error' of GitHub counts as a success. *)
Lemma combined_build_status_state_blind_witness :
  combined_build_status env_default_settings
    (map (with_state
            (fun x => if String.eqb x "error" then "success"%string else x))
       [ Status.mk "ci" "error" (Some 1); Status.mk "lint" "pending" (Some 2) ])
  = combined_build_status env_default_settings
      [ Status.mk "ci" "error" (Some 1); Status.mk "lint" "pending" (Some 2) ].
Proof.
  apply combined_build_status_state_blind.
  - intros x. destruct (String.eqb_spec x "error") as [->|_]; reflexivity.
  - intros x. destruct (String.eqb_spec x "error") as [->|_]; reflexivity.
Defined.

(** X7. The result of the aggregator is always a key of [state_to_emoji]:
    the look-up finds one of the four strings of the table and its
    fallback is never used. *)
Theorem state_to_emoji_covers_results
    (environ : string -> option string) (pull : PullRequest.t) :
  let found :=
    Dict.get (option_string_eqb) (state_to_emoji environ)
      (fetch_combined_build_status environ pull) in
  found = Some (SUCCESS_EMOJI environ)
  \/ found = Some (PENDING_EMOJI environ)
  \/ found = Some (FAILURE_EMOJI environ)
  \/ found = Some "       "%string.
Proof.
  cbn zeta. unfold fetch_combined_build_status.
  rewrite combined_build_status_verdict.
  destruct (verdict_of_cases
              (most_recent_statuses environ
                 (fetch_pull_request_build_statuses pull)))
    as [[_ ->]|[[_ ->]|[(_ & _ & _ & ->)|(_ & _ & _ & ->)]]];
    cbn; tauto.
Qed.

(** ** More on sorting *)

Section MoreSorting.
Context {A : Type}.
Variable key : A -> Z.

Lemma insert_desc_perm (x : A) (l : list A) :
  Permutation (Py.insert_desc key x l) (x :: l).
Proof.
  induction l as [|y l IH]; simpl; [reflexivity|].
  destruct (key x <? key y); [|reflexivity].
  rewrite IH. apply perm_swap.
Qed.

Lemma sorted_desc_perm (l : list A) : Permutation (Py.sorted_desc key l) l.
Proof.
  induction l as [|x l IH]; simpl; [reflexivity|].
  rewrite insert_desc_perm. now constructor.
Qed.

Lemma insert_desc_first (x : A) (l : list A) :
  Forall (fun z => key z <= key x) l -> Py.insert_desc key x l = x :: l.
Proof.
  destruct l as [|y l]; [reflexivity|]. intros H.
  inversion H as [|? ? Hy _]; subst. simpl.
  now rewrite (proj2 (Z.ltb_ge _ _) Hy).
Qed.

(** Sorting and filtering commute: the sort is stable. *)
Lemma insert_desc_filter (f : A -> bool) (x : A) (l : list A) :
  StronglySorted (newer_first key) l ->
  filter f (Py.insert_desc key x l)
  = if f x then Py.insert_desc key x (filter f l) else filter f l.
Proof.
  induction 1 as [|y l Hs IH Hall]; simpl.
  - now destruct (f x).
  - destruct (key x <? key y) eqn:E; simpl.
    + rewrite IH. destruct (f y), (f x); simpl; try reflexivity.
      now rewrite E.
    + destruct (f x) eqn:Fx, (f y) eqn:Fy; simpl; try reflexivity.
      * now rewrite E.
      * symmetry. apply insert_desc_first.
        apply Forall_forall. intros z Hz. apply filter_In in Hz as [Hz _].
        rewrite Forall_forall in Hall. specialize (Hall z Hz).
        apply Z.ltb_ge in E. unfold newer_first in Hall. lia.
Qed.

Lemma sorted_desc_filter (f : A -> bool) (l : list A) :
  Py.sorted_desc key (filter f l) = filter f (Py.sorted_desc key l).
Proof.
  induction l as [|x l IH]; simpl; [reflexivity|].
  rewrite insert_desc_filter by apply sorted_desc_sorted.
  destruct (f x); simpl; now rewrite IH.
Qed.

(** With keys that differ, there is one sorted arrangement. *)
Lemma sorted_unique (l : list A) : forall l',
  StronglySorted (newer_first key) l ->
  StronglySorted (newer_first key) l' ->
  Permutation l l' -> NoDup (map key l) -> l = l'.
Proof.
  induction l as [|a l IH]; intros l' Hs Hs' P Hnd.
  - apply Permutation_nil in P. now subst.
  - destruct l' as [|b l'].
    { apply Permutation_sym, Permutation_nil in P. discriminate. }
    assert (a = b) as <-.
    { assert (In a (b :: l')) as Ha
        by (eapply Permutation_in; [exact P | now left]).
      assert (In b (a :: l)) as Hb
        by (eapply Permutation_in;
            [apply Permutation_sym; exact P | now left]).
      pose proof (sorted_head_newest key _ _ _ Hs' Ha) as H1.
      pose proof (sorted_head_newest key _ _ _ Hs Hb) as H2.
      apply (nodup_map_injective key (a :: l)); auto; [now left | lia]. }
    f_equal. apply Permutation_cons_inv in P.
    inversion Hs; inversion Hs'; inversion Hnd; subst. now apply IH.
Qed.

Lemma sorted_desc_order_free (l l' : list A) :
  Permutation l l' -> NoDup (map key l) ->
  Py.sorted_desc key l = Py.sorted_desc key l'.
Proof.
  intros P Hnd. apply sorted_unique.
  - apply sorted_desc_sorted.
  - apply sorted_desc_sorted.
  - rewrite !sorted_desc_perm. assumption.
  - eapply Permutation_NoDup; [|exact Hnd].
    apply Permutation_map, Permutation_sym, sorted_desc_perm.
Qed.

(** The newest item of a list does not depend on the order of the list. *)
Lemma sorted_desc_first_order_free (l l' : list A) :
  Permutation l l' ->
  match Py.sorted_desc key l, Py.sorted_desc key l' with
  | [], [] => True
  | a :: _, b :: _ => key a = key b
  | _, _ => False
  end.
Proof.
  intros P.
  pose proof (sorted_desc_sorted key l) as Hs.
  pose proof (sorted_desc_sorted key l') as Hs'.
  assert (PP : Permutation (Py.sorted_desc key l) (Py.sorted_desc key l'))
    by now rewrite !sorted_desc_perm.
  destruct (Py.sorted_desc key l) as [|a m], (Py.sorted_desc key l') as [|b m'].
  - exact I.
  - apply Permutation_nil in PP. discriminate.
  - apply Permutation_sym, Permutation_nil in PP. discriminate.
  - assert (In a (b :: m')) as Ha
      by (eapply Permutation_in; [exact PP | now left]).
    assert (In b (a :: m)) as Hb
      by (eapply Permutation_in;
          [apply Permutation_sym; exact PP | now left]).
    pose proof (sorted_head_newest key _ _ _ Hs' Ha).
    pose proof (sorted_head_newest key _ _ _ Hs Hb). lia.
Qed.

End MoreSorting.

(** ** More on the review classifier *)

Lemma existsb_nonempty {A : Type} (f : A -> bool) (l : list A) :
  existsb f l = true -> l <> [].
Proof. destruct l; [discriminate | discriminate]. Qed.

Lemma filter_filter {A : Type} (f g : A -> bool) (l : list A) :
  filter f (filter g l) = filter (fun x => g x && f x) l.
Proof.
  induction l as [|x l IH]; simpl; [reflexivity|].
  destruct (g x); simpl; [destruct (f x)|]; now rewrite IH.
Qed.

Lemma candidate_reviews_counts pr :
  candidate_reviews pr
  = filter (counts_for pr)
      (Py.sorted_desc Review.submitted_at (PullRequest.reviews pr)).
Proof. unfold candidate_reviews. now rewrite filter_filter. Qed.

Lemma classify_raise_inv (pr : PullRequest.t) (e : exn) :
  fetch_pull_request_review_status_group pr = Raise e ->
  e = IndexError
  /\ PullRequest.commits pr = []
  /\ Exists (fun r => Review.state r = PullRequestReviewState.CHANGES_REQUESTED)
       (last_reviews pr).
Proof.
  rewrite classify_unfold.
  destruct (existsb is_changes_requested (last_reviews pr)) eqn:Hcr.
  - destruct (Py.sorted_desc Commit.commit_date (PullRequest.commits pr))
      as [|c0 cs] eqn:Ec.
    + intros [= <-]. apply sorted_desc_nil in Ec.
      split; [reflexivity|]. split; [assumption|].
      now apply exists_state_existsb.
    + pose proof (existsb_nonempty _ _ Hcr) as Hne.
      destruct (last_reviews pr) as [|r0 rs]; [contradiction|].
      cbn [bind Py.first].
      destruct (Review.submitted_at r0 <? Commit.commit_date c0);
        [discriminate|].
      destruct (existsb is_approved (r0 :: rs)); discriminate.
  - destruct (existsb is_approved (last_reviews pr)); discriminate.
Qed.

(** X9. The group does not depend on the order in which the commits are
    listed. *)
Theorem commit_order_is_irrelevant
    (pr : PullRequest.t) (commits : list Commit.t) :
  Permutation (PullRequest.commits pr) commits ->
  fetch_pull_request_review_status_group (with_commits pr commits)
  = fetch_pull_request_review_status_group pr.
Proof.
  intros P. rewrite !classify_unfold.
  change (last_reviews (with_commits pr commits)) with (last_reviews pr).
  change (PullRequest.commits (with_commits pr commits)) with commits.
  pose proof (sorted_desc_first_order_free Commit.commit_date _ _ P) as H.
  destruct (Py.sorted_desc Commit.commit_date (PullRequest.commits pr))
    as [|a m],
    (Py.sorted_desc Commit.commit_date commits) as [|b m'];
    try contradiction; [reflexivity|].
  simpl. now rewrite H.
Qed.

Lemma commit_order_is_irrelevant_witness :
  fetch_pull_request_review_status_group
    (with_commits
       (pull_of_alice
          [ Review.mk bob PullRequestReviewState.CHANGES_REQUESTED 10 ]
          [ Commit.mk "c0ffee" 5; Commit.mk "decade" 15 ])
       [ Commit.mk "decade" 15; Commit.mk "c0ffee" 5 ])
  = fetch_pull_request_review_status_group
      (pull_of_alice
         [ Review.mk bob PullRequestReviewState.CHANGES_REQUESTED 10 ]
         [ Commit.mk "c0ffee" 5; Commit.mk "decade" 15 ]).
Proof.
  apply commit_order_is_irrelevant. apply perm_swap.
Defined.

(** X10. When the reviews have pairwise different submission timestamps,
    the group does not depend on the order in which they are listed. *)
Theorem review_order_is_irrelevant
    (pr : PullRequest.t) (reviews : list Review.t) :
  Permutation (PullRequest.reviews pr) reviews ->
  NoDup (map Review.submitted_at (PullRequest.reviews pr)) ->
  fetch_pull_request_review_status_group (with_reviews pr reviews)
  = fetch_pull_request_review_status_group pr.
Proof.
  intros P Hnd.
  assert (E : last_reviews (with_reviews pr reviews) = last_reviews pr).
  { unfold last_reviews, candidate_reviews. cbn [with_reviews
      PullRequest.reviews PullRequest.user].
    now rewrite (sorted_desc_order_free Review.submitted_at _ _ P Hnd). }
  rewrite !classify_unfold, E. reflexivity.
Qed.

Lemma review_order_is_irrelevant_witness :
  fetch_pull_request_review_status_group
    (with_reviews
       (pull_of_alice
          [ Review.mk bob PullRequestReviewState.CHANGES_REQUESTED 10;
            Review.mk bob PullRequestReviewState.APPROVED 20 ] [])
       [ Review.mk bob PullRequestReviewState.APPROVED 20;
         Review.mk bob PullRequestReviewState.CHANGES_REQUESTED 10 ])
  = fetch_pull_request_review_status_group
      (pull_of_alice
         [ Review.mk bob PullRequestReviewState.CHANGES_REQUESTED 10;
           Review.mk bob PullRequestReviewState.APPROVED 20 ] []).
Proof.
  apply review_order_is_irrelevant.
  - apply perm_swap.
  - simpl. repeat constructor; simpl; intuition discriminate.
Defined.

(** Over dated reviews, reviews by the author of the pull request and
    comments have no influence. *)
Lemma uncounted_reviews_have_no_influence (pr : PullRequest.t) :
  fetch_pull_request_review_status_group
    (with_reviews pr (filter (counts_for pr) (PullRequest.reviews pr)))
  = fetch_pull_request_review_status_group pr.
Proof.
  assert (E : last_reviews
                (with_reviews pr
                   (filter (counts_for pr) (PullRequest.reviews pr)))
              = last_reviews pr).
  { unfold last_reviews. f_equal. rewrite !candidate_reviews_counts.
    cbn [with_reviews PullRequest.reviews].
    rewrite sorted_desc_filter, filter_filter.
    apply filter_ext. intros r. unfold counts_for.
    cbn [with_reviews PullRequest.user].
    now destruct (negb (User.eqb (Review.user r) (PullRequest.user pr))),
                 (negb (String.eqb (Review.state r)
                          PullRequestReviewState.COMMENTED)). }
  rewrite !classify_unfold, E. reflexivity.
Qed.

(** X12. A pull request is in mixed_reception only with two retained
    reviews by different users, one approved and one requesting changes,
    and with no commit after the most recent retained review. *)
Theorem mixed_reception_needs_two_reviewers (pr : PullRequest.t) :
  fetch_pull_request_review_status_group pr
  = Ok PullRequestStatusGroup.mixed_reception ->
  (exists a b,
      In a (last_reviews pr) /\ In b (last_reviews pr)
      /\ Review.state a = PullRequestReviewState.APPROVED
      /\ Review.state b = PullRequestReviewState.CHANGES_REQUESTED
      /\ ~ same_author a b)
  /\ exists newest,
       In newest (last_reviews pr)
       /\ forall c, In c (PullRequest.commits pr) ->
                    Commit.commit_date c <= Review.submitted_at newest.
Proof.
  rewrite classify_unfold.
  destruct (existsb is_changes_requested (last_reviews pr)) eqn:Hcr.
  2: { destruct (existsb is_approved (last_reviews pr)); discriminate. }
  pose proof (sorted_desc_sorted Commit.commit_date (PullRequest.commits pr))
    as Hsorted.
  pose proof (sorted_desc_in Commit.commit_date) as Hin.
  destruct (Py.sorted_desc Commit.commit_date (PullRequest.commits pr))
    as [|c0 cs] eqn:Ec; [discriminate|].
  destruct (last_reviews pr) as [|r0 rs] eqn:Er; [discriminate|].
  cbn [bind Py.first].
  destruct (Review.submitted_at r0 <? Commit.commit_date c0) eqn:Hlt;
    [discriminate|].
  destruct (existsb is_approved (r0 :: rs)) eqn:Hap; [|discriminate].
  intros _. split.
  - apply existsb_exists in Hap as (a & Ha & Sa).
    apply existsb_exists in Hcr as (b & Hb & Sb).
    apply String.eqb_eq in Sa, Sb.
    exists a, b. repeat split; try assumption.
    intros Hsame.
    assert (a = b) by (apply (last_reviews_same_author pr);
                       rewrite ?Er; assumption).
    subst b. rewrite Sa in Sb. discriminate.
  - exists r0. split; [now left|]. intros c Hc.
    apply Z.ltb_ge in Hlt.
    assert (In c (c0 :: cs)) as Hc' by (rewrite <- Ec; now apply Hin).
    pose proof (sorted_head_newest Commit.commit_date _ _ _ Hsorted Hc').
    lia.
Qed.

Lemma mixed_reception_needs_two_reviewers_witness :
  (exists a b,
      In a (last_reviews
              (pull_of_alice
                 [ Review.mk bob PullRequestReviewState.CHANGES_REQUESTED 10;
                   Review.mk carol PullRequestReviewState.APPROVED 20 ]
                 [ Commit.mk "c0ffee" 5 ]))
      /\ In b (last_reviews
                 (pull_of_alice
                    [ Review.mk bob PullRequestReviewState.CHANGES_REQUESTED 10;
                      Review.mk carol PullRequestReviewState.APPROVED 20 ]
                    [ Commit.mk "c0ffee" 5 ]))
      /\ Review.state a = PullRequestReviewState.APPROVED
      /\ Review.state b = PullRequestReviewState.CHANGES_REQUESTED
      /\ ~ same_author a b).
Proof.
  refine (proj1 (mixed_reception_needs_two_reviewers
                   (pull_of_alice
                      [ Review.mk bob
                          PullRequestReviewState.CHANGES_REQUESTED 10;
                        Review.mk carol PullRequestReviewState.APPROVED 20 ]
                      [ Commit.mk "c0ffee" 5 ]) _)).
  reflexivity.
Defined.


(** ** More on the formatter *)

Lemma lines_with_cons key e entries :
  lines_with key (e :: entries)
  = (if group_key_eqb (fst e) key then [snd e] else [])
    ++ lines_with key entries.
Proof.
  unfold lines_with. simpl. now destruct (group_key_eqb (fst e) key).
Qed.

Lemma group_eqb_eq (g h : PullRequestStatusGroup.t) :
  PullRequestStatusGroup.eqb g h = true <-> g = h.
Proof. destruct g, h; simpl; split; congruence. Qed.

Lemma flat_map_ext_on {A B : Type} (f g : A -> list B) (l : list A) :
  (forall x, In x l -> f x = g x) -> flat_map f l = flat_map g l.
Proof.
  induction l as [|x l IH]; intros H; simpl; [reflexivity|].
  rewrite (H x (or_introl eq_refl)), IH; [reflexivity|].
  intros y Hy. apply H. now right.
Qed.

(** One more line for one group of a list of distinct groups is one more
    line in the concatenation. *)
Lemma flat_map_one_more (g0 : PullRequestStatusGroup.t) (line : string)
    (F : PullRequestStatusGroup.t -> list string)
    (groups : list PullRequestStatusGroup.t) :
  NoDup groups -> In g0 groups ->
  Permutation
    (flat_map
       (fun g => (if PullRequestStatusGroup.eqb g0 g then [line] else [])
                 ++ F g)
       groups)
    (line :: flat_map F groups).
Proof.
  induction groups as [|g groups IH]; intros Hnd Hin; [contradiction|].
  inversion Hnd as [|? ? Hnotin Hnd']; subst. simpl.
  destruct (PullRequestStatusGroup.eqb g0 g) eqn:E.
  - apply group_eqb_eq in E. subst g. simpl. constructor.
    apply Permutation_app_head.
    assert (flat_map
              (fun g => (if PullRequestStatusGroup.eqb g0 g then [line]
                         else []) ++ F g) groups
            = flat_map F groups) as ->; [|reflexivity].
    apply flat_map_ext_on. intros g Hg.
    destruct (PullRequestStatusGroup.eqb g0 g) eqn:E; [|reflexivity].
    apply group_eqb_eq in E. subst. contradiction.
  - destruct Hin as [->|Hin].
    + rewrite (proj2 (group_eqb_eq g0 g0) eq_refl) in E. discriminate.
    + simpl. rewrite (IH Hnd' Hin). apply Permutation_sym, Permutation_middle.
Qed.

Lemma lines_by_group_perm (entries : list (group_key * string)) :
  (forall e, In e entries -> exists g, fst e = Group g) ->
  Permutation
    (flat_map (fun g => lines_with (Group g) entries)
       pr_status_groups_display_order)
    (map snd entries).
Proof.
  induction entries as [|[k line] entries IH]; intros Hkeys.
  - unfold lines_with. simpl. reflexivity.
  - destruct (Hkeys (k, line) (or_introl eq_refl)) as [g0 Hk].
    simpl in Hk. subst k.
    assert (flat_map (fun g => lines_with (Group g) ((Group g0, line) :: entries))
              pr_status_groups_display_order
            = flat_map
                (fun g => (if PullRequestStatusGroup.eqb g0 g then [line]
                           else []) ++ lines_with (Group g) entries)
                pr_status_groups_display_order) as ->.
    { apply flat_map_ext. intros g. now rewrite lines_with_cons. }
    rewrite flat_map_one_more by apply display_order_complete.
    simpl. constructor. apply IH. intros e He. apply Hkeys. now right.
Qed.

Lemma flat_map_app_perm {A B : Type} (h l : A -> list B) (xs : list A) :
  Permutation (flat_map (fun x => h x ++ l x) xs)
    (flat_map h xs ++ flat_map l xs).
Proof.
  induction xs as [|x xs IH]; simpl; [reflexivity|].
  rewrite IH, <- !app_assoc. apply Permutation_app_head.
  rewrite !app_assoc. apply Permutation_app_tail, Permutation_app_comm.
Qed.

Lemma lines_with_default (entries : list (group_key * string)) :
  (forall e, In e entries -> fst e = Default) ->
  lines_with Default entries = map snd entries.
Proof.
  induction entries as [|e entries IH]; intros H; [reflexivity|].
  rewrite lines_with_cons, (H e (or_introl eq_refl)). simpl.
  f_equal. apply IH. intros e' He'. apply H. now right.
Qed.

(** The key of an entry follows the setting. *)
Lemma pull_entry_key environ owner pull key line :
  pull_entry environ owner pull = Ok (Some (key, line)) ->
  if SPLIT_BY_REVIEW_STATUS environ then exists g, key = Group g
  else key = Default.
Proof.
  unfold pull_entry.
  destruct (is_valid_title environ (PullRequest.title pull)); [|discriminate].
  destruct (SPLIT_BY_REVIEW_STATUS environ).
  - destruct (fetch_pull_request_review_status_group pull) as [g|e];
      [|discriminate]. cbn [bind].
    destruct (PullRequest.repository pull); [|discriminate].
    cbn [bind Py.attr_of]. intros [= <- _]. eauto.
  - cbn [bind]. destruct (PullRequest.repository pull); [|discriminate].
    cbn [bind Py.attr_of]. now intros [= <- _].
Qed.

Lemma pull_entries_keys environ owner pulls : forall entries e,
  pull_entries environ owner pulls = Ok entries -> In e entries ->
  if SPLIT_BY_REVIEW_STATUS environ then exists g, fst e = Group g
  else fst e = Default.
Proof.
  induction pulls as [|pull pulls IH]; intros entries e; simpl.
  - intros [= <-] [].
  - destruct (pull_entry environ owner pull) as [entry|x] eqn:Ep;
      [|discriminate]. cbn [bind].
    destruct (pull_entries environ owner pulls) as [es|x]; [|discriminate].
    cbn [bind]. intros [= <-].
    destruct entry as [[key line]|]; [|now apply IH].
    intros [<-|He]; [|now apply (IH es)].
    apply (pull_entry_key _ _ _ _ _ Ep).
Qed.

Lemma report_lines_of_entries
    (environ : string -> option string) (pulls : list PullRequest.t)
    (owner : string) (entries : list (group_key * string)) :
  pull_entries environ owner pulls = Ok entries ->
  exists lines,
    format_pull_requests environ pulls owner = Ok lines
    /\ if SPLIT_BY_REVIEW_STATUS environ
       then Permutation lines
              (flat_map (header_if_used environ entries)
                 pr_status_groups_display_order
               ++ map snd entries)
       else lines = map snd entries.
Proof.
  intros He. rewrite format_pull_requests_in_order, He. cbn [bind].
  eexists. split; [reflexivity|].
  pose proof (pull_entries_keys environ owner pulls entries) as Hkeys.
  destruct (SPLIT_BY_REVIEW_STATUS environ).
  - assert (flat_map
              (fun group =>
                 match lines_with (Group group) entries with
                 | [] => []
                 | l :: ls => pr_status_group_to_msg environ group :: l :: ls
                 end) pr_status_groups_display_order
            = flat_map
                (fun group => header_if_used environ entries group
                              ++ lines_with (Group group) entries)
                pr_status_groups_display_order) as ->.
    { apply flat_map_ext. intros g. unfold header_if_used.
      now destruct (lines_with (Group g) entries). }
    rewrite flat_map_app_perm. apply Permutation_app_head.
    apply lines_by_group_perm. intros e Hin. now apply Hkeys.
  - apply lines_with_default. intros e Hin. now apply Hkeys.
Qed.

(** X14. No line is lost or repeated.  With splitting on, the report is a
    rearrangement of the lines of the pull requests together with one
    header for each group that has a line; with splitting off it is the
    lines of the pull requests, in their order. *)
Theorem report_keeps_every_line
    (environ : string -> option string) (pulls : list PullRequest.t)
    (owner : string) (entries : list (group_key * string)) :
  pull_entries environ owner pulls = Ok entries ->
  exists lines,
    format_pull_requests environ pulls owner = Ok lines
    /\ if SPLIT_BY_REVIEW_STATUS environ
       then Permutation lines
              (flat_map (header_if_used environ entries)
                 pr_status_groups_display_order
               ++ map snd entries)
       else lines = map snd entries.
Proof.
  intros He. rewrite format_pull_requests_in_order, He. cbn [bind].
  eexists. split; [reflexivity|].
  pose proof (pull_entries_keys environ owner pulls entries) as Hkeys.
  destruct (SPLIT_BY_REVIEW_STATUS environ).
  - assert (flat_map
              (fun group =>
                 match lines_with (Group group) entries with
                 | [] => []
                 | l :: ls => pr_status_group_to_msg environ group :: l :: ls
                 end) pr_status_groups_display_order
            = flat_map
                (fun group => header_if_used environ entries group
                              ++ lines_with (Group group) entries)
                pr_status_groups_display_order) as ->.
    { apply flat_map_ext. intros g. unfold header_if_used.
      now destruct (lines_with (Group g) entries). }
    rewrite flat_map_app_perm. apply Permutation_app_head.
    apply lines_by_group_perm. intros e Hin. now apply Hkeys.
  - apply lines_with_default. intros e Hin. now apply Hkeys.
Qed.

Lemma report_keeps_every_line_witness :
  exists lines,
    format_pull_requests env_default_settings
      [ pull_of_alice [ Review.mk bob "APPROVED" 10 ] []; pull_of_alice [] [] ]
      "acme"
    = Ok lines
    /\ Permutation lines
         [ ":eyetwitch: _Needs Review_"%string;
           ":heart_eyes: _Approved_"%string;
           "*       [acme/api]* <https://github.com/acme/api/pull/7|Add retries - by alice>"%string;
           "*       [acme/api]* <https://github.com/acme/api/pull/7|Add retries - by alice>"%string
         ].
Proof.
  apply (report_keeps_every_line env_default_settings
           [ pull_of_alice [ Review.mk bob "APPROVED" 10 ] [];
             pull_of_alice [] [] ]
           "acme"
           [ (Group PullRequestStatusGroup.approved,
              "*       [acme/api]* <https://github.com/acme/api/pull/7|Add retries - by alice>"%string);
             (Group PullRequestStatusGroup.unreviewed,
              "*       [acme/api]* <https://github.com/acme/api/pull/7|Add retries - by alice>"%string)
           ]).
  reflexivity.
Defined.

Lemma pull_entries_filter_valid environ owner pulls :
  pull_entries environ owner
    (filter (fun pull => is_valid_title environ (PullRequest.title pull))
       pulls)
  = pull_entries environ owner pulls.
Proof.
  induction pulls as [|pull pulls IH]; cbn [filter pull_entries];
    [reflexivity|].
  destruct (is_valid_title environ (PullRequest.title pull)) eqn:Hv.
  - cbn [pull_entries]. now rewrite IH.
  - rewrite IH.
    assert (pull_entry environ owner pull = Ok None) as ->
      by (unfold pull_entry; now rewrite Hv).
    cbn [bind]. now destruct (pull_entries environ owner pulls).
Qed.

(** X15. Pull requests with a rejected title have no influence on the
    report: they add no line and cannot make it fail. *)
Theorem rejected_titles_have_no_influence
    (environ : string -> option string) (pulls : list PullRequest.t)
    (owner : string) :
  format_pull_requests environ
    (filter (fun pull => is_valid_title environ (PullRequest.title pull))
       pulls)
    owner
  = format_pull_requests environ pulls owner.
Proof.
  rewrite !format_pull_requests_in_order.
  now rewrite pull_entries_filter_valid.
Qed.

Lemma pull_entry_raise_inv environ owner pull e :
  pull_entry environ owner pull = Raise e ->
  is_valid_title environ (PullRequest.title pull) = true
  /\ ((e = IndexError /\ SPLIT_BY_REVIEW_STATUS environ = true
       /\ PullRequest.commits pull = []
       /\ Exists
            (fun r => Review.state r
                      = PullRequestReviewState.CHANGES_REQUESTED)
            (last_reviews pull))
      \/ (e = AttributeError /\ PullRequest.repository pull = None)).
Proof.
  unfold pull_entry.
  destruct (is_valid_title environ (PullRequest.title pull)); [|discriminate].
  intros H. split; [reflexivity|].
  destruct (SPLIT_BY_REVIEW_STATUS environ).
  - destruct (fetch_pull_request_review_status_group pull) as [g|x] eqn:Eg.
    + cbn [bind] in H. right.
      destruct (PullRequest.repository pull); [discriminate|].
      cbn [bind Py.attr_of] in H. injection H as <-. auto.
    + cbn [bind] in H. injection H as <-. left.
      apply classify_raise_inv in Eg. tauto.
  - cbn [bind] in H. right.
    destruct (PullRequest.repository pull); [discriminate|].
    cbn [bind Py.attr_of] in H. injection H as <-. auto.
Qed.

Lemma pull_entries_raise_inv environ owner pulls e :
  pull_entries environ owner pulls = Raise e ->
  exists pull, In pull pulls /\ pull_entry environ owner pull = Raise e.
Proof.
  induction pulls as [|pull pulls IH]; simpl; [discriminate|].
  destruct (pull_entry environ owner pull) as [entry|x] eqn:Ep.
  - cbn [bind].
    destruct (pull_entries environ owner pulls) as [es|x]; [discriminate|].
    cbn [bind]. intros [= <-]. destruct (IH eq_refl) as (p & Hp & Hr).
    eauto.
  - cbn [bind]. intros [= <-]. eauto.
Qed.

Lemma pull_entries_app environ owner l1 l2 :
  pull_entries environ owner (l1 ++ l2)
  = es1 <- pull_entries environ owner l1 ;;
    es2 <- pull_entries environ owner l2 ;;
    Ok (es1 ++ es2).
Proof.
  induction l1 as [|pull l1 IH]; simpl.
  - now destruct (pull_entries environ owner l2).
  - destruct (pull_entry environ owner pull) as [entry|x]; [|reflexivity].
    cbn [bind]. rewrite IH.
    destruct (pull_entries environ owner l1) as [es1|x]; [|reflexivity].
    cbn [bind].
    destruct (pull_entries environ owner l2) as [es2|x]; [|reflexivity].
    cbn [bind]. now destruct entry.
Qed.

Lemma without_ignored_empty ignored :
  without_ignored ignored (@Dict.empty string Status.t) = Dict.empty.
Proof. induction ignored as [|c ignored IH]; [reflexivity | exact IH]. Qed.

(** ** Listing the pull requests *)

Lemma keep_pull_spec environ pulls pull :
  keep_pull environ pulls pull
  = pulls ++ (if is_listed environ pull then [pull] else []).
Proof.
  unfold keep_pull, is_listed.
  destruct (String.eqb (ListedPull.state pull) "open"
            && (negb (nonempty (USERNAMES environ))
                || in_list
                     (Str.lower
                        (User.login (PullRequest.user (ListedPull.pull pull))))
                     (USERNAMES environ)));
    [reflexivity | now rewrite app_nil_r].
Qed.

Lemma fold_keep_pull environ listed : forall pulls,
  fold_left (keep_pull environ) listed pulls
  = pulls ++ filter (is_listed environ) listed.
Proof.
  induction listed as [|p listed IH]; intros pulls; simpl.
  - now rewrite app_nil_r.
  - rewrite IH, keep_pull_spec, <- app_assoc.
    now destruct (is_listed environ p).
Qed.

Lemma fetch_repository_pulls_filter environ repository :
  fetch_repository_pulls environ repository
  = filter (is_listed environ) (OrgRepository.pull_requests repository).
Proof. unfold fetch_repository_pulls. now rewrite fold_keep_pull. Qed.

Lemma nonempty_false {A : Type} (l : list A) : nonempty l = false <-> l = [].
Proof. destruct l; simpl; split; congruence. Qed.

Lemma is_listed_iff environ pull :
  is_listed environ pull = true
  <-> ListedPull.state pull = "open"%string
      /\ (USERNAMES environ = []
          \/ In (Str.lower
                   (User.login (PullRequest.user (ListedPull.pull pull))))
               (USERNAMES environ)).
Proof.
  unfold is_listed.
  rewrite andb_true_iff, orb_true_iff, negb_true_iff, String.eqb_eq,
    nonempty_false, in_list_iff.
  reflexivity.
Qed.

(** X18. [fetch_repository_pulls] returns, in the order of the listing
    and without leaving any out, the pull requests that are open and, when
    USERNAMES has entries, whose lower-cased login is one of them. *)
Theorem fetch_repository_pulls_selects
    (environ : string -> option string) (repository : OrgRepository.t) :
  fetch_repository_pulls environ repository
  = filter (is_listed environ) (OrgRepository.pull_requests repository)
  /\ forall pull,
       In pull (fetch_repository_pulls environ repository)
       <-> In pull (OrgRepository.pull_requests repository)
           /\ ListedPull.state pull = "open"%string
           /\ (USERNAMES environ = []
               \/ In (Str.lower
                        (User.login
                           (PullRequest.user (ListedPull.pull pull))))
                    (USERNAMES environ)).
Proof.
  split; [apply fetch_repository_pulls_filter|].
  intros pull. rewrite fetch_repository_pulls_filter, filter_In, is_listed_iff.
  reflexivity.
Qed.

Lemma eqb_comma_lower (c : ascii) :
  Ascii.eqb (Str.lower_ascii c) "," = Ascii.eqb c ",".
Proof. destruct c as [[] [] [] [] [] [] [] []]; reflexivity. Qed.

Lemma split_lower (s : string) :
  Str.split "," (Str.lower s) = map Str.lower (Str.split "," s).
Proof.
  induction s as [|c s IH]; simpl; [reflexivity|].
  rewrite eqb_comma_lower, IH.
  destruct (Ascii.eqb c ","); [reflexivity|].
  now destruct (Str.split "," s).
Qed.

(** The list read from a value depends on the value up to case. *)
Lemma env_list_case (s : string) :
  env_list (Some s) = env_list (Some (Str.lower s)).
Proof.
  unfold env_list.
  assert (Str.truthy (Str.lower s) = Str.truthy s) as -> by now destruct s.
  destruct (Str.truthy s); [|reflexivity].
  rewrite split_lower, map_map. apply map_ext. intros i.
  now rewrite lower_idem.
Qed.

Lemma env_list_same_case (v v' : option string) :
  option_map Str.lower v = option_map Str.lower v' ->
  env_list v = env_list v'.
Proof.
  destruct v as [s|], v' as [s'|]; cbn [option_map]; try discriminate;
    [|reflexivity].
  intros [= E]. now rewrite (env_list_case s), (env_list_case s'), E.
Qed.

(** X19. The selection by author does not depend on letter case: two
    values of USERNAMES that differ only in case select the same pull
    requests, and a login is compared in lower case. *)
Theorem author_selection_ignores_case
    (environ environ' : string -> option string)
    (repository : OrgRepository.t) :
  option_map Str.lower (environ "USERNAMES"%string)
  = option_map Str.lower (environ' "USERNAMES"%string) ->
  fetch_repository_pulls environ repository
  = fetch_repository_pulls environ' repository.
Proof.
  intros H. rewrite !fetch_repository_pulls_filter.
  apply filter_ext. intros pull. unfold is_listed, USERNAMES.
  now rewrite (env_list_same_case _ _ H).
Qed.

Lemma author_selection_ignores_case_witness :
  fetch_repository_pulls (env_setting "USERNAMES" "Alice, BOB")
    (OrgRepository.mk "api"
       [ ListedPull.mk "open" (pull_of_alice [] []);
         ListedPull.mk "closed" (pull_of_alice [] []) ])
  = fetch_repository_pulls (env_setting "USERNAMES" "alice, bob")
      (OrgRepository.mk "api"
         [ ListedPull.mk "open" (pull_of_alice [] []);
           ListedPull.mk "closed" (pull_of_alice [] []) ]).
Proof.
  apply author_selection_ignores_case. reflexivity.
Defined.

Lemma extend_prs_spec environ prs repository :
  extend_prs environ prs repository
  = prs ++ (if is_selected environ repository
            then fetch_repository_pulls environ repository else []).
Proof.
  unfold extend_prs, is_selected.
  destruct (nonempty (REPOSITORIES environ)
            && negb (in_list (Str.lower (OrgRepository.name repository))
                       (REPOSITORIES environ)));
    [now rewrite app_nil_r | reflexivity].
Qed.

Lemma fold_extend_prs environ organization : forall prs,
  fold_left (extend_prs environ) organization prs
  = prs ++ flat_map (fetch_repository_pulls environ)
             (filter (is_selected environ) organization).
Proof.
  induction organization as [|r organization IH]; intros prs; simpl.
  - now rewrite app_nil_r.
  - rewrite IH, extend_prs_spec, <- app_assoc.
    destruct (is_selected environ r); simpl; [reflexivity|].
    reflexivity.
Qed.

Lemma organization_prs_spec environ organization :
  organization_prs environ organization
  = flat_map (fetch_repository_pulls environ)
      (filter (is_selected environ) organization).
Proof. unfold organization_prs. now rewrite fold_extend_prs. Qed.

Lemma fetch_repository_pulls_open_only environ repository :
  fetch_repository_pulls environ (open_only repository)
  = fetch_repository_pulls environ repository.
Proof.
  rewrite !fetch_repository_pulls_filter. unfold open_only. simpl.
  rewrite filter_filter. apply filter_ext. intros p. unfold is_listed.
  now destruct (String.eqb (ListedPull.state p) "open").
Qed.

Lemma filter_map_commute {A : Type} (f : A -> bool) (g : A -> A)
    (l : list A) :
  (forall x, f (g x) = f x) -> filter f (map g l) = map g (filter f l).
Proof.
  intros H. induction l as [|x l IH]; simpl; [reflexivity|].
  rewrite H. destruct (f x); simpl; now rewrite IH.
Qed.

Lemma flat_map_map {A B C : Type} (f : B -> list C) (g : A -> B)
    (l : list A) :
  flat_map f (map g l) = flat_map (fun x => f (g x)) l.
Proof.
  induction l as [|x l IH]; simpl; [reflexivity | now rewrite IH].
Qed.

Lemma organization_prs_open_selected environ organization :
  organization_prs environ
    (map open_only (filter (is_selected environ) organization))
  = organization_prs environ organization.
Proof.
  rewrite !organization_prs_spec.
  rewrite filter_map_commute by reflexivity.
  rewrite filter_filter, flat_map_map.
  assert (filter (fun x => is_selected environ x && is_selected environ x)
            organization
          = filter (is_selected environ) organization) as ->.
  { apply filter_ext. intros r. now destruct (is_selected environ r). }
  apply flat_map_ext. intros r. apply fetch_repository_pulls_open_only.
Qed.

(** X20. The pull requests of the report are those of the selected
    repositories, repository after repository, each selected as by
    [fetch_repository_pulls]; all of them are open; pull requests that are
    not open and repositories outside REPOSITORIES have no influence on
    the report. *)
Theorem unlisted_pulls_have_no_influence
    (environ : string -> option string)
    (organization : list OrgRepository.t) (organization_name : string) :
  organization_prs environ organization
  = flat_map (fetch_repository_pulls environ)
      (filter (is_selected environ) organization)
  /\ (forall pull, In pull (organization_prs environ organization) ->
                   ListedPull.state pull = "open"%string)
  /\ fetch_organization_pulls environ
       (map open_only (filter (is_selected environ) organization))
       organization_name
     = fetch_organization_pulls environ organization organization_name.
Proof.
  split; [apply organization_prs_spec|]. split.
  - intros pull. rewrite organization_prs_spec, in_flat_map.
    intros (r & _ & Hin).
    rewrite fetch_repository_pulls_filter in Hin.
    apply filter_In in Hin as [_ Hl]. now apply is_listed_iff in Hl.
  - unfold fetch_organization_pulls.
    now rewrite organization_prs_open_selected.
Qed.

(** ** Sending the report *)

Lemma format_empty_iff environ pulls owner :
  format_pull_requests environ pulls owner = Ok []
  <-> pull_entries environ owner pulls = Ok [].
Proof.
  split.
  - intros H.
    destruct (pull_entries environ owner pulls) as [entries|e] eqn:Ep.
    + destruct (report_lines_of_entries _ _ _ _ Ep) as (lines & Hl & Hp).
      rewrite H in Hl. injection Hl as <-.
      assert (map snd entries = []) as Hnil.
      { destruct (SPLIT_BY_REVIEW_STATUS environ); [|now symmetry].
        apply Permutation_nil in Hp. now apply app_eq_nil in Hp. }
      now destruct entries.
    + rewrite format_pull_requests_in_order, Ep in H. discriminate.
  - intros H. rewrite format_pull_requests_in_order, H. cbn [bind].
    now destruct (SPLIT_BY_REVIEW_STATUS environ).
Qed.

Lemma send_to_slack_cases environ token post text :
  let payload :=
    Payload.mk token (SLACK_CHANNEL environ) "Pull Request Reminder" ":bell:"
      text in
  send_to_slack environ token post text
  = if Answer.ok (post payload) then Posted payload
    else Refused payload (Answer.error (post payload)).
Proof.
  cbn zeta. unfold send_to_slack.
  now destruct (Answer.ok (post _)).
Qed.

Lemma cli_never_exits environ token organization name post message :
  cli environ token organization name post <> Exited message.
Proof.
  unfold cli.
  destruct (fetch_organization_pulls environ organization name)
    as [lines|e]; [|discriminate].
  destruct (nonempty lines); [|discriminate].
  rewrite send_to_slack_cases. cbn zeta.
  now destruct (Answer.ok (post _)).
Qed.

(** X21. A run of [cli] sends nothing exactly when no pull request gives
    a line; it ends with an exception of the report exactly when the
    report raises it; and when it sends, it sends one request, to the
    configured channel, whose text is the initial message followed by the
    lines of the report joined by line breaks. *)
Theorem cli_outcomes
    (environ : string -> option string) (token : string)
    (organization : list OrgRepository.t) (name : string)
    (post : Payload.t -> Answer.t) :
  (cli environ token organization name post = Silent
   <-> pull_entries environ name
         (map ListedPull.pull (organization_prs environ organization))
       = Ok [])
  /\ (forall e,
         cli environ token organization name post = Aborted e
         <-> fetch_organization_pulls environ organization name = Raise e)
  /\ (forall payload,
         (cli environ token organization name post = Posted payload
          \/ exists error,
               cli environ token organization name post
               = Refused payload error) ->
         exists lines,
           fetch_organization_pulls environ organization name = Ok lines
           /\ lines <> []
           /\ payload
              = Payload.mk token (SLACK_CHANNEL environ)
                  "Pull Request Reminder" ":bell:"
                  (String.append INITIAL_MESSAGE
                     (String.concat newline lines))).
Proof.
  unfold cli. rewrite <- format_empty_iff.
  change (format_pull_requests environ
            (map ListedPull.pull (organization_prs environ organization)) name)
    with (fetch_organization_pulls environ organization name).
  destruct (fetch_organization_pulls environ organization name)
    as [lines|x].
  - destruct lines as [|l ls]; cbn [nonempty].
    + split; [tauto|]. split.
      * intros e. split; discriminate.
      * intros payload [H|[error H]]; discriminate.
    + rewrite send_to_slack_cases. cbn zeta.
      destruct (Answer.ok (post _)).
      * split; [split; discriminate|]. split.
        -- intros e. split; discriminate.
        -- intros payload [H|[error H]]; [|discriminate].
           injection H as <-. exists (l :: ls).
           repeat split. discriminate.
      * split; [split; discriminate|]. split.
        -- intros e. split; discriminate.
        -- intros payload [H|[error H]]; [discriminate|].
           injection H as <- _. exists (l :: ls).
           repeat split. discriminate.
  - split; [split; discriminate|]. split.
    + intros e. split; intros [= <-]; reflexivity.
    + intros payload [H|[error H]]; discriminate.
Qed.

(** X22. The script ends at start-up exactly when one of
    SLACK_API_TOKEN, GITHUB_API_TOKEN and ORGANIZATION is not set, with
    the message for the first of them, in this order, that is not set;
    a variable set to the empty string is set.  With the three set it
    runs [cli]. *)
Theorem script_requires_three_variables
    (environ : string -> option string)
    (github : string -> string -> list OrgRepository.t)
    (post : Payload.t -> Answer.t) :
  (forall message,
      script environ github post = Exited message
      <-> (environ "SLACK_API_TOKEN"%string = None
           /\ message = missing_variable "SLACK_API_TOKEN")
          \/ (environ "SLACK_API_TOKEN"%string <> None
              /\ environ "GITHUB_API_TOKEN"%string = None
              /\ message = missing_variable "GITHUB_API_TOKEN")
          \/ (environ "SLACK_API_TOKEN"%string <> None
              /\ environ "GITHUB_API_TOKEN"%string <> None
              /\ environ "ORGANIZATION"%string = None
              /\ message = missing_variable "ORGANIZATION"))
  /\ forall slack_token github_token organization,
       environ "SLACK_API_TOKEN"%string = Some slack_token ->
       environ "GITHUB_API_TOKEN"%string = Some github_token ->
       environ "ORGANIZATION"%string = Some organization ->
       script environ github post
       = cli environ slack_token (github github_token organization)
           organization post.
Proof.
  unfold script. split.
  - intros message.
    destruct (environ "SLACK_API_TOKEN"%string) as [t|].
    2: { split.
         - intros [= <-]. left. auto.
         - intros [[_ ->]|[(H & _)|(H & _)]]; [reflexivity | |];
             now destruct H. }
    destruct (environ "GITHUB_API_TOKEN"%string) as [g|].
    2: { split.
         - intros [= <-]. right. left. repeat split. discriminate.
         - intros [[H _]|[(_ & _ & ->)|(_ & H & _)]];
             [discriminate | reflexivity | now destruct H]. }
    destruct (environ "ORGANIZATION"%string) as [o|].
    2: { split.
         - intros [= <-]. right. right. repeat split; discriminate.
         - intros [[H _]|[(_ & H & _)|(_ & _ & _ & ->)]];
             [discriminate | discriminate | reflexivity]. }
    split.
    + intros H. now apply cli_never_exits in H.
    + intros [[H _]|[(_ & H & _)|(_ & _ & H & _)]]; discriminate.
  - intros t g o -> -> ->. reflexivity.
Qed.

(** X23. A setting with default True is off only when its variable is set
    to the empty string: any other value, such as "false" or "0", leaves
    it on, as does an unset variable. *)
Theorem flags_are_off_only_when_empty (environ : string -> option string) :
  (SPLIT_BY_REVIEW_STATUS environ = false
   <-> environ "SPLIT_BY_REVIEW_STATUS"%string = Some EmptyString)
  /\ (SHOW_BUILD_STATUS environ = false
      <-> environ "SHOW_BUILD_STATUS"%string = Some EmptyString).
Proof.
  unfold SPLIT_BY_REVIEW_STATUS, SHOW_BUILD_STATUS, env_flag.
  split.
  - destruct (environ "SPLIT_BY_REVIEW_STATUS"%string) as [[|c s]|];
      simpl; split; congruence.
  - destruct (environ "SHOW_BUILD_STATUS"%string) as [[|c s]|];
      simpl; split; congruence.
Qed.

(** * Reviews as delivered: the classifier when a submission time can be
      absent *)

(** ** Agreement with the classifier over dated reviews *)

Lemma delivered_review_injective (a b : Review.t) :
  delivered_review a = delivered_review b -> a = b.
Proof.
  destruct a, b. unfold delivered_review. simpl. now intros [= -> -> ->].
Qed.

Lemma filter_map_swap {A B : Type} (f : B -> bool) (g : A -> B)
    (l : list A) :
  filter f (map g l) = map g (filter (fun x => f (g x)) l).
Proof.
  induction l as [|x l IH]; simpl; [reflexivity|].
  destruct (f (g x)); simpl; now rewrite IH.
Qed.

Lemma insert_desc_delivered (x : Review.t) (l : list Review.t) :
  Api.insert_desc ApiReview.submitted_at (delivered_review x)
    (map delivered_review l)
  = Ok (map delivered_review (Py.insert_desc Review.submitted_at x l)).
Proof.
  induction l as [|y l IH]; [reflexivity|].
  cbn [map Api.insert_desc Py.insert_desc delivered_review
       ApiReview.submitted_at Api.later bind].
  destruct (Review.submitted_at x <? Review.submitted_at y); [|reflexivity].
  change (ApiReview.mk (Review.user x) (Review.state x)
            (Some (Review.submitted_at x))) with (delivered_review x).
  now rewrite IH.
Qed.

Lemma sorted_desc_delivered (l : list Review.t) :
  Api.sorted_desc ApiReview.submitted_at (map delivered_review l)
  = Ok (map delivered_review (Py.sorted_desc Review.submitted_at l)).
Proof.
  induction l as [|x l IH]; [reflexivity|].
  cbn [map Api.sorted_desc]. rewrite IH. cbn [bind].
  apply insert_desc_delivered.
Qed.

Lemma keep_last_reviews_delivered (l : list Review.t) : forall users acc,
  Api.keep_last_reviews (map delivered_review l) users
    (map delivered_review acc)
  = map delivered_review (keep_last_reviews l users acc).
Proof.
  induction l as [|x l IH]; intros users acc; [reflexivity|].
  cbn [map Api.keep_last_reviews keep_last_reviews].
  change (ApiReview.user (delivered_review x)) with (Review.user x).
  destruct (existsb (User.eqb (Review.user x)) users); [apply IH|].
  rewrite <- IH, map_app. reflexivity.
Qed.

Lemma candidate_reviews_delivered (pr : PullRequest.t) :
  Api.candidate_reviews (delivered pr)
  = Ok (map delivered_review (candidate_reviews pr)).
Proof.
  unfold Api.candidate_reviews, candidate_reviews.
  cbn [delivered ApiPullRequest.reviews ApiPullRequest.user].
  rewrite sorted_desc_delivered. cbn [bind].
  now rewrite !filter_map_swap.
Qed.

Lemma last_reviews_delivered (pr : PullRequest.t) :
  Api.last_reviews (delivered pr)
  = Ok (map delivered_review (last_reviews pr)).
Proof.
  unfold Api.last_reviews, last_reviews.
  rewrite candidate_reviews_delivered. cbn [bind].
  f_equal. apply (keep_last_reviews_delivered _ [] []).
Qed.

Lemma note_review_delivered (flags : bool * bool) (r : Review.t) :
  Api.note_review flags (delivered_review r) = note_review flags r.
Proof. reflexivity. Qed.

Lemma review_flags_delivered (l : list Review.t) :
  Api.review_flags (map delivered_review l) = review_flags l.
Proof.
  unfold Api.review_flags, review_flags. generalize (false, false).
  induction l as [|x l IH]; intros flags; [reflexivity|].
  cbn [map fold_left]. now rewrite note_review_delivered, IH.
Qed.

(** On a pull request all of whose reviews have a submission time, the
    classifier over delivered reviews is the classifier over dated
    reviews. *)
Lemma classify_delivered (pr : PullRequest.t) :
  Api.fetch_pull_request_review_status_group (delivered pr)
  = fetch_pull_request_review_status_group pr.
Proof.
  unfold Api.fetch_pull_request_review_status_group,
    fetch_pull_request_review_status_group, fetch_better_commits.
  rewrite last_reviews_delivered. cbn [bind].
  rewrite review_flags_delivered.
  destruct (review_flags (last_reviews pr)) as [changes_requested approved].
  destruct changes_requested; [|reflexivity].
  cbn [delivered ApiPullRequest.commits].
  destruct (Py.first (Py.sorted_desc Commit.commit_date
                        (PullRequest.commits pr))) as [c0|e];
    [|reflexivity].
  cbn [bind].
  destruct (last_reviews pr) as [|r0 rs]; reflexivity.
Qed.

Lemma all_dated_delivered (l : list ApiReview.t) :
  Forall dated l -> exists l', l = map delivered_review l'.
Proof.
  induction 1 as [|x l Hx _ [l' ->]].
  - now exists [].
  - destruct x as [u s [t|]]; [|now destruct Hx].
    now exists (Review.mk u s t :: l').
Qed.

Lemma dated_pull_delivered (pr : ApiPullRequest.t) :
  Forall dated (ApiPullRequest.reviews pr) -> exists pr', pr = delivered pr'.
Proof.
  intros H. apply all_dated_delivered in H as [l' Hl].
  destruct pr as [t u a r s rs cs]. simpl in Hl. subst rs.
  now exists (PullRequest.mk t u a r s l' cs).
Qed.

Lemma delivered_dated (l : list Review.t) :
  Forall dated (map delivered_review l).
Proof.
  apply Forall_forall. intros x Hx.
  apply in_map_iff in Hx as (r & <- & _). discriminate.
Qed.

(** ** When the sort raises *)

Section CheckedSort.
Context {A : Type}.
Variable key : A -> option Z.

Lemma insert_desc_ok (x : A) (l : list A) :
  key x <> None -> Forall (fun y => key y <> None) l ->
  exists l', Api.insert_desc key x l = Ok l'
             /\ List.length l' = S (List.length l)
             /\ Forall (fun y => key y <> None) l'.
Proof.
  intros Hx. induction 1 as [|y l Hy Hl IH].
  - exists [x]. repeat split. now constructor.
  - cbn [Api.insert_desc].
    destruct (key x) as [tx|] eqn:Ex; [|contradiction].
    destruct (key y) as [ty|] eqn:Ey; [|contradiction].
    cbn [Api.later bind]. destruct (tx <? ty).
    + destruct IH as (l' & -> & Hlen & Hall). cbn [bind].
      exists (y :: l'). repeat split.
      * simpl. now rewrite Hlen.
      * constructor; [congruence | assumption].
    + exists (x :: y :: l). repeat split.
      constructor; [congruence|]. constructor; [congruence | assumption].
Qed.

Lemma sorted_desc_ok (l : list A) :
  Forall (fun y => key y <> None) l ->
  exists l', Api.sorted_desc key l = Ok l'
             /\ List.length l' = List.length l
             /\ Forall (fun y => key y <> None) l'.
Proof.
  induction 1 as [|x l Hx Hl IH].
  - exists []. repeat split. constructor.
  - destruct IH as (s & Hs & Hlen & Hall). cbn [Api.sorted_desc].
    rewrite Hs. cbn [bind].
    destruct (insert_desc_ok x s Hx Hall) as (l' & -> & Hlen' & Hall').
    exists l'. repeat split; [|assumption]. simpl. congruence.
Qed.

(** Inserting next to an item raises when one of the two has no key. *)
Lemma insert_desc_none (x y : A) (l : list A) :
  key x = None \/ key y = None ->
  Api.insert_desc key x (y :: l) = Raise TypeError.
Proof.
  intros H. cbn [Api.insert_desc].
  destruct (key y) as [ty|], (key x) as [tx|]; try reflexivity.
  destruct H; discriminate.
Qed.

Lemma dated_or_not (l : list A) :
  Forall (fun y => key y <> None) l \/ Exists (fun y => key y = None) l.
Proof.
  induction l as [|x l [IH|IH]].
  - left. constructor.
  - destruct (key x) eqn:E.
    + left. constructor; [congruence | assumption].
    + right. now constructor.
  - right. now constructor 2.
Qed.

(** A list of two or more items with an absent key cannot be sorted. *)
Lemma sorted_desc_raises (l : list A) :
  (2 <= List.length l)%nat -> Exists (fun y => key y = None) l ->
  Api.sorted_desc key l = Raise TypeError.
Proof.
  induction l as [|x l IH]; intros Hlen Hex; [inversion Hex|].
  cbn [Api.sorted_desc].
  destruct l as [|y l]; [simpl in Hlen; lia|].
  destruct (dated_or_not (y :: l)) as [Hall|Hnone].
  - destruct (sorted_desc_ok _ Hall) as (s & -> & Hl & Hs). cbn [bind].
    destruct s as [|z s]; [discriminate|].
    apply insert_desc_none. left.
    inversion Hex as [? ? Hx|? ? Hrest]; subst; [assumption|].
    exfalso. rewrite Forall_forall in Hall.
    apply Exists_exists in Hrest as (w & Hw & Hn). now apply (Hall w).
  - destruct l as [|z l].
    + cbn [Api.sorted_desc bind Api.insert_desc].
      inversion Hnone as [? ? Hy|? ? Hrest]; subst; [|inversion Hrest].
      rewrite Hy. reflexivity.
    + rewrite IH; [reflexivity | simpl; lia | assumption].
Qed.

End CheckedSort.

Lemma reviews_shape (l : list ApiReview.t) :
  Forall dated l
  \/ (exists r, l = [r] /\ undated r)
  \/ ((2 <= List.length l)%nat /\ Exists undated l).
Proof.
  destruct (dated_or_not ApiReview.submitted_at l) as [H|H]; [now left|].
  right. destruct l as [|r [|r' l]].
  - inversion H.
  - left. exists r. split; [reflexivity|].
    inversion H as [? ? Hr|? ? Hrest]; subst; [assumption | inversion Hrest].
  - right. split; [simpl; lia | assumption].
Qed.

Lemma dated_not_undated (l : list ApiReview.t) :
  Forall dated l -> Exists undated l -> False.
Proof.
  intros Hall Hex. rewrite Forall_forall in Hall.
  apply Exists_exists in Hex as (r & Hr & Hn). now apply (Hall r).
Qed.

(** ** The exceptions of the classifier *)

Lemma api_classify_many_undated (pr : ApiPullRequest.t) :
  (2 <= List.length (ApiPullRequest.reviews pr))%nat ->
  Exists undated (ApiPullRequest.reviews pr) ->
  Api.fetch_pull_request_review_status_group pr = Raise TypeError.
Proof.
  intros Hlen Hex.
  unfold Api.fetch_pull_request_review_status_group, Api.last_reviews,
    Api.candidate_reviews.
  now rewrite (sorted_desc_raises ApiReview.submitted_at _ Hlen Hex).
Qed.

(** A single review is not compared by the sort; without a submission
    time it is compared only with the newest commit, when it requests
    changes. *)
Lemma api_classify_single_undated (pr : ApiPullRequest.t) (r : ApiReview.t) :
  ApiPullRequest.reviews pr = [r] -> undated r ->
  Api.fetch_pull_request_review_status_group pr
  = if api_counts_for pr r then
      if String.eqb (ApiReview.state r)
           PullRequestReviewState.CHANGES_REQUESTED
      then match ApiPullRequest.commits pr with
           | [] => Raise IndexError
           | _ :: _ => Raise TypeError
           end
      else if String.eqb (ApiReview.state r) PullRequestReviewState.APPROVED
      then Ok PullRequestStatusGroup.approved
      else Ok PullRequestStatusGroup.unreviewed
    else Ok PullRequestStatusGroup.unreviewed.
Proof.
  intros Hr Hu.
  unfold Api.fetch_pull_request_review_status_group, Api.last_reviews,
    Api.candidate_reviews, api_counts_for.
  rewrite Hr. cbn [Api.sorted_desc Api.insert_desc bind filter].
  destruct (negb (User.eqb (ApiReview.user r) (ApiPullRequest.user pr)));
    cbn [andb filter]; [|reflexivity].
  destruct (negb (String.eqb (ApiReview.state r)
                    PullRequestReviewState.COMMENTED));
    cbn [filter]; [|reflexivity].
  cbn [Api.keep_last_reviews existsb app Api.review_flags fold_left
       Api.note_review].
  destruct (String.eqb (ApiReview.state r)
              PullRequestReviewState.CHANGES_REQUESTED).
  - pose proof (sorted_desc_nil Commit.commit_date
                  (ApiPullRequest.commits pr)) as Hnil.
    destruct (Py.sorted_desc Commit.commit_date (ApiPullRequest.commits pr))
      as [|c0 cs] eqn:Ec.
    + rewrite (Hnil eq_refl). reflexivity.
    + cbn [Py.first bind]. rewrite Hu. cbn [Api.later bind].
      destruct (ApiPullRequest.commits pr); [discriminate | reflexivity].
  - now destruct (String.eqb (ApiReview.state r)
                    PullRequestReviewState.APPROVED).
Qed.

Lemma api_classify_raise_inv (pr : ApiPullRequest.t) (e : exn) :
  Api.fetch_pull_request_review_status_group pr = Raise e ->
  (e = IndexError
   /\ ApiPullRequest.commits pr = []
   /\ Exists
        (fun r => ApiReview.state r = PullRequestReviewState.CHANGES_REQUESTED
                  /\ User.eqb (ApiReview.user r) (ApiPullRequest.user pr)
                     = false)
        (ApiPullRequest.reviews pr))
  \/ (e = TypeError
      /\ (((2 <= List.length (ApiPullRequest.reviews pr))%nat
           /\ Exists undated (ApiPullRequest.reviews pr))
          \/ exists r,
               ApiPullRequest.reviews pr = [r] /\ undated r
               /\ User.eqb (ApiReview.user r) (ApiPullRequest.user pr) = false
               /\ ApiReview.state r
                  = PullRequestReviewState.CHANGES_REQUESTED
               /\ ApiPullRequest.commits pr <> [])).
Proof.
  destruct (reviews_shape (ApiPullRequest.reviews pr))
    as [Hd|[(r & Hr & Hu)|[Hlen Hex]]].
  - destruct (dated_pull_delivered pr Hd) as [pr' ->].
    rewrite classify_delivered. intros H.
    apply classify_raise_inv in H as (-> & Hc & Hcr). left.
    split; [reflexivity|]. split; [assumption|].
    apply Exists_exists in Hcr as (r & Hin & Hs).
    apply last_reviews_candidate in Hin as (Hin & Hself & _).
    apply Exists_exists. exists (delivered_review r).
    split; [now apply in_map | auto].
  - rewrite (api_classify_single_undated pr r Hr Hu).
    unfold api_counts_for.
    destruct (User.eqb (ApiReview.user r) (ApiPullRequest.user pr)) eqn:Es;
      cbn [negb andb]; [discriminate|].
    destruct (negb (String.eqb (ApiReview.state r)
                      PullRequestReviewState.COMMENTED));
      [|discriminate].
    destruct (String.eqb_spec (ApiReview.state r)
                PullRequestReviewState.CHANGES_REQUESTED) as [Hs|_].
    + destruct (ApiPullRequest.commits pr) as [|c cs] eqn:Ec;
        intros [= <-].
      * left. split; [reflexivity|]. split; [reflexivity|].
        rewrite Hr. constructor. auto.
      * right. split; [reflexivity|]. right. exists r.
        repeat split; auto. discriminate.
    + destruct (String.eqb (ApiReview.state r)
                  PullRequestReviewState.APPROVED); discriminate.
  - rewrite (api_classify_many_undated pr Hlen Hex). intros [= <-].
    right. split; [reflexivity|]. left. auto.
Qed.

(** ** Claims about reviews in other states *)

(** C10, as stated, fails: a pending review has no submission time, and
    with the approval of the same reviewer before it the sort compares
    the two and raises TypeError; the pull request is not classified. *)
Lemma pending_review_without_time_raises :
  Api.fetch_pull_request_review_status_group
    (delivered (pull_of_alice
                  [ Review.mk bob PullRequestReviewState.APPROVED 10 ] []))
  = Ok PullRequestStatusGroup.approved
  /\ Api.fetch_pull_request_review_status_group
       (ApiPullRequest.mk "Add retries" "https://github.com/acme/api/pull/7"
          alice (Some (Repository.mk "api")) []
          [ ApiReview.mk bob PullRequestReviewState.APPROVED (Some 10);
            ApiReview.mk bob PullRequestReviewState.PENDING None ]
          [])
     = Raise TypeError
  /\ Api.fetch_pull_request_review_status_group
       (ApiPullRequest.mk "Add retries" "https://github.com/acme/api/pull/7"
          alice (Some (Repository.mk "api")) []
          [ ApiReview.mk bob PullRequestReviewState.APPROVED (Some 10);
            ApiReview.mk bob PullRequestReviewState.PENDING None ]
          [])
     <> Ok PullRequestStatusGroup.unreviewed.
Proof. split; [reflexivity | split; [reflexivity | discriminate]]. Qed.

(** C10, amended. When every review of the pull request has a submission
    time, a review whose state is none of approved, changes-requested and
    commented (a dismissed one, say), not by the author of the pull
    request and submitted strictly after the other reviews of its user,
    is retained, is the only retained review of that user, and changes
    neither flag; when every other review is by that user, by the author
    or a comment, the pull request is unreviewed. *)
Theorem dated_review_of_other_state_supersedes
    (pr : ApiPullRequest.t) (r : ApiReview.t) :
  Forall dated (ApiPullRequest.reviews pr) ->
  In r (ApiPullRequest.reviews pr) ->
  User.eqb (ApiReview.user r) (ApiPullRequest.user pr) = false ->
  ApiReview.state r <> PullRequestReviewState.APPROVED ->
  ApiReview.state r <> PullRequestReviewState.CHANGES_REQUESTED ->
  ApiReview.state r <> PullRequestReviewState.COMMENTED ->
  (forall e, In e (ApiPullRequest.reviews pr) -> same_reviewer e r ->
             e = r \/ submitted_before e r) ->
  exists retained,
    Api.last_reviews pr = Ok retained
    /\ In r retained
    /\ (forall e, In e retained -> same_reviewer e r -> e = r)
    /\ (forall flags, Api.note_review flags r = flags)
    /\ ((forall e, In e (ApiPullRequest.reviews pr) ->
                   same_reviewer e r
                   \/ User.eqb (ApiReview.user e) (ApiPullRequest.user pr)
                      = true
                   \/ ApiReview.state e = PullRequestReviewState.COMMENTED) ->
        Api.fetch_pull_request_review_status_group pr
        = Ok PullRequestStatusGroup.unreviewed).
Proof.
  intros Hd Hin Hself Hap Hcr Hco Hlatest.
  destruct (dated_pull_delivered pr Hd) as [pr' ->].
  cbn [delivered ApiPullRequest.reviews ApiPullRequest.user] in *.
  apply in_map_iff in Hin as (r' & <- & Hin').
  destruct (other_state_review_supersedes pr' r' Hin' Hself Hap Hcr Hco)
    as (Hret & Honly & Hflags & Hsole).
  { intros e' He' Hs.
    destruct (Hlatest (delivered_review e') (in_map _ _ _ He') Hs)
      as [E|Hb].
    - left. now apply delivered_review_injective.
    - right. exact Hb. }
  exists (map delivered_review (last_reviews pr')).
  split; [apply last_reviews_delivered|].
  split; [now apply in_map|]. split; [|split].
  - intros e He Hs. apply in_map_iff in He as (e' & <- & He').
    f_equal. now apply Honly.
  - intros flags. rewrite note_review_delivered. apply Hflags.
  - intros Hall.
    change (Api.fetch_pull_request_review_status_group (delivered pr')
            = Ok PullRequestStatusGroup.unreviewed).
    rewrite classify_delivered. apply Hsole.
    intros e' He'. exact (Hall (delivered_review e') (in_map _ _ _ He')).
Qed.

Lemma dated_review_of_other_state_supersedes_witness :
  Api.fetch_pull_request_review_status_group
    (ApiPullRequest.mk "Add retries" "https://github.com/acme/api/pull/7"
       alice (Some (Repository.mk "api")) []
       [ ApiReview.mk bob PullRequestReviewState.APPROVED (Some 10);
         ApiReview.mk bob "DISMISSED" (Some 20) ]
       [ Commit.mk "c0ffee" 5 ])
  = Ok PullRequestStatusGroup.unreviewed.
Proof.
  destruct (dated_review_of_other_state_supersedes
              (ApiPullRequest.mk "Add retries"
                 "https://github.com/acme/api/pull/7"
                 alice (Some (Repository.mk "api")) []
                 [ ApiReview.mk bob PullRequestReviewState.APPROVED (Some 10);
                   ApiReview.mk bob "DISMISSED" (Some 20) ]
                 [ Commit.mk "c0ffee" 5 ])
              (ApiReview.mk bob "DISMISSED" (Some 20)))
    as (retained & _ & _ & _ & _ & Hsole).
  - repeat constructor; discriminate.
  - right. now left.
  - reflexivity.
  - discriminate.
  - discriminate.
  - discriminate.
  - intros e [<-|[<-|[]]] _; [right; reflexivity | now left].
  - apply Hsole. intros e [<-|[<-|[]]]; left; reflexivity.
Defined.

(** ** The exceptions of the classifier, and the reviews that do not
    count *)

(** X8. The classifier raises TypeError exactly when two or more reviews
    are listed and one of them has no submission time, or when the only
    review has none, is not by the author, requests changes, and there is
    a commit.  It raises IndexError only when there is no commit and some
    review not by the author requests changes.  It raises nothing else:
    when every review has a submission time and there is a commit, it
    returns a group. *)
Theorem classifier_exceptions (pr : ApiPullRequest.t) :
  (Api.fetch_pull_request_review_status_group pr = Raise TypeError
   <-> ((2 <= List.length (ApiPullRequest.reviews pr))%nat
        /\ Exists undated (ApiPullRequest.reviews pr))
       \/ exists r,
            ApiPullRequest.reviews pr = [r] /\ undated r
            /\ User.eqb (ApiReview.user r) (ApiPullRequest.user pr) = false
            /\ ApiReview.state r = PullRequestReviewState.CHANGES_REQUESTED
            /\ ApiPullRequest.commits pr <> [])
  /\ (Api.fetch_pull_request_review_status_group pr = Raise IndexError ->
      ApiPullRequest.commits pr = []
      /\ Exists
           (fun r => ApiReview.state r
                     = PullRequestReviewState.CHANGES_REQUESTED
                     /\ User.eqb (ApiReview.user r) (ApiPullRequest.user pr)
                        = false)
           (ApiPullRequest.reviews pr))
  /\ Api.fetch_pull_request_review_status_group pr <> Raise AttributeError
  /\ (Forall dated (ApiPullRequest.reviews pr) ->
      ApiPullRequest.commits pr <> [] ->
      exists g, Api.fetch_pull_request_review_status_group pr = Ok g).
Proof.
  split; [split|split; [|split]].
  - intros H. apply api_classify_raise_inv in H as [[E _]|[_ H]];
      [discriminate | exact H].
  - intros [[Hlen Hex]|(r & Hr & Hu & Hself & Hs & Hc)].
    + now apply api_classify_many_undated.
    + rewrite (api_classify_single_undated pr r Hr Hu).
      unfold api_counts_for. rewrite Hself, Hs. cbn.
      destruct (ApiPullRequest.commits pr); [contradiction | reflexivity].
  - intros H. apply api_classify_raise_inv in H as [(_ & Hc & Hex)|[E _]];
      [auto | discriminate].
  - intros H. apply api_classify_raise_inv in H as [[E _]|[E _]];
      discriminate.
  - intros Hd Hc.
    destruct (Api.fetch_pull_request_review_status_group pr) as [g|e] eqn:E;
      [eauto|].
    apply api_classify_raise_inv in E
      as [(_ & Hnil & _)|(_ & [[_ Hex]|(r & Hr & Hu & _)])].
    + contradiction.
    + destruct (dated_not_undated _ Hd Hex).
    + rewrite Hr in Hd. inversion Hd as [|? ? Hx _]; subst.
      now destruct Hx.
Qed.

(** X11. When every review has a submission time, reviews by the author
    of the pull request and comments have no influence: without them in
    the input the group is the same. *)
Theorem uncounted_dated_reviews_have_no_influence (pr : ApiPullRequest.t) :
  Forall dated (ApiPullRequest.reviews pr) ->
  Api.fetch_pull_request_review_status_group
    (api_with_reviews pr
       (filter (api_counts_for pr) (ApiPullRequest.reviews pr)))
  = Api.fetch_pull_request_review_status_group pr.
Proof.
  intros Hd. destruct (dated_pull_delivered pr Hd) as [pr' ->].
  rewrite classify_delivered, <- (uncounted_reviews_have_no_influence pr'),
    <- classify_delivered.
  f_equal. unfold api_with_reviews, delivered, with_reviews.
  cbn [ApiPullRequest.title ApiPullRequest.html_url ApiPullRequest.user
       ApiPullRequest.repository ApiPullRequest.statuses
       ApiPullRequest.reviews ApiPullRequest.commits
       PullRequest.title PullRequest.html_url PullRequest.user
       PullRequest.repository PullRequest.statuses PullRequest.reviews
       PullRequest.commits].
  f_equal. now rewrite filter_map_swap.
Qed.

Lemma uncounted_dated_reviews_have_no_influence_witness :
  Api.fetch_pull_request_review_status_group
    (api_with_reviews
       (ApiPullRequest.mk "Add retries" "https://github.com/acme/api/pull/7"
          alice (Some (Repository.mk "api")) []
          [ ApiReview.mk alice PullRequestReviewState.COMMENTED (Some 30);
            ApiReview.mk bob PullRequestReviewState.APPROVED (Some 10) ]
          [])
       [ ApiReview.mk bob PullRequestReviewState.APPROVED (Some 10) ])
  = Api.fetch_pull_request_review_status_group
      (ApiPullRequest.mk "Add retries" "https://github.com/acme/api/pull/7"
         alice (Some (Repository.mk "api")) []
         [ ApiReview.mk alice PullRequestReviewState.COMMENTED (Some 30);
           ApiReview.mk bob PullRequestReviewState.APPROVED (Some 10) ]
         []).
Proof.
  apply (uncounted_dated_reviews_have_no_influence
           (ApiPullRequest.mk "Add retries"
              "https://github.com/acme/api/pull/7"
              alice (Some (Repository.mk "api")) []
              [ ApiReview.mk alice PullRequestReviewState.COMMENTED (Some 30);
                ApiReview.mk bob PullRequestReviewState.APPROVED (Some 10) ]
              [])).
  repeat constructor; discriminate.
Defined.

(** ** The report over delivered pull requests *)

Lemma for_each_raise_inv {S A : Type} (body : S -> A -> result S)
    (l : list A) : forall s e,
  Py.for_each body l s = Raise e ->
  exists x s', In x l /\ body s' x = Raise e.
Proof.
  induction l as [|x l IH]; intros s e; cbn [Py.for_each]; [discriminate|].
  destruct (body s x) as [s1|e1] eqn:E; cbn [bind].
  - intros H. destruct (IH _ _ H) as (y & s' & Hy & Hb).
    exists y, s'. split; [now right | assumption].
  - intros [= <-]. exists x, s. split; [now left | assumption].
Qed.

Lemma for_each_app {S A : Type} (body : S -> A -> result S)
    (l1 l2 : list A) : forall s,
  Py.for_each body (l1 ++ l2) s
  = s' <- Py.for_each body l1 s ;; Py.for_each body l2 s'.
Proof.
  induction l1 as [|x l1 IH]; intros s; cbn [app Py.for_each bind];
    [reflexivity|].
  destruct (body s x) as [s1|e1]; cbn [bind]; [apply IH | reflexivity].
Qed.

Lemma api_add_pull_delivered environ owner grouped pull :
  Api.add_pull environ owner grouped (delivered pull)
  = add_pull environ owner grouped pull.
Proof.
  unfold Api.add_pull, add_pull. rewrite classify_delivered. reflexivity.
Qed.

(** On pull requests all of whose reviews have a submission time, the
    report over delivered pull requests is the report over dated ones. *)
Lemma api_format_delivered environ pulls owner :
  Api.format_pull_requests environ (map delivered pulls) owner
  = format_pull_requests environ pulls owner.
Proof.
  unfold Api.format_pull_requests, format_pull_requests. f_equal.
  generalize (@Dict.empty group_key (list string)).
  induction pulls as [|pull pulls IH]; intros grouped;
    cbn [map Py.for_each]; [reflexivity|].
  rewrite api_add_pull_delivered.
  destruct (add_pull environ owner grouped pull); cbn [bind];
    [apply IH | reflexivity].
Qed.

Lemma api_add_pull_raise_inv environ owner grouped pull e :
  Api.add_pull environ owner grouped pull = Raise e ->
  is_valid_title environ (ApiPullRequest.title pull) = true
  /\ ((SPLIT_BY_REVIEW_STATUS environ = true
       /\ Api.fetch_pull_request_review_status_group pull = Raise e)
      \/ (e = AttributeError /\ ApiPullRequest.repository pull = None)).
Proof.
  unfold Api.add_pull.
  destruct (is_valid_title environ (ApiPullRequest.title pull));
    [|discriminate].
  intros H. split; [reflexivity|].
  destruct (SPLIT_BY_REVIEW_STATUS environ).
  - destruct (Api.fetch_pull_request_review_status_group pull) as [g|x].
    + cbn [bind] in H. right.
      destruct (ApiPullRequest.repository pull); [discriminate|].
      cbn [bind Py.attr_of] in H. injection H as <-. auto.
    + cbn [bind] in H. injection H as <-. left. auto.
  - cbn [bind] in H. right.
    destruct (ApiPullRequest.repository pull); [discriminate|].
    cbn [bind Py.attr_of] in H. injection H as <-. auto.
Qed.

(** X16. The report over delivered pull requests fails only for a pull
    request with an accepted title that has no repository
    (AttributeError) or, with splitting on, whose classification fails:
    with no commit while a review not by the author requests changes
    (IndexError), or with a review without submission time
    (TypeError). *)
Theorem report_fails_only_for
    (environ : string -> option string) (pulls : list ApiPullRequest.t)
    (owner : string) (e : exn) :
  Api.format_pull_requests environ pulls owner = Raise e ->
  exists pull,
    In pull pulls
    /\ is_valid_title environ (ApiPullRequest.title pull) = true
    /\ ((e = AttributeError /\ ApiPullRequest.repository pull = None)
        \/ (SPLIT_BY_REVIEW_STATUS environ = true
            /\ Api.fetch_pull_request_review_status_group pull = Raise e
            /\ e = IndexError
            /\ ApiPullRequest.commits pull = []
            /\ Exists
                 (fun r => ApiReview.state r
                           = PullRequestReviewState.CHANGES_REQUESTED
                           /\ User.eqb (ApiReview.user r)
                                (ApiPullRequest.user pull) = false)
                 (ApiPullRequest.reviews pull))
        \/ (SPLIT_BY_REVIEW_STATUS environ = true
            /\ Api.fetch_pull_request_review_status_group pull = Raise e
            /\ e = TypeError
            /\ Exists undated (ApiPullRequest.reviews pull))).
Proof.
  unfold Api.format_pull_requests.
  destruct (Py.for_each (Api.add_pull environ owner) pulls Dict.empty)
    as [grouped|x] eqn:E; [discriminate|].
  cbn [bind]. intros [= <-].
  apply for_each_raise_inv in E as (pull & grouped & Hin & Hadd).
  apply api_add_pull_raise_inv in Hadd as [Hvalid [[Hsplit Hc]|Hattr]].
  - exists pull. split; [assumption|]. split; [assumption|]. right.
    pose proof Hc as Hraise.
    apply api_classify_raise_inv in Hc
      as [(-> & Hnil & Hex)|(-> & [[_ Hex]|(r & Hr & Hu & _)])].
    + left. auto.
    + right. auto.
    + right. repeat split; auto. rewrite Hr. now constructor.
  - exists pull. auto.
Qed.

Lemma report_fails_only_for_witness :
  exists pull,
    In pull
      [ delivered (pull_of_alice [] []);
        ApiPullRequest.mk "Add retries" "https://github.com/acme/api/pull/7"
          alice (Some (Repository.mk "api")) []
          [ ApiReview.mk bob PullRequestReviewState.APPROVED (Some 10);
            ApiReview.mk carol PullRequestReviewState.PENDING None ]
          [ Commit.mk "c0ffee" 5 ] ]
    /\ is_valid_title env_default_settings (ApiPullRequest.title pull) = true
    /\ ((TypeError = AttributeError /\ ApiPullRequest.repository pull = None)
        \/ (SPLIT_BY_REVIEW_STATUS env_default_settings = true
            /\ Api.fetch_pull_request_review_status_group pull
               = Raise TypeError
            /\ TypeError = IndexError
            /\ ApiPullRequest.commits pull = []
            /\ Exists
                 (fun r => ApiReview.state r
                           = PullRequestReviewState.CHANGES_REQUESTED
                           /\ User.eqb (ApiReview.user r)
                                (ApiPullRequest.user pull) = false)
                 (ApiPullRequest.reviews pull))
        \/ (SPLIT_BY_REVIEW_STATUS env_default_settings = true
            /\ Api.fetch_pull_request_review_status_group pull
               = Raise TypeError
            /\ TypeError = TypeError
            /\ Exists undated (ApiPullRequest.reviews pull))).
Proof.
  apply (report_fails_only_for env_default_settings
           [ delivered (pull_of_alice [] []);
             ApiPullRequest.mk "Add retries"
               "https://github.com/acme/api/pull/7"
               alice (Some (Repository.mk "api")) []
               [ ApiReview.mk bob PullRequestReviewState.APPROVED (Some 10);
                 ApiReview.mk carol PullRequestReviewState.PENDING None ]
               [ Commit.mk "c0ffee" 5 ] ]
           "acme" TypeError).
  reflexivity.
Defined.

(** X17. A pull request without repository has no build status, and its
    line cannot be written: when the report of the pull requests before
    it succeeds, its title is accepted and, with splitting on, its
    classification returns a group, the report fails with AttributeError,
    whatever comes after it. *)
Theorem missing_repository_aborts_report
    (environ : string -> option string) (owner : string)
    (before after : list ApiPullRequest.t) (pull : ApiPullRequest.t)
    (lines : list string) :
  Api.format_pull_requests environ before owner = Ok lines ->
  ApiPullRequest.repository pull = None ->
  is_valid_title environ (ApiPullRequest.title pull) = true ->
  (SPLIT_BY_REVIEW_STATUS environ = true ->
   exists g, Api.fetch_pull_request_review_status_group pull = Ok g) ->
  Api.fetch_combined_build_status environ pull = None
  /\ Api.format_pull_requests environ (before ++ pull :: after) owner
     = Raise AttributeError.
Proof.
  intros Hbefore Hrepo Hvalid Hgroup. split.
  - unfold Api.fetch_combined_build_status,
      Api.fetch_pull_request_build_statuses,
      combined_build_status, most_recent_statuses.
    rewrite Hrepo. cbn [most_recent_status_by_context fold_left].
    now rewrite without_ignored_empty.
  - unfold Api.format_pull_requests in *. rewrite for_each_app.
    destruct (Py.for_each (Api.add_pull environ owner) before Dict.empty)
      as [grouped|x]; [|discriminate].
    cbn [bind Py.for_each].
    assert (Api.add_pull environ owner grouped pull = Raise AttributeError)
      as ->; [|reflexivity].
    unfold Api.add_pull. rewrite Hvalid, Hrepo.
    destruct (SPLIT_BY_REVIEW_STATUS environ); [|reflexivity].
    destruct (Hgroup eq_refl) as [g ->]. reflexivity.
Qed.

Lemma missing_repository_aborts_report_witness :
  Api.fetch_combined_build_status env_default_settings
    (ApiPullRequest.mk "Fix" "https://github.com/acme/api/pull/8" alice None
       [ Status.mk "ci" "failure" (Some 1) ] [] [])
  = None
  /\ Api.format_pull_requests env_default_settings
       ([ delivered (pull_of_alice [] []) ]
        ++ ApiPullRequest.mk "Fix" "https://github.com/acme/api/pull/8" alice
             None [ Status.mk "ci" "failure" (Some 1) ] [] []
           :: [ delivered (pull_of_alice [] []) ])
       "acme"
     = Raise AttributeError.
Proof.
  apply (missing_repository_aborts_report env_default_settings "acme"
           [ delivered (pull_of_alice [] []) ]
           [ delivered (pull_of_alice [] []) ]
           (ApiPullRequest.mk "Fix" "https://github.com/acme/api/pull/8"
              alice None [ Status.mk "ci" "failure" (Some 1) ] [] [])
           [ ":eyetwitch: _Needs Review_"%string;
             "*       [acme/api]* <https://github.com/acme/api/pull/7|Add retries - by alice>"%string
           ]).
  - reflexivity.
  - reflexivity.
  - reflexivity.
  - intros _. now exists PullRequestStatusGroup.unreviewed.
Defined.

(** ** The title filter on ASCII text *)

Lemma ascii_code_lower (c : ascii) :
  (nat_of_ascii (Str.lower_ascii c) <? 128)%nat
  = (nat_of_ascii c <? 128)%nat.
Proof. destruct c as [[] [] [] [] [] [] [] []]; reflexivity. Qed.

Lemma is_ascii_lower (s : string) : is_ascii (Str.lower s) = is_ascii s.
Proof.
  induction s as [|c s IH]; simpl; [reflexivity|].
  now rewrite ascii_code_lower, IH.
Qed.

Lemma is_ascii_lstrip (s : string) :
  is_ascii s = true -> is_ascii (Str.lstrip s) = true.
Proof.
  induction s as [|c s IH]; simpl; [reflexivity|].
  intros H. destruct (Str.isspace c); [|exact H].
  apply andb_true_iff in H. now apply IH.
Qed.

Lemma is_ascii_rev_append (s : string) : forall acc,
  is_ascii (Str.rev_append s acc) = is_ascii s && is_ascii acc.
Proof.
  induction s as [|c s IH]; intros acc; simpl; [reflexivity|].
  rewrite IH. simpl.
  now destruct (nat_of_ascii c <? 128)%nat, (is_ascii s), (is_ascii acc).
Qed.

Lemma is_ascii_rev (s : string) : is_ascii (Str.rev s) = is_ascii s.
Proof.
  unfold Str.rev. rewrite is_ascii_rev_append. simpl.
  now rewrite andb_true_r.
Qed.

Lemma is_ascii_strip (s : string) :
  is_ascii s = true -> is_ascii (Str.strip s) = true.
Proof.
  intros H. unfold Str.strip, Str.rstrip.
  rewrite is_ascii_rev. apply is_ascii_lstrip.
  rewrite is_ascii_rev. now apply is_ascii_lstrip.
Qed.

Lemma is_ascii_split (sep : ascii) (s : string) :
  is_ascii s = true ->
  forall item, In item (Str.split sep s) -> is_ascii item = true.
Proof.
  induction s as [|c s IH]; simpl.
  - intros _ item [<-|[]]. reflexivity.
  - intros H. apply andb_true_iff in H as [Hc Hs]. specialize (IH Hs).
    destruct (Ascii.eqb c sep).
    + intros item [<-|Hin]; [reflexivity | now apply IH].
    + destruct (Str.split sep s) as [|h t].
      * intros item [<-|[]]. simpl. now rewrite Hc.
      * intros item [<-|Hin].
        -- simpl. rewrite Hc. apply IH. now left.
        -- apply IH. now right.
Qed.

Lemma env_list_ascii (v : option string) :
  (forall value, v = Some value -> is_ascii value = true) ->
  forall c, In c (env_list v) -> is_ascii c = true.
Proof.
  intros H c Hc. unfold env_list in Hc.
  destruct v as [value|]; [|contradiction].
  destruct (Str.truthy value); [|contradiction].
  apply in_map_iff in Hc as (item & <- & Hin).
  apply is_ascii_strip. rewrite is_ascii_lower.
  eapply is_ascii_split; eauto.
Qed.

(** X2. For a title and a value of IGNORE_WORDS made of ASCII characters:
    the ignored words and the lower-cased title are ASCII text, and the
    title is rejected exactly when its lower-cased form contains one of
    the ignored words as a contiguous part. *)
Theorem title_rejected_iff (environ : string -> option string)
    (title : string) :
  (forall value, environ "IGNORE_WORDS"%string = Some value ->
                 is_ascii value = true) ->
  is_ascii title = true ->
  (forall word, In word (IGNORE_WORDS environ) -> is_ascii word = true)
  /\ is_ascii (Str.lower title) = true
  /\ (is_valid_title environ title = false
      <-> exists word pre post,
            In word (IGNORE_WORDS environ)
            /\ Str.lower title
               = String.append pre (String.append word post)).
Proof.
  intros Hvalue Htitle. split; [|split].
  - apply env_list_ascii. exact Hvalue.
  - now rewrite is_ascii_lower.
  - rewrite is_valid_title_false. split.
    + intros (word & Hin & Hc).
      apply contains_iff in Hc as (pre & post & H). eauto.
    + intros (word & pre & post & Hin & H). exists word.
      split; [assumption|]. apply contains_iff. eauto.
Qed.

Lemma title_rejected_iff_witness :
  exists word pre post,
    In word (IGNORE_WORDS (env_setting "IGNORE_WORDS" "Draft, wip"))
    /\ Str.lower "WIP: add retries"
       = String.append pre (String.append word post).
Proof.
  apply (title_rejected_iff (env_setting "IGNORE_WORDS" "Draft, wip")
           "WIP: add retries").
  - intros value H. injection H as <-. reflexivity.
  - reflexivity.
  - reflexivity.
Defined.
